(** * esp_update: the firmware flashing orchestrator ([src/flash.ts])

    A shallow embedding of [flash] and of the data shapes of [const.ts],
    with the collaborators it calls (serial device, network) given by an
    environment of outcomes, and the observable behaviour of a run given
    by the log of emitted ["state-changed"] events and disconnect
    attempts. *)

From Stdlib Require Import List ZArith NArith Bool String Lia.
From Stdlib Require Import SpecFloat DecimalString.
From Stdlib Require Import Reals Lra.
Import ListNotations.
Open Scope string_scope.

(** * The program *)

(** ** JavaScript numbers

    A [number] is an IEEE 754 binary64 value; arithmetic is the Standard
    Library's executable specification [SpecFloat] at precision 53. *)

Definition number := spec_float.
Definition prec : Z := 53.
Definition emax : Z := 1024.

Definition num_of_Z (z : Z) : number := binary_normalize prec emax z 0 false.
Definition num_of_N (n : N) : number := num_of_Z (Z.of_N n).

Definition js_div : number -> number -> number := SFdiv prec emax.
Definition js_mul : number -> number -> number := SFmul prec emax.

(** [===] on numbers: [NaN] differs from itself, the two zeros are equal. *)
Definition js_strict_eq : number -> number -> bool := SFeqb.

(** [Math.floor]: finite values with a negative exponent lose their
    fractional bits, rounding towards minus infinity. *)
Definition js_floor (x : number) : number :=
  match x with
  | S754_finite s m e =>
      if (0 <=? e)%Z then x
      else binary_normalize prec emax
             (Z.shiftr (cond_Zopp s (Zpos m)) (- e)) 0 s
  | _ => x
  end.

(** ** Data shapes of [const.ts] *)

Module Part.
Record t := { path : string; offset : N }.
End Part.

(** [chipFamily] is whatever string the fetched JSON holds; the declared
    type admits ["ESP32"] and ["ESP8266"]. *)
Module Build.
Record t := { chipFamily : string; improv : bool; parts : list Part.t }.
End Build.

Module Manifest.
Record t := { name : string; builds : list Build.t }.
End Manifest.

(** The type of [chipFamily] in [flash]: what [getChipFamilyName] returns. *)
Inductive ChipFamily := ESP32 | ESP8266 | ESP32_S2 | Unknown_Chip.

Definition chipFamilyName (c : ChipFamily) : string :=
  match c with
  | ESP32 => "ESP32"
  | ESP8266 => "ESP8266"
  | ESP32_S2 => "ESP32-S2"
  | Unknown_Chip => "Unknown Chip"
  end.

Inductive State :=
  INITIALIZING | MANIFEST | PREPARING | ERASING | WRITING | FINISHED | ERROR.

Inductive FlashError :=
  | FAILED_INITIALIZING
  | FAILED_MANIFEST_FETCH
  | NOT_SUPPORTED
  | FAILED_FIRMWARE_DOWNLOAD
  | WRITE_FAILED.

(** A thrown value: an [Error] object with its message. *)
Record JsError := { err_message : string }.

(** The [message] field: a string, a template ending in a number and a
    percent sign (the number is kept as such), or a caught error. *)
Inductive Message :=
  | MStr (s : string)
  | MPct (prefix : string) (pct : number)
  | MErr (e : JsError).

(** The inner [details] of an error state: [string | Error]. *)
Inductive ErrorDetails :=
  | DetStr (s : string)
  | DetErr (e : JsError).

(** The tagged union [FlashState]. *)
Inductive FlashState :=
  | InitializingState (message : Message) (done : bool)
  | ManifestState (message : Message) (done : bool)
  | PreparingState (message : Message) (done : bool)
  | ErasingState (message : Message) (done : bool)
  | WritingState (message : Message)
                 (bytesTotal bytesWritten : N) (percentage : number)
  | FinishedState (message : Message)
  | ErrorState (message : Message) (error : FlashError) (details : ErrorDetails).

Definition state (s : FlashState) : State :=
  match s with
  | InitializingState _ _ => INITIALIZING
  | ManifestState _ _ => MANIFEST
  | PreparingState _ _ => PREPARING
  | ErasingState _ _ => ERASING
  | WritingState _ _ _ _ => WRITING
  | FinishedState _ => FINISHED
  | ErrorState _ _ _ => ERROR
  end.

(** The payload of a ["state-changed"] event: the state update spread
    together with the three context variables of the run. *)
Record StateChanged := {
  update : FlashState;
  ev_manifest : option Manifest.t;
  ev_build : option Build.t;
  ev_chipFamily : option ChipFamily }.

(** ** Collaborators *)

Record ArrayBuffer := { byteLength : N }.

Inductive result (A : Type) :=
  | Resolved (a : A)
  | Rejected (e : JsError).
Arguments Resolved {A} a.
Arguments Rejected {A} e.

(** A fetch response: [ok], [status] and the outcome of [arrayBuffer()]. *)
Record Response := {
  ok : bool;
  status : N;
  arrayBuffer : result ArrayBuffer }.

(** The outcome of every call [flash] makes to the outside.  Part fetches
    and [flashData] calls are told apart by the index of their part;
    [flashData] gives the values it passes to its progress callback, in
    order, and how the call ends.  [resolveURL path base] is
    [new URL(path, base).toString()] for a path that resolves: a path
    for which [new URL] throws is not modelled ([flash] then rejects
    before it connects or publishes anything). *)
Record Env := {
  location : string;
  resolveURL : string -> string -> string;
  fetch_json : string -> result Manifest.t;
  fetch : nat -> string -> result Response;
  connect : result unit;
  initialize : result unit;
  connected : bool;
  getChipFamilyName : ChipFamily;
  runStub : result unit;
  eraseFlash : result unit;
  flashData : nat -> ArrayBuffer -> N -> list N * result unit;
  hardReset : result unit;
  disconnect : result unit }.

(** ** The run: variables, log and control *)

Inductive Event :=
  | Fired (e : StateChanged)
  | Disconnect.

(** The [let] variables of [flash] and the log of what the run did. *)
Record Store := {
  manifest : option Manifest.t;
  build : option Build.t;
  chipFamily : option ChipFamily;
  files : list ArrayBuffer;
  totalSize : N;
  lastPct : number;
  totalWritten : N;
  log : list Event }.

Definition start : Store :=
  {| manifest := None; build := None; chipFamily := None;
     files := []; totalSize := 0; lastPct := num_of_N 0; totalWritten := 0;
     log := [] |}.

(** How a piece of the body ends: normally, by [return] out of [flash],
    or by an exception. *)
Inductive Completion (A : Type) :=
  | Normal (a : A)
  | Return
  | Throw (e : JsError).
Arguments Normal {A} a.
Arguments Return {A}.
Arguments Throw {A} e.

Definition M (A : Type) := Store -> Completion A * Store.

Definition ret {A} (a : A) : M A := fun s => (Normal a, s).

Definition bind {A B} (c : M A) (k : A -> M B) : M B :=
  fun s =>
    match c s with
    | (Normal a, s') => k a s'
    | (Return, s') => (Return, s')
    | (Throw e, s') => (Throw e, s')
    end.

Notation "x <- c ;; k" := (bind c (fun x => k))
  (at level 61, c at next level, right associativity).
Notation "c ;; k" := (bind c (fun _ => k))
  (at level 61, right associativity).

Definition return_ {A} : M A := fun s => (Return, s).

Definition try_catch {A} (body : M A) (handler : JsError -> M A) : M A :=
  fun s =>
    match body s with
    | (Throw e, s') => handler e s'
    | r => r
    end.

Definition await {A} (r : result A) : M A :=
  fun s =>
    match r with
    | Resolved a => (Normal a, s)
    | Rejected e => (Throw e, s)
    end.

Definition get : M Store := fun s => (Normal s, s).

Definition emit (e : Event) : M unit :=
  fun s =>
    (Normal tt,
     {| manifest := manifest s; build := build s; chipFamily := chipFamily s;
        files := files s; totalSize := totalSize s; lastPct := lastPct s;
        totalWritten := totalWritten s; log := log s ++ [e] |}).

Definition set_manifest (m : Manifest.t) : M unit :=
  fun s =>
    (Normal tt,
     {| manifest := Some m; build := build s; chipFamily := chipFamily s;
        files := files s; totalSize := totalSize s; lastPct := lastPct s;
        totalWritten := totalWritten s; log := log s |}).

Definition set_build (b : option Build.t) : M unit :=
  fun s =>
    (Normal tt,
     {| manifest := manifest s; build := b; chipFamily := chipFamily s;
        files := files s; totalSize := totalSize s; lastPct := lastPct s;
        totalWritten := totalWritten s; log := log s |}).

Definition set_chipFamily (c : ChipFamily) : M unit :=
  fun s =>
    (Normal tt,
     {| manifest := manifest s; build := build s; chipFamily := Some c;
        files := files s; totalSize := totalSize s; lastPct := lastPct s;
        totalWritten := totalWritten s; log := log s |}).

(** [files.push(data); totalSize += data.byteLength] *)
Definition push_file (data : ArrayBuffer) : M unit :=
  fun s =>
    (Normal tt,
     {| manifest := manifest s; build := build s; chipFamily := chipFamily s;
        files := files s ++ [data];
        totalSize := totalSize s + byteLength data;
        lastPct := lastPct s; totalWritten := totalWritten s; log := log s |}).

(** [files.shift()!]: on an empty array the value is [undefined] and the
    first property access on it throws. *)
Definition shift_file : M ArrayBuffer :=
  fun s =>
    match files s with
    | [] => (Throw {| err_message := "TypeError" |}, s)
    | f :: rest =>
        (Normal f,
         {| manifest := manifest s; build := build s;
            chipFamily := chipFamily s; files := rest;
            totalSize := totalSize s; lastPct := lastPct s;
            totalWritten := totalWritten s; log := log s |})
    end.

Definition set_lastPct (p : number) : M unit :=
  fun s =>
    (Normal tt,
     {| manifest := manifest s; build := build s; chipFamily := chipFamily s;
        files := files s; totalSize := totalSize s; lastPct := p;
        totalWritten := totalWritten s; log := log s |}).

Definition set_totalWritten (n : N) : M unit :=
  fun s =>
    (Normal tt,
     {| manifest := manifest s; build := build s; chipFamily := chipFamily s;
        files := files s; totalSize := totalSize s; lastPct := lastPct s;
        totalWritten := n; log := log s |}).

(** [totalWritten += n] *)
Definition add_totalWritten (n : N) : M unit :=
  fun s =>
    (Normal tt,
     {| manifest := manifest s; build := build s; chipFamily := chipFamily s;
        files := files s; totalSize := totalSize s; lastPct := lastPct s;
        totalWritten := totalWritten s + n; log := log s |}).

(** ** [flash] *)

(** [fireStateEvent]: the update with the current [manifest], [build] and
    [chipFamily] attached. *)
Definition fireStateEvent (stateUpdate : FlashState) : M unit :=
  s <- get ;;
  emit (Fired {| update := stateUpdate;
                 ev_manifest := manifest s;
                 ev_build := build s;
                 ev_chipFamily := chipFamily s |}).

(** [await esploader.disconnect()] *)
Definition call_disconnect (env : Env) : M unit :=
  emit Disconnect ;; await (disconnect env).

(** [manifest.builds.find((b) => b.chipFamily === chipFamily)] *)
Definition find_build (m : Manifest.t) (c : ChipFamily) : option Build.t :=
  find (fun b => String.eqb (Build.chipFamily b) (chipFamilyName c))
       (Manifest.builds m).

(** The decimal digits of an integer inside a template string. *)
Definition string_of_N (n : N) : string :=
  DecimalString.NilZero.string_of_uint (N.to_uint n).

(** The error thrown for a response that is not [ok]. *)
Definition download_error (path : string) (status : N) : JsError :=
  {| err_message :=
       "Đang tải firmware " ++ path ++ " gặp lỗi: " ++ string_of_N status |}.

(** The body of [build.parts.map(async (part) => ...)] for the part of
    index [i]: the promise it returns, settled. *)
Definition download (env : Env) (manifestURL : string) (i : nat)
    (part : Part.t) : result ArrayBuffer :=
  let url := resolveURL env (Part.path part) manifestURL in
  match fetch env i url with
  | Rejected e => Rejected e
  | Resolved resp =>
      if ok resp then arrayBuffer resp
      else Rejected (download_error (Part.path part) (status resp))
  end.

Fixpoint filePromises (env : Env) (manifestURL : string) (i : nat)
    (parts : list Part.t) : list (result ArrayBuffer) :=
  match parts with
  | [] => []
  | part :: rest =>
      download env manifestURL i part :: filePromises env manifestURL (S i) rest
  end.

(** [for (const prom of filePromises) { try { ... } catch (err) { ... } }] *)
Fixpoint await_files (env : Env) (proms : list (result ArrayBuffer)) : M unit :=
  match proms with
  | [] => ret tt
  | prom :: rest =>
      try_catch
        (data <- await prom ;;
         push_file data)
        (fun err =>
           fireStateEvent
             (ErrorState (MErr err) FAILED_FIRMWARE_DOWNLOAD (DetErr err)) ;;
           call_disconnect env ;;
           return_) ;;
      await_files env rest
  end.

(** The percentage of the progress callback:
    [Math.floor(((totalWritten + bytesWritten) / totalSize) * 100)].
    Byte counts are integers and are added as such. *)
Definition percent (written total : N) : number :=
  js_floor (js_mul (js_div (num_of_N written) (num_of_N total)) (num_of_N 100)).

(** The progress callback handed to [flashData]. *)
Definition onProgress (bytesWritten : N) : M unit :=
  s <- get ;;
  let newPct := percent (totalWritten s + bytesWritten) (totalSize s) in
  if js_strict_eq newPct (lastPct s) then ret tt
  else
    set_lastPct newPct ;;
    fireStateEvent
      (WritingState (MPct "Tiến trình ghi: " newPct)
                    (totalSize s) (totalWritten s + bytesWritten) newPct).

Fixpoint each {A} (f : A -> M unit) (l : list A) : M unit :=
  match l with
  | [] => ret tt
  | a :: rest => f a ;; each f rest
  end.

(** [await espStub.flashData(file, callback, part.offset, true)]: the
    device calls back with its progress values and then settles. *)
Definition call_flashData (env : Env) (i : nat) (file : ArrayBuffer)
    (callback : N -> M unit) (offset : N) : M unit :=
  each callback (fst (flashData env i file offset)) ;;
  await (snd (flashData env i file offset)).

(** [for (const part of build.parts) { ... }], at the part of index [i]. *)
Fixpoint write_parts (env : Env) (i : nat) (parts : list Part.t) : M unit :=
  match parts with
  | [] => ret tt
  | part :: rest =>
      file <- shift_file ;;
      try_catch
        (call_flashData env i file onProgress (Part.offset part))
        (fun err =>
           fireStateEvent (ErrorState (MErr err) WRITE_FAILED (DetErr err)) ;;
           call_disconnect env ;;
           return_) ;;
      add_totalWritten (byteLength file) ;;
      write_parts env (S i) rest
  end.

(** [await sleep(100)]: a timer, which always resolves. *)
Definition sleep (ms : N) : M unit := ret tt.

Definition flash (env : Env) (manifestPath : string) (eraseFirst : bool)
    : M unit :=
  let manifestURL := resolveURL env manifestPath (location env) in
  let manifestProm := fetch_json env manifestURL in
  try_catch (await (connect env)) (fun _ => return_) ;;
  fireStateEvent (InitializingState (MStr "Đang cài đặt...") false) ;;
  try_catch
    (await (initialize env))
    (fun err =>
       (if connected env then
          fireStateEvent
            (ErrorState
               (MStr "Không thể khởi tạo. Thử reset thiết bị và giữ nút FLASH hoặc nút BOOT khi chọn cổng COM.")
               FAILED_INITIALIZING (DetErr err)) ;;
          call_disconnect env
        else ret tt) ;;
       return_) ;;
  let chip := getChipFamilyName env in
  set_chipFamily chip ;;
  fireStateEvent
    (InitializingState
       (MStr ("Đã khởi tạo cài đặt cho Chip " ++ chipFamilyName chip)) true) ;;
  fireStateEvent (ManifestState (MStr "Đang tìm Firmware...") false) ;;
  m <- try_catch
         (m <- await manifestProm ;;
          set_manifest m ;;
          ret m)
         (fun err =>
            fireStateEvent
              (ErrorState
                 (MStr ("Không tìm thấy phần mềm phù hợp: " ++ err_message err))
                 FAILED_MANIFEST_FETCH (DetErr err)) ;;
            call_disconnect env ;;
            return_) ;;
  set_build (find_build m chip) ;;
  fireStateEvent
    (ManifestState (MStr ("Tìm thấy yêu cầu " ++ Manifest.name m)) true) ;;
  match find_build m chip with
  | None =>
      fireStateEvent
        (ErrorState
           (MStr ("Bo mạch " ++ chipFamilyName chip ++ " không được hỗ trợ."))
           NOT_SUPPORTED (DetStr (chipFamilyName chip))) ;;
      call_disconnect env ;;
      return_
  | Some b =>
  fireStateEvent (PreparingState (MStr "Đang chuẩn bị cài đặt...") false) ;;
  let proms := filePromises env manifestURL 0 (Build.parts b) in
  await (runStub env) ;;
  await_files env proms ;;
  fireStateEvent (PreparingState (MStr "Đang chuẩn bị cài đặt") true) ;;
  (if eraseFirst then
     fireStateEvent (ErasingState (MStr "Đang xóa...") false) ;;
     await (eraseFlash env) ;;
     fireStateEvent (ErasingState (MStr "Đã xóa thiết bị") true)
   else ret tt) ;;
  set_lastPct (num_of_N 0) ;;
  s0 <- get ;;
  fireStateEvent
    (WritingState (MPct "Quá trình ghi: " (lastPct s0))
                  (totalSize s0) 0 (lastPct s0)) ;;
  set_totalWritten 0 ;;
  write_parts env 0 (Build.parts b) ;;
  s1 <- get ;;
  fireStateEvent
    (WritingState (MStr "Flash thành công")
                  (totalSize s1) (totalWritten s1) (num_of_N 100)) ;;
  sleep 100 ;;
  await (hardReset env) ;;
  call_disconnect env ;;
  fireStateEvent (FinishedState (MStr "Tuyệt vời. Đã hoàn thành!"))
  end.

(** A run: [flash] from fresh variables and an empty log. *)
Definition run (env : Env) (manifestPath : string) (eraseFirst : bool)
    : Completion unit * Store :=
  flash env manifestPath eraseFirst start.

Definition trace (env : Env) (manifestPath : string) (eraseFirst : bool)
    : list Event :=
  log (snd (run env manifestPath eraseFirst)).

(** The state-changed events of a log, in order. *)
Fixpoint fired (l : list Event) : list StateChanged :=
  match l with
  | [] => []
  | Fired e :: rest => e :: fired rest
  | Disconnect :: rest => fired rest
  end.

Definition states (env : Env) (manifestPath : string) (eraseFirst : bool)
    : list FlashState :=
  map update (fired (trace env manifestPath eraseFirst)).

(** ** What the loops compute *)

Open Scope list_scope.

(** The three context variables of a store, and an event fired with them. *)
Record Context := {
  c_manifest : option Manifest.t;
  c_build : option Build.t;
  c_chipFamily : option ChipFamily }.

Definition context (s : Store) : Context :=
  {| c_manifest := manifest s; c_build := build s;
     c_chipFamily := chipFamily s |}.

Definition fire (c : Context) (u : FlashState) : Event :=
  Fired {| update := u; ev_manifest := c_manifest c; ev_build := c_build c;
           ev_chipFamily := c_chipFamily c |}.

(** The progress tracker in the words of the specification: from the
    cumulative byte counts, the pairs (bytes written, percentage) that are
    published, an update being dropped when its percentage equals the
    last one published. *)
Fixpoint tracker (total : N) (last : number) (cumulative : list N)
    : list (N * number) :=
  match cumulative with
  | [] => []
  | w :: rest =>
      if js_strict_eq (percent w total) last then tracker total last rest
      else (w, percent w total) :: tracker total (percent w total) rest
  end.

Fixpoint tracker_last (total : N) (last : number) (cumulative : list N)
    : number :=
  match cumulative with
  | [] => last
  | w :: rest =>
      if js_strict_eq (percent w total) last then tracker_last total last rest
      else tracker_last total (percent w total) rest
  end.

Definition progress_state (total : N) (wp : N * number) : FlashState :=
  WritingState (MPct "Tiến trình ghi: " (snd wp)) total (fst wp) (snd wp).

(** The buffers obtained before the first rejected download, and that
    rejection. *)
Fixpoint settle (proms : list (result ArrayBuffer))
    : list ArrayBuffer * option JsError :=
  match proms with
  | [] => ([], None)
  | Resolved data :: rest =>
      (data :: fst (settle rest), snd (settle rest))
  | Rejected e :: _ => ([], Some e)
  end.

Definition sizes (l : list ArrayBuffer) : N :=
  fold_right (fun f n => byteLength f + n)%N 0%N l.

(** The cumulative byte counts the device reports while the parts are
    written in order, up to the first [flashData] call that fails, and
    the error of that call. *)
Fixpoint fed (env : Env) (i : nat) (parts : list Part.t)
    (bufs : list ArrayBuffer) (written : N) : list N * option JsError :=
  match parts, bufs with
  | part :: rest, file :: more =>
      let r := flashData env i file (Part.offset part) in
      let here := map (N.add written) (fst r) in
      match snd r with
      | Resolved _ =>
          let later := fed env (S i) rest more (written + byteLength file) in
          ((here ++ fst later)%list, snd later)
      | Rejected e => (here, Some e)
      end
  | _, _ => ([], None)
  end.

(** How a piece that ends with a disconnect and a [return] completes. *)
Definition after_disconnect (env : Env) : Completion unit :=
  match disconnect env with
  | Resolved _ => Return
  | Rejected e => Throw e
  end.

(** ** The shapes of a run *)

Section Shapes.

Variable env : Env.
Variable manifestPath : string.
Variable eraseFirst : bool.

Let chip := getChipFamilyName env.
Let manifestURL := resolveURL env manifestPath (location env).

(** The context of the events, as the run goes on. *)
Definition ctx_start : Context :=
  {| c_manifest := None; c_build := None; c_chipFamily := None |}.
Definition ctx_chip : Context :=
  {| c_manifest := None; c_build := None; c_chipFamily := Some chip |}.
Definition ctx_manifest (m : Manifest.t) : Context :=
  {| c_manifest := Some m; c_build := find_build m chip;
     c_chipFamily := Some chip |}.

Definition upto_manifest : list Event :=
  [ fire ctx_start (InitializingState (MStr "Đang cài đặt...") false);
    fire ctx_chip
      (InitializingState
         (MStr ("Đã khởi tạo cài đặt cho Chip " ++ chipFamilyName chip)%string)
         true);
    fire ctx_chip (ManifestState (MStr "Đang tìm Firmware...") false) ].

Definition upto_found (m : Manifest.t) : list Event :=
  upto_manifest
  ++ [ fire (ctx_manifest m)
         (ManifestState
            (MStr ("Tìm thấy yêu cầu " ++ Manifest.name m)%string) true) ].

Definition upto_preparing (m : Manifest.t) : list Event :=
  upto_found m
  ++ [ fire (ctx_manifest m)
         (PreparingState (MStr "Đang chuẩn bị cài đặt...") false) ].

Definition upto_prepared (m : Manifest.t) : list Event :=
  upto_preparing m
  ++ [ fire (ctx_manifest m)
         (PreparingState (MStr "Đang chuẩn bị cài đặt") true) ].

Definition erasing (m : Manifest.t) : list Event :=
  [ fire (ctx_manifest m) (ErasingState (MStr "Đang xóa...") false) ].

Definition erased (m : Manifest.t) : list Event :=
  erasing m
  ++ [ fire (ctx_manifest m) (ErasingState (MStr "Đã xóa thiết bị") true) ].

Definition upto_writing (m : Manifest.t) (total : N) : list Event :=
  upto_prepared m
  ++ (if eraseFirst then erased m else [])
  ++ [ fire (ctx_manifest m)
         (WritingState (MPct "Quá trình ghi: " (num_of_N 0)) total 0
                       (num_of_N 0)) ].

Definition progress (m : Manifest.t) (total : N) (cum : list N)
    : list Event :=
  map (fun wp => fire (ctx_manifest m) (progress_state total wp))
      (tracker total (num_of_N 0) cum).

Definition upto_written (m : Manifest.t) (total : N) (cum : list N)
    : list Event :=
  upto_writing m total
  ++ progress m total cum
  ++ [ fire (ctx_manifest m)
         (WritingState (MStr "Flash thành công") total total
                       (num_of_N 100)) ].

Definition failure (c : Context) (msg : Message) (tag : FlashError)
    (d : ErrorDetails) : list Event :=
  [ fire c (ErrorState msg tag d); Disconnect ].

(** Every way a run can go, with how it completes and what it logs. *)
Inductive Shape : Completion unit -> list Event -> Prop :=
| Cancelled e :
    connect env = Rejected e ->
    Shape Return []
| InitFailedClosed u e :
    connect env = Resolved u ->
    initialize env = Rejected e ->
    connected env = false ->
    Shape Return
      [ fire ctx_start (InitializingState (MStr "Đang cài đặt...") false) ]
| InitFailed u e :
    connect env = Resolved u ->
    initialize env = Rejected e ->
    connected env = true ->
    Shape (after_disconnect env)
      ([ fire ctx_start (InitializingState (MStr "Đang cài đặt...") false) ]
       ++ failure ctx_start
            (MStr "Không thể khởi tạo. Thử reset thiết bị và giữ nút FLASH hoặc nút BOOT khi chọn cổng COM.")
            FAILED_INITIALIZING (DetErr e))
| ManifestFailed u u' e :
    connect env = Resolved u ->
    initialize env = Resolved u' ->
    fetch_json env manifestURL = Rejected e ->
    Shape (after_disconnect env)
      (upto_manifest
       ++ failure ctx_chip
            (MStr ("Không tìm thấy phần mềm phù hợp: " ++ err_message e)%string)
            FAILED_MANIFEST_FETCH (DetErr e))
| Unsupported u u' m :
    connect env = Resolved u ->
    initialize env = Resolved u' ->
    fetch_json env manifestURL = Resolved m ->
    find_build m chip = None ->
    Shape (after_disconnect env)
      (upto_found m
       ++ failure (ctx_manifest m)
            (MStr ("Bo mạch " ++ chipFamilyName chip
                   ++ " không được hỗ trợ.")%string)
            NOT_SUPPORTED (DetStr (chipFamilyName chip)))
| StubFailed u u' m b e :
    connect env = Resolved u ->
    initialize env = Resolved u' ->
    fetch_json env manifestURL = Resolved m ->
    find_build m chip = Some b ->
    runStub env = Rejected e ->
    Shape (Throw e) (upto_preparing m)
| DownloadFailed u u' m b u'' bufs e :
    connect env = Resolved u ->
    initialize env = Resolved u' ->
    fetch_json env manifestURL = Resolved m ->
    find_build m chip = Some b ->
    runStub env = Resolved u'' ->
    settle (filePromises env manifestURL 0 (Build.parts b)) = (bufs, Some e) ->
    Shape (after_disconnect env)
      (upto_preparing m
       ++ failure (ctx_manifest m) (MErr e) FAILED_FIRMWARE_DOWNLOAD
            (DetErr e))
| EraseFailed u u' m b u'' bufs e :
    connect env = Resolved u ->
    initialize env = Resolved u' ->
    fetch_json env manifestURL = Resolved m ->
    find_build m chip = Some b ->
    runStub env = Resolved u'' ->
    settle (filePromises env manifestURL 0 (Build.parts b)) = (bufs, None) ->
    eraseFirst = true ->
    eraseFlash env = Rejected e ->
    Shape (Throw e) (upto_prepared m ++ erasing m)
| WriteFailed u u' m b u'' bufs cum e :
    connect env = Resolved u ->
    initialize env = Resolved u' ->
    fetch_json env manifestURL = Resolved m ->
    find_build m chip = Some b ->
    runStub env = Resolved u'' ->
    settle (filePromises env manifestURL 0 (Build.parts b)) = (bufs, None) ->
    (eraseFirst = true -> exists v, eraseFlash env = Resolved v) ->
    fed env 0 (Build.parts b) bufs 0 = (cum, Some e) ->
    Shape (after_disconnect env)
      (upto_writing m (sizes bufs)
       ++ progress m (sizes bufs) cum
       ++ failure (ctx_manifest m) (MErr e) WRITE_FAILED (DetErr e))
| ResetFailed u u' m b u'' bufs cum e :
    connect env = Resolved u ->
    initialize env = Resolved u' ->
    fetch_json env manifestURL = Resolved m ->
    find_build m chip = Some b ->
    runStub env = Resolved u'' ->
    settle (filePromises env manifestURL 0 (Build.parts b)) = (bufs, None) ->
    (eraseFirst = true -> exists v, eraseFlash env = Resolved v) ->
    fed env 0 (Build.parts b) bufs 0 = (cum, None) ->
    hardReset env = Rejected e ->
    Shape (Throw e) (upto_written m (sizes bufs) cum)
| DisconnectFailed u u' m b u'' bufs cum v e :
    connect env = Resolved u ->
    initialize env = Resolved u' ->
    fetch_json env manifestURL = Resolved m ->
    find_build m chip = Some b ->
    runStub env = Resolved u'' ->
    settle (filePromises env manifestURL 0 (Build.parts b)) = (bufs, None) ->
    (eraseFirst = true -> exists v, eraseFlash env = Resolved v) ->
    fed env 0 (Build.parts b) bufs 0 = (cum, None) ->
    hardReset env = Resolved v ->
    disconnect env = Rejected e ->
    Shape (Throw e) (upto_written m (sizes bufs) cum ++ [Disconnect])
| Completed u u' m b u'' bufs cum v v' :
    connect env = Resolved u ->
    initialize env = Resolved u' ->
    fetch_json env manifestURL = Resolved m ->
    find_build m chip = Some b ->
    runStub env = Resolved u'' ->
    settle (filePromises env manifestURL 0 (Build.parts b)) = (bufs, None) ->
    (eraseFirst = true -> exists v, eraseFlash env = Resolved v) ->
    fed env 0 (Build.parts b) bufs 0 = (cum, None) ->
    hardReset env = Resolved v ->
    disconnect env = Resolved v' ->
    Shape (Normal tt)
      (upto_written m (sizes bufs) cum
       ++ [ Disconnect;
            fire (ctx_manifest m)
              (FinishedState (MStr "Tuyệt vời. Đã hoàn thành!")) ]).

End Shapes.

(** Every run has one of the shapes.  The body is executed one statement
    at a time, the rest of it kept folded. *)
Definition Outcome env manifestPath eraseFirst (r : Completion unit * Store)
    : Prop :=
  Shape env manifestPath eraseFirst (fst r) (log (snd r)).

(** ** What the claims speak of *)

(** The disconnect attempts of a log. *)
Definition disconnects (l : list Event) : nat :=
  List.length (filter (fun e => match e with Disconnect => true | _ => false end) l).

(** A state reduced to its tag and the detail the claims name. *)
Inductive Summary :=
  | SInitializing (done : bool)
  | SManifest (done : bool)
  | SPreparing (done : bool)
  | SErasing (done : bool)
  | SWriting (percentage : number)
  | SFinished
  | SError (error : FlashError).

Definition summary (s : FlashState) : Summary :=
  match s with
  | InitializingState _ d => SInitializing d
  | ManifestState _ d => SManifest d
  | PreparingState _ d => SPreparing d
  | ErasingState _ d => SErasing d
  | WritingState _ _ _ p => SWriting p
  | FinishedState _ => SFinished
  | ErrorState _ tag _ => SError tag
  end.

Definition is_finished (s : FlashState) : bool :=
  match s with FinishedState _ => true | _ => false end.

Definition is_error (s : FlashState) : bool :=
  match s with ErrorState _ _ _ => true | _ => false end.

Definition is_writing (s : FlashState) : bool :=
  match s with WritingState _ _ _ _ => true | _ => false end.

Definition is_erasing (s : FlashState) : bool :=
  match s with ErasingState _ _ => true | _ => false end.

(** Error and Finished are the terminal states. *)
Definition terminal (s : FlashState) : bool := is_finished s || is_error s.

(** A successful run is one that publishes Finished. *)
Definition succeeds (env : Env) (manifestPath : string) (eraseFirst : bool)
    : Prop :=
  existsb is_finished (states env manifestPath eraseFirst) = true.

(** The error tags published by a run, in order. *)
Fixpoint errors (l : list FlashState) : list FlashError :=
  match l with
  | [] => []
  | ErrorState _ tag _ :: rest => tag :: errors rest
  | _ :: rest => errors rest
  end.

(** [l] holds no terminal state, except possibly as its last element. *)
Fixpoint ends_once (l : list FlashState) : Prop :=
  match l with
  | [] => True
  | s :: rest =>
      match rest with
      | [] => True
      | _ :: _ => terminal s = false /\ ends_once rest
      end
  end.

(** Every element of [l] is related to every later one. *)
Definition ordered {A} (R : A -> A -> Prop) (l : list A) : Prop :=
  forall before x between y after,
    l = before ++ x :: between ++ y :: after -> R x y.

(** The context of a later event extends that of an earlier one. *)
Definition extends (e1 e2 : StateChanged) : Prop :=
  (forall m, ev_manifest e1 = Some m -> ev_manifest e2 = Some m)
  /\ (forall b, ev_build e1 = Some b -> ev_build e2 = Some b)
  /\ (forall c, ev_chipFamily e1 = Some c -> ev_chipFamily e2 = Some c).

Definition has_context (c : Context) (ev : StateChanged) : Prop :=
  ev_manifest ev = c_manifest c
  /\ ev_build ev = c_build c
  /\ ev_chipFamily ev = c_chipFamily c.

(** What of the context is known when a state is published: nothing
    before the handshake has succeeded, the chip family from then on, the
    manifest and the selected build once the manifest has been fetched. *)
Definition known (env : Env) (manifestPath : string) (s : FlashState)
    : Context :=
  match s with
  | InitializingState _ false => ctx_start
  | ErrorState _ FAILED_INITIALIZING _ => ctx_start
  | InitializingState _ true => ctx_chip env
  | ManifestState _ false => ctx_chip env
  | ErrorState _ FAILED_MANIFEST_FETCH _ => ctx_chip env
  | _ =>
      match fetch_json env (resolveURL env manifestPath (location env)) with
      | Resolved m => ctx_manifest env m
      | Rejected _ => ctx_chip env
      end
  end.

(** A guarded phase operation is the first to fail, with the tag of the
    taxonomy that goes with it.  The stub upload and the erase are
    awaited outside any [try]; a phase that comes after them is reached
    only when they resolve. *)
Inductive fails (env : Env) (manifestPath : string) (eraseFirst : bool)
    : FlashError -> Prop :=
  | fails_handshake u e :
      connect env = Resolved u ->
      initialize env = Rejected e ->
      fails env manifestPath eraseFirst FAILED_INITIALIZING
  | fails_manifest u u' e :
      connect env = Resolved u ->
      initialize env = Resolved u' ->
      fetch_json env (resolveURL env manifestPath (location env))
        = Rejected e ->
      fails env manifestPath eraseFirst FAILED_MANIFEST_FETCH
  | fails_selection u u' m :
      connect env = Resolved u ->
      initialize env = Resolved u' ->
      fetch_json env (resolveURL env manifestPath (location env))
        = Resolved m ->
      find_build m (getChipFamilyName env) = None ->
      fails env manifestPath eraseFirst NOT_SUPPORTED
  | fails_download u u' m b u'' bufs e :
      connect env = Resolved u ->
      initialize env = Resolved u' ->
      fetch_json env (resolveURL env manifestPath (location env))
        = Resolved m ->
      find_build m (getChipFamilyName env) = Some b ->
      runStub env = Resolved u'' ->
      settle (filePromises env (resolveURL env manifestPath (location env))
                0 (Build.parts b)) = (bufs, Some e) ->
      fails env manifestPath eraseFirst FAILED_FIRMWARE_DOWNLOAD
  | fails_write u u' m b u'' bufs cum e :
      connect env = Resolved u ->
      initialize env = Resolved u' ->
      fetch_json env (resolveURL env manifestPath (location env))
        = Resolved m ->
      find_build m (getChipFamilyName env) = Some b ->
      runStub env = Resolved u'' ->
      settle (filePromises env (resolveURL env manifestPath (location env))
                0 (Build.parts b)) = (bufs, None) ->
      (eraseFirst = true -> exists v, eraseFlash env = Resolved v) ->
      fed env 0 (Build.parts b) bufs 0 = (cum, Some e) ->
      fails env manifestPath eraseFirst WRITE_FAILED.

(** A Writing state whose percentage is, for [===], 100. *)
Definition is_writing_100 (s : FlashState) : bool :=
  match s with
  | WritingState _ _ _ p => js_strict_eq p (num_of_N 100)
  | _ => false
  end.

Definition count {A} (f : A -> bool) (l : list A) : nat :=
  List.length (filter f l).

(** A sequence of byte counts that never goes down. *)
Fixpoint nondecreasing (l : list N) : Prop :=
  match l with
  | [] => True
  | a :: rest =>
      match rest with
      | [] => True
      | b :: _ => (a <= b)%N /\ nondecreasing rest
      end
  end.

(** The percentages [l], published after [last], go up and no two in a
    row are equal. *)
Fixpoint increasing (last : number) (l : list number) : Prop :=
  match l with
  | [] => True
  | p :: rest =>
      SFleb last p = true /\ js_strict_eq last p = false /\ increasing p rest
  end.

(** ** What the further properties speak of *)

(** A promise that resolves. *)
Definition resolves {A} (r : result A) : Prop := exists a, r = Resolved a.

(** The run gets as far as selecting the build [b] of the manifest [m]. *)
Definition selects (env : Env) (manifestPath : string) (m : Manifest.t)
    (b : Build.t) : Prop :=
  resolves (connect env)
  /\ resolves (initialize env)
  /\ fetch_json env (resolveURL env manifestPath (location env)) = Resolved m
  /\ find_build m (getChipFamilyName env) = Some b.

(** It gets as far as holding the buffers [bufs] of all the parts, the
    stub running. *)
Definition prepares (env : Env) (manifestPath : string) (m : Manifest.t)
    (b : Build.t) (bufs : list ArrayBuffer) : Prop :=
  selects env manifestPath m b
  /\ resolves (runStub env)
  /\ filePromises env (resolveURL env manifestPath (location env)) 0
       (Build.parts b) = map Resolved bufs.

(** It gets as far as the write loop: the erase, when asked for, resolves. *)
Definition reaches_writing (env : Env) (manifestPath : string)
    (eraseFirst : bool) (m : Manifest.t) (b : Build.t)
    (bufs : list ArrayBuffer) : Prop :=
  prepares env manifestPath m b bufs
  /\ (eraseFirst = true -> resolves (eraseFlash env)).

(** Every [flashData] call of the write loop resolves. *)
Definition writes (env : Env) (parts : list Part.t) (bufs : list ArrayBuffer)
    : Prop :=
  forall i part file,
    nth_error parts i = Some part ->
    nth_error bufs i = Some file ->
    resolves (snd (flashData env i file (Part.offset part))).

(** The place of a state in the course of a run. *)
Definition rank (s : FlashState) : nat :=
  match s with
  | InitializingState _ false => 0
  | InitializingState _ true => 1
  | ManifestState _ false => 2
  | ManifestState _ true => 3
  | PreparingState _ false => 4
  | PreparingState _ true => 5
  | ErasingState _ false => 6
  | ErasingState _ true => 7
  | WritingState _ _ _ _ => 8
  | FinishedState _ => 9
  | ErrorState _ _ _ => 10
  end.

(** [s2] may be published after [s1]: it stands further in the course of
    the run, or both are Writing states. *)
Definition forward (s1 s2 : FlashState) : Prop :=
  (rank s1 < rank s2)%nat \/ (is_writing s1 = true /\ is_writing s2 = true).

(** After a disconnect attempt a log holds nothing, or the Finished
    event alone. *)
Fixpoint closes (l : list Event) : Prop :=
  match l with
  | [] => True
  | Disconnect :: rest =>
      rest = [] \/ exists ev, rest = [Fired ev] /\ is_finished (update ev) = true
  | Fired _ :: rest => closes rest
  end.

(** Every element of [l] is related to the next one. *)
Fixpoint chained {A} (R : A -> A -> Prop) (l : list A) : Prop :=
  match l with
  | [] => True
  | x :: rest =>
      match rest with
      | [] => True
      | y :: _ => R x y /\ chained R rest
      end
  end.

(** The same device, its [eraseFlash] ending as [r]. *)
Definition with_eraseFlash (r : result unit) (env : Env) : Env :=
  {| location := location env;
     resolveURL := resolveURL env;
     fetch_json := fetch_json env;
     fetch := fetch env;
     connect := connect env;
     initialize := initialize env;
     connected := connected env;
     getChipFamilyName := getChipFamilyName env;
     runStub := runStub env;
     eraseFlash := r;
     flashData := flashData env;
     hardReset := hardReset env;
     disconnect := disconnect env |}.

(** The download of [part] fails on the network, or while the body of
    an [ok] response is read. *)
Definition breaks (env : Env) (url : string) (i : nat) (part : Part.t)
    (e : JsError) : Prop :=
  fetch env i (resolveURL env (Part.path part) url) = Rejected e
  \/ exists resp,
       fetch env i (resolveURL env (Part.path part) url) = Resolved resp
       /\ ok resp = true
       /\ arrayBuffer resp = Rejected e.

(** The device reports to the callback of a [flashData] call no more
    bytes than the file it is given holds. *)
Definition within_file (env : Env) : Prop :=
  forall i file offset,
    Forall (fun w => (w <= byteLength file)%N)
           (fst (flashData env i file offset)).

(** A Writing state that has written no more than its total. *)
Definition bytes_within (s : FlashState) : Prop :=
  match s with
  | WritingState _ total written _ => (written <= total)%N
  | _ => True
  end.

(** A whole number of percent, from 0 to 100. *)
Definition whole_percentage (p : number) : Prop :=
  exists n, (n <= 100)%N /\ p = num_of_N n.

Definition percentage_within (s : FlashState) : Prop :=
  match s with
  | WritingState _ total _ p =>
      (0 < total < 2 ^ 53)%N -> whole_percentage p
  | _ => True
  end.

(** A state published by the progress callback. *)
Definition from_callback (s : FlashState) : bool :=
  match s with
  | WritingState (MPct prefix _) _ _ _ => String.eqb prefix "Tiến trình ghi: "
  | _ => false
  end.

Definition percentage_of (s : FlashState) : option number :=
  match s with
  | WritingState _ _ _ p => Some p
  | _ => None
  end.

(** [s2], published right after [s1], is new: when it comes from the
    callback, [s1] is a Writing state of another percentage. *)
Definition renews (s1 s2 : FlashState) : Prop :=
  from_callback s2 = true ->
  exists p1 p2,
    percentage_of s1 = Some p1 /\ percentage_of s2 = Some p2
    /\ js_strict_eq p2 p1 = false.

(** The values the device reports to the callback of a [flashData]
    call never go down. *)
Definition rising (env : Env) : Prop :=
  forall i file offset, nondecreasing (fst (flashData env i file offset)).

(** The percentage of [s2] is not below that of [s1], both being Writing
    states of a positive total. *)
Definition not_below (s1 s2 : FlashState) : Prop :=
  match s1, s2 with
  | WritingState _ total _ p1, WritingState _ _ _ p2 =>
      (0 < total < 2 ^ 53)%N -> SFleb p1 p2 = true
  | _, _ => True
  end.

(** A Writing state whose total is [total]. *)
Definition of_total (total : N) (s : FlashState) : Prop :=
  match s with
  | WritingState _ t _ _ => t = total
  | _ => True
  end.

(** ** The value of a number

    The percentage is computed in binary64.  Its properties are proved
    through the reals: a positive finite number of mantissa [m] and
    exponent [e] has the value [F2R m e]. *)

Section Values.

Local Open Scope R_scope.

Definition bpow (e : Z) : R := powerRZ 2 e.

(** [x] lies in [[m, m+1)], at the place [l] says. *)
Definition inbetween (m : Z) (x : R) (l : SpecFloat.location) : Prop :=
  match l with
  | loc_Exact => x = IZR m
  | loc_Inexact c =>
      IZR m < x < IZR m + 1
      /\ match c with
         | Lt => x < IZR m + / 2
         | Eq => x = IZR m + / 2
         | Gt => IZR m + / 2 < x
         end
  end.

(** The value of a positive finite number. *)
Definition F2R (m : positive) (e : Z) : R := IZR (Zpos m) * bpow e.

Definition normal (m : positive) : Prop := (2 ^ 52 <= Zpos m < 2 ^ 53)%Z.

(** [r] lies in the binade below [2 ^ mag]. *)
Definition in_binade (r : R) (mag : Z) : Prop :=
  bpow (mag - 1) <= r < bpow mag.

(** [m * 2 ^ e] is a multiple of the unit in the last place of the
    binade of [r], at most half a unit away from [r]. *)
Definition rounds_to (r : R) (mag : Z) (m : positive) (e : Z) : Prop :=
  exists k : Z,
    F2R m e = IZR k * bpow (mag - 53)
    /\ - / 2 <= r / bpow (mag - 53) - IZR k <= / 2.

End Values.

(** ** Sample runs *)

Definition sample_part (path : string) : Part.t :=
  {| Part.path := path; Part.offset := 0 |}.

Definition sample_build (paths : list string) : Build.t :=
  {| Build.chipFamily := "ESP32"; Build.improv := false;
     Build.parts := map sample_part paths |}.

Definition sample_manifest (paths : list string) : Manifest.t :=
  {| Manifest.name := "Test"; Manifest.builds := [sample_build paths] |}.

Definition ok_response (size : N) : result Response :=
  Resolved {| ok := true; status := 200;
              arrayBuffer := Resolved {| byteLength := size |} |}.

Definition bad_response (code : N) : result Response :=
  Resolved {| ok := false; status := code;
              arrayBuffer := Resolved {| byteLength := 0 |} |}.

(** A device and a network that behave, but for what is passed in. *)
Definition sample_env (paths : list string) (connecting initializing : result unit)
    (still_connected : bool) (chip : ChipFamily)
    (responses : nat -> result Response) (reports : list N) : Env :=
  {| location := "http://host/";
     resolveURL := fun path base => (base ++ path)%string;
     fetch_json := fun _ => Resolved (sample_manifest paths);
     fetch := fun i _ => responses i;
     connect := connecting;
     initialize := initializing;
     connected := still_connected;
     getChipFamilyName := chip;
     runStub := Resolved tt;
     eraseFlash := Resolved tt;
     flashData := fun _ _ _ => (reports, Resolved tt);
     hardReset := Resolved tt;
     disconnect := Resolved tt |}.

(** One part of 1000 bytes, reported written in two chunks. *)
Definition env_scenario : Env :=
  sample_env ["a.bin"] (Resolved tt) (Resolved tt) true ESP32
    (fun _ => ok_response 1000) [500; 1000]%N.

(** The same, the device reporting nothing before the call resolves. *)
Definition env_quiet : Env :=
  sample_env ["a.bin"] (Resolved tt) (Resolved tt) true ESP32
    (fun _ => ok_response 1000) [].

Definition env_cancelled : Env :=
  sample_env ["a.bin"] (Rejected {| err_message := "NotFoundError" |})
    (Resolved tt) true ESP32 (fun _ => ok_response 1000) [].

(** The handshake fails and the port is already closed. *)
Definition env_closed : Env :=
  sample_env ["a.bin"] (Resolved tt)
    (Rejected {| err_message := "Failed to connect" |}) false ESP32
    (fun _ => ok_response 1000) [].

Definition env_handshake : Env :=
  sample_env ["a.bin"] (Resolved tt)
    (Rejected {| err_message := "Failed to connect" |}) true ESP32
    (fun _ => ok_response 1000) [].

(** The detected chip has no build in the manifest. *)
Definition env_esp8266 : Env :=
  sample_env ["a.bin"] (Resolved tt) (Resolved tt) true ESP8266
    (fun _ => ok_response 1000) [].

Definition env_esp32_s2 : Env :=
  sample_env ["a.bin"] (Resolved tt) (Resolved tt) true ESP32_S2
    (fun _ => ok_response 1000) [].

(** The only part is answered 404. *)
Definition env_404 : Env :=
  sample_env ["a.bin"] (Resolved tt) (Resolved tt) true ESP32
    (fun _ => bad_response 404) [].

(** Two parts, answered 404 and 500. *)
Definition env_404_500 : Env :=
  sample_env ["a.bin"; "b.bin"] (Resolved tt) (Resolved tt) true ESP32
    (fun i => match i with O => bad_response 404 | _ => bad_response 500 end)
    [].

Definition timed_out : JsError := {| err_message := "Timed out" |}.

(** The device of [env_scenario], its stub upload, erase, reset and
    disconnect ending as given. *)
Definition env_device (stub erase reset closing : result unit) : Env :=
  {| location := "http://host/";
     resolveURL := fun path base => (base ++ path)%string;
     fetch_json := fun _ => Resolved (sample_manifest ["a.bin"]);
     fetch := fun _ _ => ok_response 1000;
     connect := Resolved tt;
     initialize := Resolved tt;
     connected := true;
     getChipFamilyName := ESP32;
     runStub := stub;
     eraseFlash := erase;
     flashData := fun _ _ _ => ([500; 1000]%N, Resolved tt);
     hardReset := reset;
     disconnect := closing |}.

Definition offline : JsError := {| err_message := "Failed to fetch" |}.

(** The network is down when the part is fetched. *)
Definition env_offline : Env :=
  sample_env ["a.bin"] (Resolved tt) (Resolved tt) true ESP32
    (fun _ => Rejected offline) [].

(** The device gives up after reporting half of the part. *)
Definition env_write_fails : Env :=
  {| location := "http://host/";
     resolveURL := fun path base => (base ++ path)%string;
     fetch_json := fun _ => Resolved (sample_manifest ["a.bin"]);
     fetch := fun _ _ => ok_response 1000;
     connect := Resolved tt;
     initialize := Resolved tt;
     connected := true;
     getChipFamilyName := ESP32;
     runStub := Resolved tt;
     eraseFlash := Resolved tt;
     flashData := fun _ _ _ => ([500]%N, Rejected timed_out);
     hardReset := Resolved tt;
     disconnect := Resolved tt |}.

(** A manifest whose build holds no part. *)
Definition env_no_parts : Env :=
  sample_env [] (Resolved tt) (Resolved tt) true ESP32
    (fun _ => ok_response 0) [].

(** One part of 1000 bytes, reported written half, then whole. *)
Definition env_halves : Env :=
  {| location := "http://host/";
     resolveURL := fun path base => (base ++ path)%string;
     fetch_json := fun _ => Resolved (sample_manifest ["a.bin"]);
     fetch := fun _ _ => ok_response 1000;
     connect := Resolved tt;
     initialize := Resolved tt;
     connected := true;
     getChipFamilyName := ESP32;
     runStub := Resolved tt;
     eraseFlash := Resolved tt;
     flashData := fun _ file _ =>
       ([byteLength file / 2; byteLength file]%N, Resolved tt);
     hardReset := Resolved tt;
     disconnect := Resolved tt |}.

(** The device of [env_halves], the part it downloads being empty. *)
Definition env_empty : Env :=
  {| location := "http://host/";
     resolveURL := fun path base => (base ++ path)%string;
     fetch_json := fun _ => Resolved (sample_manifest ["a.bin"]);
     fetch := fun _ _ => ok_response 0;
     connect := Resolved tt;
     initialize := Resolved tt;
     connected := true;
     getChipFamilyName := ESP32;
     runStub := Resolved tt;
     eraseFlash := Resolved tt;
     flashData := fun _ file _ =>
       ([byteLength file / 2; byteLength file]%N, Resolved tt);
     hardReset := Resolved tt;
     disconnect := Resolved tt |}.

(** * Lemmas *)

(** ** The loops *)

Ltac run_step :=
  cbv beta iota delta
    [bind ret return_ try_catch await get emit fireStateEvent call_disconnect
     set_manifest set_build set_chipFamily push_file set_lastPct
     add_totalWritten sleep];
  cbn [manifest build chipFamily files totalSize lastPct totalWritten log
       fst snd].

Lemma tracker_app total cum1 : forall last cum2,
  tracker total last (cum1 ++ cum2) =
  tracker total last cum1
  ++ tracker total (tracker_last total last cum1) cum2.
Proof.
  induction cum1 as [|w cum1 IH]; intros last cum2; simpl; [reflexivity|].
  destruct (js_strict_eq (percent w total) last); simpl; rewrite IH;
    reflexivity.
Qed.

Lemma tracker_last_app total cum1 : forall last cum2,
  tracker_last total last (cum1 ++ cum2) =
  tracker_last total (tracker_last total last cum1) cum2.
Proof.
  induction cum1 as [|w cum1 IH]; intros last cum2; simpl; [reflexivity|].
  destruct (js_strict_eq (percent w total) last); rewrite IH; reflexivity.
Qed.

(** The callback run over the values of one [flashData] call. *)
Lemma each_onProgress ws : forall s,
  each onProgress ws s =
  (Normal tt,
   {| manifest := manifest s; build := build s; chipFamily := chipFamily s;
      files := files s; totalSize := totalSize s;
      lastPct := tracker_last (totalSize s) (lastPct s)
                   (map (N.add (totalWritten s)) ws);
      totalWritten := totalWritten s;
      log := log s
             ++ map (fun wp => fire (context s) (progress_state (totalSize s) wp))
                    (tracker (totalSize s) (lastPct s)
                       (map (N.add (totalWritten s)) ws)) |}).
Proof.
  induction ws as [|w ws IH]; intros s.
  - destruct s; simpl. unfold ret. rewrite app_nil_r. reflexivity.
  - simpl each. unfold onProgress. run_step.
    destruct (js_strict_eq _ _) eqn:E.
    + run_step. rewrite IH. simpl. rewrite E. reflexivity.
    + run_step. rewrite IH. simpl. rewrite E.
      cbn [manifest build chipFamily files totalSize lastPct totalWritten log].
      rewrite <- app_assoc. reflexivity.
Qed.

(** The download loop: every buffer obtained before the first rejection
    is pushed; the first rejection fires the error, disconnects and
    returns. *)
Lemma await_files_settle env proms : forall s,
  await_files env proms s =
  match snd (settle proms) with
  | None =>
      (Normal tt,
       {| manifest := manifest s; build := build s;
          chipFamily := chipFamily s;
          files := files s ++ fst (settle proms);
          totalSize := totalSize s + sizes (fst (settle proms));
          lastPct := lastPct s; totalWritten := totalWritten s;
          log := log s |})
  | Some e =>
      (after_disconnect env,
       {| manifest := manifest s; build := build s;
          chipFamily := chipFamily s;
          files := files s ++ fst (settle proms);
          totalSize := totalSize s + sizes (fst (settle proms));
          lastPct := lastPct s; totalWritten := totalWritten s;
          log := log s
                 ++ [fire (context s)
                       (ErrorState (MErr e) FAILED_FIRMWARE_DOWNLOAD (DetErr e));
                     Disconnect] |})
  end.
Proof.
  induction proms as [|prom proms IH]; intros s.
  - destruct s; simpl. unfold ret. rewrite app_nil_r, N.add_0_r. reflexivity.
  - simpl await_files. destruct prom as [data|e].
    + run_step. rewrite IH. simpl.
      destruct (snd (settle proms));
        cbn [manifest build chipFamily files totalSize lastPct totalWritten log];
        rewrite <- app_assoc, <- N.add_assoc; reflexivity.
    + run_step. simpl. unfold after_disconnect, context, fire.
      rewrite app_nil_r, N.add_0_r, <- app_assoc.
      destruct (disconnect env); reflexivity.
Qed.

(** The write loop when every [flashData] call resolves. *)
Lemma write_parts_ok env parts : forall i s cum,
  (List.length parts <= List.length (files s))%nat ->
  fed env i parts (files s) (totalWritten s) = (cum, None) ->
  write_parts env i parts s =
  (Normal tt,
   {| manifest := manifest s; build := build s; chipFamily := chipFamily s;
      files := skipn (List.length parts) (files s);
      totalSize := totalSize s;
      lastPct := tracker_last (totalSize s) (lastPct s) cum;
      totalWritten := totalWritten s + sizes (firstn (List.length parts) (files s));
      log := log s
             ++ map (fun wp => fire (context s) (progress_state (totalSize s) wp))
                    (tracker (totalSize s) (lastPct s) cum) |}).
Proof.
  induction parts as [|part parts IH]; intros i s cum Hlen Hfed.
  - simpl in Hfed. injection Hfed as <-. destruct s; simpl. unfold ret.
    rewrite app_nil_r, N.add_0_r. reflexivity.
  - simpl write_parts. unfold shift_file at 1. unfold bind at 1.
    destruct (files s) as [|file more] eqn:Hfiles; [simpl in Hlen; lia|].
    simpl in Hfed.
    destruct (snd (flashData env i file (Part.offset part))) eqn:Hr;
      [|discriminate].
    injection Hfed as <- Hlater.
    unfold call_flashData. run_step. rewrite each_onProgress.
    run_step. rewrite Hr. run_step.
    erewrite IH.
    2:{ cbn [files]. simpl in Hlen. lia. }
    2:{ cbn [files totalWritten]. rewrite <- Hlater.
        apply surjective_pairing. }
    unfold context.
    cbn [manifest build chipFamily files totalSize lastPct totalWritten log
         List.length skipn firstn sizes fold_right].
    rewrite tracker_app, tracker_last_app, map_app, <- app_assoc,
      <- N.add_assoc.
    reflexivity.
Qed.

(** The write loop when a [flashData] call rejects: the progress made so
    far, then the error, the disconnect and the return. *)
Lemma write_parts_failed env parts : forall i s cum e,
  (List.length parts <= List.length (files s))%nat ->
  fed env i parts (files s) (totalWritten s) = (cum, Some e) ->
  exists s',
    write_parts env i parts s = (after_disconnect env, s')
    /\ log s' =
       log s
       ++ map (fun wp => fire (context s) (progress_state (totalSize s) wp))
              (tracker (totalSize s) (lastPct s) cum)
       ++ [fire (context s) (ErrorState (MErr e) WRITE_FAILED (DetErr e));
           Disconnect].
Proof.
  induction parts as [|part parts IH]; intros i s cum e Hlen Hfed.
  - simpl in Hfed. discriminate.
  - simpl write_parts. unfold shift_file at 1. unfold bind at 1.
    destruct (files s) as [|file more] eqn:Hfiles; [simpl in Hlen; lia|].
    simpl in Hfed.
    unfold call_flashData. run_step. rewrite each_onProgress. run_step.
    destruct (snd (flashData env i file (Part.offset part))) eqn:Hr.
    + injection Hfed as <- Hlater. run_step.
      match goal with
      | |- context [write_parts env (S i) parts ?st] =>
          destruct (IH (S i) st
                      (fst (fed env (S i) parts more
                              (totalWritten s + byteLength file))) e)
            as (s' & Hrun & Hlog)
      end.
      * cbn [files]. simpl in Hlen. lia.
      * cbn [files totalWritten]. rewrite <- Hlater. apply surjective_pairing.
      * rewrite Hrun. exists s'. split; [reflexivity|].
        rewrite Hlog. unfold context.
        cbn [manifest build chipFamily files totalSize lastPct totalWritten
             log].
        rewrite tracker_app, map_app, <- !app_assoc. reflexivity.
    + injection Hfed as <- <-. run_step. unfold after_disconnect.
      destruct (disconnect env); eexists; (split; [reflexivity|]);
        cbn [log]; unfold context, fire;
        cbn [manifest build chipFamily files totalSize lastPct totalWritten
             log]; rewrite <- !app_assoc; reflexivity.
Qed.

Lemma settle_length proms :
  snd (settle proms) = None ->
  List.length (fst (settle proms)) = List.length proms.
Proof.
  induction proms as [|[data|e] proms IH]; simpl; intros H;
    [reflexivity | f_equal; auto | discriminate].
Qed.

Lemma filePromises_length env url parts : forall i,
  List.length (filePromises env url i parts) = List.length parts.
Proof.
  induction parts as [|part parts IH]; intros i; simpl;
    [reflexivity | f_equal; apply IH].
Qed.

Lemma firstn_sizes (bufs : list ArrayBuffer) n :
  n = List.length bufs -> sizes (firstn n bufs) = sizes bufs.
Proof. intros ->. rewrite firstn_all. reflexivity. Qed.

(** ** Every run has a shape *)

Ltac run_head :=
  lazymatch goal with
  | |- Outcome _ _ _ (bind ?c ?k ?s) =>
      let K := fresh "K" in
      set (K := k);
      cbv beta iota delta
        [bind ret return_ try_catch await get emit fireStateEvent
         call_disconnect set_manifest set_build set_chipFamily push_file
         set_lastPct set_totalWritten add_totalWritten sleep
         manifest build chipFamily files totalSize lastPct totalWritten log
         start fst snd];
      subst K; cbv beta
  | |- Outcome _ _ _ (fireStateEvent _ _) =>
      cbv beta iota delta
        [bind get emit fireStateEvent
         manifest build chipFamily files totalSize lastPct totalWritten log]
  end.

Ltac run_end shape :=
  unfold Outcome; cbn [fst snd log];
  match goal with
  | |- Shape ?e ?p ?f ?c ?l =>
      let c' := fresh "c" in
      let l' := fresh "l" in
      evar (c' : Completion unit); evar (l' : list Event);
      cut (Shape e p f c' l');
      [ let H := fresh in
        intros H;
        replace c with c'; [replace l with l'; [exact H|] |];
        subst c' l'
      | subst c' l'; eapply shape; first [eassumption | reflexivity] ]
  end.

Lemma run_shape env manifestPath eraseFirst :
  Outcome env manifestPath eraseFirst (run env manifestPath eraseFirst).
Proof.
  unfold run, flash. cbv zeta.
  destruct (connect env) as [u|e] eqn:Hconnect; run_head.
  2:{ run_end Cancelled; reflexivity. }
  run_head.
  destruct (initialize env) as [u'|e] eqn:Hinit.
  2:{ destruct (connected env) eqn:Hconn.
      - unfold call_disconnect.
        destruct (disconnect env) eqn:Hd; repeat run_head; run_end InitFailed;
          unfold after_disconnect; rewrite ?Hd; reflexivity.
      - repeat run_head. run_end InitFailedClosed; reflexivity. }
  do 4 run_head.
  destruct (fetch_json env (resolveURL env manifestPath (location env)))
    as [m|e] eqn:Hfetch.
  2:{ unfold call_disconnect.
      destruct (disconnect env) eqn:Hd; repeat run_head;
        run_end ManifestFailed;
        unfold after_disconnect; rewrite ?Hd; reflexivity. }
  do 3 run_head.
  destruct (find_build m (getChipFamilyName env)) as [b|] eqn:Hfind.
  2:{ unfold call_disconnect.
      destruct (disconnect env) eqn:Hd; repeat run_head; run_end Unsupported;
        unfold after_disconnect, upto_found, failure, ctx_manifest;
        rewrite ?Hd, ?Hfind; reflexivity. }
  run_head.
  destruct (runStub env) as [u''|e] eqn:Hstub; run_head.
  2:{ run_end StubFailed;
        unfold upto_preparing, upto_found, ctx_manifest;
        rewrite ?Hfind; reflexivity. }
  unfold bind at 1. rewrite await_files_settle.
  destruct (settle (filePromises env (resolveURL env manifestPath (location env))
                      0 (Build.parts b))) as [bufs [e|]] eqn:Hsettle;
    cbn [fst snd].
  { unfold after_disconnect; destruct (disconnect env) eqn:Hd;
      run_end DownloadFailed;
      unfold after_disconnect, upto_preparing, upto_found, ctx_manifest, context;
      cbn [manifest build chipFamily files totalSize lastPct totalWritten log];
      rewrite ?Hfind, ?Hd; reflexivity. }
  cbn [manifest build chipFamily files totalSize lastPct totalWritten log app].
  rewrite N.add_0_l.
  run_head.
  assert (Hlen : List.length (Build.parts b) = List.length bufs).
  { pose proof (settle_length
                  (filePromises env (resolveURL env manifestPath (location env))
                     0 (Build.parts b))) as H.
    rewrite Hsettle, filePromises_length in H. symmetry. apply H. reflexivity. }
  assert (Hall : firstn (List.length (Build.parts b)) bufs = bufs)
    by (rewrite Hlen; apply firstn_all).
  destruct eraseFirst;
    [ destruct (eraseFlash env) as [v|e] eqn:Herase;
      [ assert (Hok : true = true -> exists v, eraseFlash env = Resolved v)
          by (intros _; eexists; eassumption)
      | repeat run_head;
        run_end EraseFailed;
        unfold upto_prepared, upto_preparing, upto_found, erasing,
          ctx_manifest;
        rewrite ?Hfind; reflexivity ]
    | assert (Hok : false = true -> exists v, eraseFlash env = Resolved v)
        by discriminate ];
    do 5 run_head; unfold bind at 1;
    destruct (fed env 0 (Build.parts b) bufs 0) as [cum [e|]] eqn:Hfed.
  1,3: match goal with
       | |- context [write_parts _ 0 _ ?st] =>
           destruct (write_parts_failed env (Build.parts b) 0 st cum e)
             as (s' & Hrun & Hlog);
             [ cbn [files]; lia | cbn [files totalWritten]; exact Hfed
             | rewrite Hrun ]
       end;
       unfold after_disconnect; destruct (disconnect env) eqn:Hd;
       run_end WriteFailed;
       rewrite ?Hlog;
       unfold after_disconnect, upto_writing, upto_prepared, upto_preparing,
         upto_found, erased, erasing, progress, failure, ctx_manifest, context;
       cbn [manifest build chipFamily files totalSize lastPct totalWritten log];
       rewrite ?Hfind, ?Hd; repeat rewrite <- app_assoc; reflexivity.
  all: erewrite write_parts_ok;
    [ | cbn [files]; lia | cbn [files totalWritten]; exact Hfed ];
    cbv beta iota;
    cbn [manifest build chipFamily files totalSize lastPct totalWritten log];
    rewrite Hall, N.add_0_l;
    do 3 run_head;
    destruct (hardReset env) as [w|e] eqn:Hreset; run_head;
    [ unfold call_disconnect;
      destruct (disconnect env) as [w'|e] eqn:Hd; repeat run_head;
      [ run_end Completed | run_end DisconnectFailed ]
    | run_end ResetFailed ];
    unfold upto_written, upto_writing, upto_prepared, upto_preparing,
      upto_found, erased, erasing, progress, ctx_manifest, context;
    cbn [manifest build chipFamily files totalSize lastPct totalWritten log];
    rewrite ?Hfind; repeat rewrite <- app_assoc; reflexivity.
Qed.

Lemma trace_shape env manifestPath eraseFirst :
  Shape env manifestPath eraseFirst
    (fst (run env manifestPath eraseFirst))
    (trace env manifestPath eraseFirst).
Proof. exact (run_shape env manifestPath eraseFirst). Qed.

(** ** Reading a log *)

Lemma fired_app l1 l2 : fired (l1 ++ l2) = fired l1 ++ fired l2.
Proof.
  induction l1 as [|[e|] l1 IH]; simpl; [reflexivity | f_equal; exact IH | exact IH].
Qed.

Lemma fired_progress env m total cum :
  map update (fired (progress env m total cum)) =
  map (progress_state total) (tracker total (num_of_N 0) cum).
Proof.
  unfold progress.
  induction (tracker total (num_of_N 0) cum) as [|wp l IH]; simpl;
    [reflexivity | f_equal; exact IH].
Qed.

Lemma fired_progress_context env m total cum :
  Forall (fun ev => ev_manifest ev = Some m
                    /\ ev_build ev = find_build m (getChipFamilyName env)
                    /\ ev_chipFamily ev = Some (getChipFamilyName env))
         (fired (progress env m total cum)).
Proof.
  unfold progress.
  induction (tracker total (num_of_N 0) cum) as [|wp l IH]; simpl;
    constructor; auto.
Qed.

Lemma fired_progress_events env m total cum :
  fired (progress env m total cum) =
  map (fun wp =>
         {| update := progress_state total wp;
            ev_manifest := Some m;
            ev_build := find_build m (getChipFamilyName env);
            ev_chipFamily := Some (getChipFamilyName env) |})
      (tracker total (num_of_N 0) cum).
Proof.
  unfold progress.
  induction (tracker total (num_of_N 0) cum) as [|wp l IH]; simpl;
    [reflexivity | f_equal; exact IH].
Qed.

Lemma disconnects_app l1 l2 :
  disconnects (l1 ++ l2) = (disconnects l1 + disconnects l2)%nat.
Proof. unfold disconnects. rewrite filter_app, length_app. reflexivity. Qed.

Lemma disconnects_progress env m total cum :
  disconnects (progress env m total cum) = 0%nat.
Proof.
  unfold progress, disconnects.
  induction (tracker total (num_of_N 0) cum) as [|wp l IH]; simpl; auto.
Qed.

Lemma errors_app l1 l2 : errors (l1 ++ l2) = errors l1 ++ errors l2.
Proof.
  induction l1 as [|s l1 IH]; simpl; [reflexivity|].
  destruct s; simpl; rewrite ?IH; reflexivity.
Qed.

Lemma errors_progress total l : errors (map (progress_state total) l) = [].
Proof. induction l; simpl; auto. Qed.

Lemma progress_not_terminal total l :
  Forall (fun s => terminal s = false) (map (progress_state total) l).
Proof. induction l; simpl; constructor; auto. Qed.

Lemma progress_not_finished total l :
  existsb is_finished (map (progress_state total) l) = false.
Proof. induction l; simpl; auto. Qed.

Lemma progress_summary total l :
  map summary (map (progress_state total) l) = map SWriting (map snd l).
Proof. induction l as [|wp l IH]; simpl; [reflexivity | f_equal; exact IH]. Qed.

Lemma count_app {A} (f : A -> bool) l1 l2 :
  count f (l1 ++ l2) = (count f l1 + count f l2)%nat.
Proof. unfold count. rewrite filter_app, length_app. reflexivity. Qed.

(** Splits the goal along the shapes of the run. *)
Ltac by_shape env manifestPath eraseFirst :=
  unfold states;
  generalize (trace_shape env manifestPath eraseFirst);
  generalize (fst (run env manifestPath eraseFirst));
  generalize (trace env manifestPath eraseFirst);
  let c := fresh "c" in
  let l := fresh "l" in
  let H := fresh "Hshape" in
  intros l c H; destruct H.

Ltac shape_of env manifestPath eraseFirst :=
  generalize (trace_shape env manifestPath eraseFirst);
  generalize (fst (run env manifestPath eraseFirst));
  generalize (trace env manifestPath eraseFirst);
  let c := fresh "c" in
  let l := fresh "l" in
  let H := fresh "Hshape" in
  intros l c H; destruct H.

Ltac read_log :=
  unfold upto_written, upto_writing, upto_prepared, upto_preparing,
    upto_found, upto_manifest, erased, erasing, failure;
  repeat rewrite ?fired_app, ?map_app, ?fired_progress;
  cbn [fired map update fire app];
  repeat rewrite <- app_assoc; rewrite ?app_nil_r;
  cbn [app].

Ltac read_events :=
  unfold upto_written, upto_writing, upto_prepared, upto_preparing,
    upto_found, upto_manifest, erased, erasing, failure;
  repeat rewrite ?fired_app;
  cbn [fired fire app];
  repeat rewrite <- app_assoc; rewrite ?app_nil_r;
  cbn [app].

(** A failed write can only be told from a successful one by [fed]. *)
Lemma erase_resolved_or_not (eraseFirst : bool) (r : result unit) e :
  (eraseFirst = true -> exists v, r = Resolved v) ->
  eraseFirst = true -> r = Rejected e -> False.
Proof. intros H Ht Hr. destruct (H Ht) as [v Hv]. congruence. Qed.

(** The run of a device whose chip family has no build in the manifest. *)
Lemma unsupported_run env manifestPath eraseFirst u u' m :
  connect env = Resolved u ->
  initialize env = Resolved u' ->
  fetch_json env (resolveURL env manifestPath (location env)) = Resolved m ->
  find_build m (getChipFamilyName env) = None ->
  trace env manifestPath eraseFirst =
  upto_found env m
  ++ failure (ctx_manifest env m)
       (MStr ("Bo mạch " ++ chipFamilyName (getChipFamilyName env)
              ++ " không được hỗ trợ.")%string)
       NOT_SUPPORTED (DetStr (chipFamilyName (getChipFamilyName env))).
Proof.
  intros Hconnect Hinit Hfetch Hfind.
  generalize (trace_shape env manifestPath eraseFirst).
  generalize (fst (run env manifestPath eraseFirst)).
  generalize (trace env manifestPath eraseFirst).
  intros l c Hshape; destruct Hshape; congruence.
Qed.

(** The log of a successful run. *)
Lemma successful_run env manifestPath eraseFirst :
  succeeds env manifestPath eraseFirst ->
  exists m b bufs cum,
    fetch_json env (resolveURL env manifestPath (location env)) = Resolved m
    /\ find_build m (getChipFamilyName env) = Some b
    /\ settle (filePromises env (resolveURL env manifestPath (location env))
                 0 (Build.parts b)) = (bufs, None)
    /\ fed env 0 (Build.parts b) bufs 0 = (cum, None)
    /\ trace env manifestPath eraseFirst =
       upto_written env eraseFirst m (sizes bufs) cum
       ++ [ Disconnect;
            fire (ctx_manifest env m)
              (FinishedState (MStr "Tuyệt vời. Đã hoàn thành!")) ].
Proof.
  unfold succeeds, states.
  shape_of env manifestPath eraseFirst; intros Hok.
  12: exists m, b, bufs, cum; repeat split; assumption.
  all: exfalso; revert Hok; read_log;
    try (destruct eraseFirst); read_log;
    cbn [existsb is_finished orb];
    repeat rewrite ?existsb_app, ?progress_not_finished;
    cbn [existsb is_finished orb]; discriminate.
Qed.

(** The log of a run that gets to write: what comes before the first
    write, the progress states of the callback, and the end. *)
Lemma writing_run env manifestPath eraseFirst u u' m b u'' bufs cum r :
  connect env = Resolved u ->
  initialize env = Resolved u' ->
  fetch_json env (resolveURL env manifestPath (location env)) = Resolved m ->
  find_build m (getChipFamilyName env) = Some b ->
  runStub env = Resolved u'' ->
  settle (filePromises env (resolveURL env manifestPath (location env))
            0 (Build.parts b)) = (bufs, None) ->
  (eraseFirst = true -> exists v, eraseFlash env = Resolved v) ->
  fed env 0 (Build.parts b) bufs 0 = (cum, r) ->
  exists after,
    trace env manifestPath eraseFirst =
      upto_writing env eraseFirst m (sizes bufs)
      ++ progress env m (sizes bufs) cum
      ++ after
    /\ (map summary (map update (fired after)) = [SError WRITE_FAILED]
        \/ map summary (map update (fired after))
           = [SWriting (num_of_N 100)]
        \/ map summary (map update (fired after))
           = [SWriting (num_of_N 100); SFinished]).
Proof.
  intros Hconnect Hinit Hfetch Hfind Hstub Hsettle Herase Hfed.
  shape_of env manifestPath eraseFirst; try congruence;
    try (exfalso; eapply erase_resolved_or_not; eassumption).
  all: assert (m0 = m) by congruence; subst m0.
  all: assert (b0 = b) by congruence; subst b0.
  all: assert (bufs0 = bufs) by congruence; subst bufs0.
  all: assert (cum0 = cum) by congruence; subst cum0.
  all: unfold upto_written; repeat rewrite <- app_assoc;
    eexists; (split; [reflexivity|]).
  - left. reflexivity.
  - right. left. reflexivity.
  - right. left. reflexivity.
  - right. right. reflexivity.
Qed.

(** ** The arithmetic of the percentage

    Division and multiplication round to nearest, which is monotone; so
    is [Math.floor]. *)

Section Rounding.

Local Open Scope R_scope.

Lemma bpow_pos e : 0 < bpow e.
Proof. apply powerRZ_lt. lra. Qed.

Lemma bpow_add a b : bpow (a + b) = bpow a * bpow b.
Proof. apply powerRZ_add. lra. Qed.

Lemma bpow_0 : bpow 0 = 1.
Proof. reflexivity. Qed.

Lemma bpow_1 : bpow 1 = 2.
Proof. unfold bpow. simpl. lra. Qed.

Lemma bpow_succ e : bpow (e + 1) = 2 * bpow e.
Proof. rewrite bpow_add, bpow_1. lra. Qed.

Lemma bpow_le a b : (a <= b)%Z -> bpow a <= bpow b.
Proof.
  intros H. replace b with (a + (b - a))%Z by lia.
  rewrite bpow_add.
  assert (1 <= bpow (b - a)).
  { destruct (b - a)%Z eqn:E; try lia.
    - rewrite bpow_0. lra.
    - unfold bpow. simpl. apply pow_R1_Rle. lra. }
  pose proof (bpow_pos a). nra.
Qed.

Lemma bpow_lt a b : (a < b)%Z -> bpow a < bpow b.
Proof.
  intros H. apply Rlt_le_trans with (bpow (a + 1)).
  - rewrite bpow_succ. pose proof (bpow_pos a). lra.
  - apply bpow_le. lia.
Qed.

Lemma bpow_IZR k : (0 <= k)%Z -> bpow k = IZR (2 ^ k).
Proof.
  intros H. unfold bpow.
  destruct k as [|p|p]; try lia.
  - reflexivity.
  - change (2 ^ Zpos p)%Z with (Z.pow_pos 2 p).
    rewrite Zpower_pos_powerRZ. reflexivity.
Qed.

Lemma digits2_size p : digits2_pos p = Pos.size p.
Proof. induction p; simpl; congruence. Qed.

Lemma digits2_bounds p :
  (2 ^ (Zpos (digits2_pos p) - 1) <= Zpos p < 2 ^ Zpos (digits2_pos p))%Z.
Proof.
  rewrite digits2_size. split.
  - pose proof (Pos.size_le p) as H.
    assert (2 ^ Zpos (Pos.size p) <= 2 * Zpos p)%Z.
    { change (2 * Zpos p)%Z with (Zpos p~0). rewrite <- Pos2Z.inj_pow. 
      apply Pos2Z.pos_le_pos. exact H. }
    replace (Zpos (Pos.size p)) with (Zpos (Pos.size p) - 1 + 1)%Z in H0 by lia.
    rewrite Z.pow_add_r in H0 by lia. lia.
  - pose proof (Pos.size_gt p) as H.
    rewrite <- Pos2Z.inj_pow. apply Pos2Z.pos_lt_pos. exact H.
Qed.

Lemma inbetween_bounds m x l : inbetween m x l -> IZR m <= x < IZR m + 1.
Proof. destruct l as [|c]; cbn [inbetween]; intros H; lra. Qed.

Lemma IZR_xO p : IZR (Zpos p~0) = 2 * IZR (Zpos p).
Proof. rewrite Pos2Z.inj_xO, mult_IZR. reflexivity. Qed.

Lemma IZR_xI p : IZR (Zpos p~1) = 2 * IZR (Zpos p) + 1.
Proof. rewrite Pos2Z.inj_xI, plus_IZR, mult_IZR. reflexivity. Qed.

Lemma loc_of_shr_record_of_loc m l :
  loc_of_shr_record (shr_record_of_loc m l) = l
  /\ shr_m (shr_record_of_loc m l) = m.
Proof. destruct l as [|[]]; split; reflexivity. Qed.

Lemma shr_1_inbetween mrs x :
  (0 <= shr_m mrs)%Z ->
  inbetween (shr_m mrs) x (loc_of_shr_record mrs) ->
  inbetween (shr_m (shr_1 mrs)) (x / 2) (loc_of_shr_record (shr_1 mrs))
  /\ (0 <= shr_m (shr_1 mrs))%Z.
Proof.
  destruct mrs as [m r s].
  cbn [shr_m]. intros Hm H.
  destruct m as [|[p|p|]|p];
    [ | pose proof (IZR_xI p) as Hp | pose proof (IZR_xO p) as Hp | |
      exfalso; apply Hm; reflexivity ];
    destruct r, s;
    cbn [shr_1 shr_m loc_of_shr_record inbetween orb] in *;
    (split; [|first [apply Z.le_refl | apply Pos2Z.is_nonneg]]); lra.
Qed.

Lemma iter_shr_1 p : forall mrs x,
  (0 <= shr_m mrs)%Z ->
  inbetween (shr_m mrs) x (loc_of_shr_record mrs) ->
  inbetween (shr_m (SpecFloat.iter_pos shr_1 p mrs)) (x / bpow (Zpos p))
            (loc_of_shr_record (SpecFloat.iter_pos shr_1 p mrs))
  /\ (0 <= shr_m (SpecFloat.iter_pos shr_1 p mrs))%Z.
Proof.
  induction p as [p IH|p IH|]; intros mrs x Hm H; simpl SpecFloat.iter_pos.
  - destruct (shr_1_inbetween mrs x Hm H) as [H1 Hm1].
    destruct (IH _ _ Hm1 H1) as [H2 Hm2].
    destruct (IH _ _ Hm2 H2) as [H3 Hm3].
    split; [|exact Hm3].
    replace (x / bpow (Zpos p~1)) with (x / 2 / bpow (Zpos p) / bpow (Zpos p));
      [exact H3|].
    replace (Zpos p~1) with (Zpos p + Zpos p + 1)%Z by lia.
    rewrite !bpow_add, bpow_1. pose proof (bpow_pos (Zpos p)). field. lra.
  - destruct (IH _ _ Hm H) as [H2 Hm2].
    destruct (IH _ _ Hm2 H2) as [H3 Hm3].
    split; [|exact Hm3].
    replace (x / bpow (Zpos p~0)) with (x / bpow (Zpos p) / bpow (Zpos p));
      [exact H3|].
    replace (Zpos p~0) with (Zpos p + Zpos p)%Z by lia.
    rewrite !bpow_add. pose proof (bpow_pos (Zpos p)). field. lra.
  - destruct (shr_1_inbetween mrs x Hm H) as [H1 Hm1].
    split; [|exact Hm1]. rewrite bpow_1. exact H1.
Qed.

(** [shr_fexp] at a shift [n >= 0]. *)
Lemma shr_inbetween m e l n x :
  (0 <= m)%Z -> (0 <= n)%Z ->
  inbetween m x l ->
  exists m' l',
    shr (shr_record_of_loc m l) e n
      = (shr_record_of_loc m' l', (e + n)%Z)
    /\ (0 <= m')%Z
    /\ inbetween m' (x / bpow n) l'.
Proof.
  intros Hm Hn H.
  destruct (loc_of_shr_record_of_loc m l) as [Hl Hsm].
  destruct n as [|p|p]; try lia.
  - exists m, l. cbn [shr]. rewrite Z.add_0_r. repeat split; auto.
    rewrite bpow_0. replace (x / 1) with x by field. exact H.
  - simpl shr.
    destruct (iter_shr_1 p (shr_record_of_loc m l) x) as [H1 Hm1].
    + rewrite Hsm. exact Hm.
    + rewrite Hsm, Hl. exact H.
    + set (mrs := SpecFloat.iter_pos shr_1 p (shr_record_of_loc m l)) in *.
      exists (shr_m mrs), (loc_of_shr_record mrs).
      repeat split; auto.
      f_equal. destruct mrs as [m' [] []]; reflexivity.
Qed.

Lemma round_nearest_even_near m x l :
  inbetween m x l ->
  (round_nearest_even m l = m \/ round_nearest_even m l = (m + 1)%Z)
  /\ - / 2 <= x - IZR (round_nearest_even m l) <= / 2.
Proof.
  destruct l as [|[]]; cbn [inbetween round_nearest_even]; intros H.
  - split; [left; reflexivity | lra].
  - destruct (Z.even m).
    + split; [left; reflexivity | lra].
    + split; [right; reflexivity | rewrite plus_IZR; lra].
  - split; [left; reflexivity | lra].
  - split; [right; reflexivity | rewrite plus_IZR; lra].
Qed.

Lemma digits2_unique p d :
  (2 ^ (d - 1) <= Zpos p < 2 ^ d)%Z -> Zpos (digits2_pos p) = d.
Proof.
  intros [Hlo Hhi]. pose proof (digits2_bounds p) as [Hlo' Hhi'].
  assert (0 < d)%Z.
  { destruct d as [|q|q]; [| reflexivity |]; simpl in Hhi; lia. }
  destruct (Z.lt_trichotomy (Zpos (digits2_pos p)) d) as [Hlt | [Heq | Hgt]];
    [|exact Heq|].
  - assert (2 ^ Zpos (digits2_pos p) <= 2 ^ (d - 1))%Z
      by (apply Z.pow_le_mono_r; lia).
    lia.
  - assert (2 ^ d <= 2 ^ (Zpos (digits2_pos p) - 1))%Z
      by (apply Z.pow_le_mono_r; lia).
    lia.
Qed.

Lemma fexp_normal e :
  (-1074 <= e - 53)%Z -> fexp prec emax e = (e - 53)%Z.
Proof. unfold fexp, SpecFloat.emin, prec, emax. lia. Qed.

(** Rounding a located value with at least 53 digits, in the range of
    the normal numbers. *)
Lemma binary_round_aux_normal p ex lx x :
  inbetween (Zpos p) x lx ->
  (53 <= Zpos (digits2_pos p))%Z ->
  (-1074 <= Zpos (digits2_pos p) + ex - 53)%Z ->
  (Zpos (digits2_pos p) + ex <= 1023)%Z ->
  exists m e k,
    binary_round_aux prec emax false (Zpos p) ex lx = S754_finite false m e
    /\ (2 ^ 52 <= Zpos m < 2 ^ 53)%Z
    /\ (Zpos (digits2_pos p) + ex - 53 <= e
        <= Zpos (digits2_pos p) + ex - 52)%Z
    /\ IZR (Zpos m) * bpow e
       = IZR k * bpow (Zpos (digits2_pos p) + ex - 53)
    /\ - / 2 <= x / bpow (Zpos (digits2_pos p) - 53) - IZR k <= / 2.
Proof.
  set (d := Zpos (digits2_pos p)).
  intros Hx Hd Hlo Hhi.
  unfold binary_round_aux, shr_fexp.
  change (Zdigits2 (Zpos p)) with d.
  rewrite fexp_normal by lia.
  destruct (shr_inbetween (Zpos p) ex lx (d + ex - 53 - ex) x)
    as (m' & l' & Hshr & Hm' & Hx'); [lia | lia | exact Hx |].
  rewrite Hshr.
  destruct (loc_of_shr_record_of_loc m' l') as [-> ->].
  replace (d + ex - 53 - ex)%Z with (d - 53)%Z in * by lia.
  replace (ex + (d - 53))%Z with (d + ex - 53)%Z by lia.
  destruct (round_nearest_even_near m' (x / bpow (d - 53)) l' Hx')
    as [Hk Hnear].
  set (k := round_nearest_even m' l') in *.
  (* the truncated mantissa has 53 digits *)
  assert (Hm'53 : (2 ^ 52 <= m' < 2 ^ 53)%Z).
  { pose proof (inbetween_bounds _ _ _ Hx) as Hb.
    pose proof (inbetween_bounds _ _ _ Hx') as Hb'.
    pose proof (digits2_bounds p) as [Hp1 Hp2]. fold d in Hp1, Hp2.
    assert (bpow (d - 1) <= x).
    { rewrite bpow_IZR by lia. apply Rle_trans with (IZR (Zpos p)); [|lra].
      apply IZR_le. exact Hp1. }
    assert (x < bpow d).
    { rewrite bpow_IZR by lia. apply Rlt_le_trans with (IZR (Zpos p) + 1); [lra|].
      rewrite <- plus_IZR. apply IZR_le. lia. }
    pose proof (bpow_pos (d - 53)) as Hpos.
    assert (bpow 52 <= x / bpow (d - 53)).
    { apply Rmult_le_reg_r with (bpow (d - 53)); [exact Hpos|].
      replace (x / bpow (d - 53) * bpow (d - 53)) with x by (field; lra).
      rewrite <- bpow_add. replace (52 + (d - 53))%Z with (d - 1)%Z by lia.
      assumption. }
    assert (x / bpow (d - 53) < bpow 53).
    { apply Rmult_lt_reg_r with (bpow (d - 53)); [exact Hpos|].
      replace (x / bpow (d - 53) * bpow (d - 53)) with x by (field; lra).
      rewrite <- bpow_add. replace (53 + (d - 53))%Z with d by lia.
      assumption. }
    rewrite (bpow_IZR 52) in H1 by lia.
    rewrite (bpow_IZR 53) in H2 by lia.
    split.
    - assert (IZR (2 ^ 52) < IZR (m' + 1)) by (rewrite plus_IZR; lra).
      apply lt_IZR in H3. lia.
    - apply lt_IZR. lra. }
  destruct (Z.eq_dec k (2 ^ 53)) as [Hk53|Hk53].
  - (* rounded up to the next power of two *)
    rewrite Hk53.
    change (Zdigits2 (2 ^ 53)) with 54%Z.
    rewrite fexp_normal by lia.
    replace (54 + (d + ex - 53) - 53 - (d + ex - 53))%Z with 1%Z by lia.
    cbn [shr shr_record_of_loc SpecFloat.iter_pos shr_1 shr_m Z.pow Z.pow_pos Pos.iter
           Z.mul Pos.mul].
    replace (d + ex - 53 + 1 <=? emax - prec)%Z with true
      by (symmetry; apply Z.leb_le; unfold emax, prec; lia).
    eexists _, _, k. split; [reflexivity|].
    split; [lia|]. split; [lia|]. split; [|exact Hnear].
    rewrite Hk53, bpow_add, bpow_1. simpl. lra.
  - assert (Hk53' : (2 ^ 52 <= k < 2 ^ 53)%Z) by lia.
    destruct k as [|pk|pk] eqn:Ek; try lia.
    change (Zdigits2 (Zpos pk)) with (Zpos (digits2_pos pk)).
    rewrite (digits2_unique pk 53) by lia.
    rewrite fexp_normal by lia.
    replace (53 + (d + ex - 53) - 53 - (d + ex - 53))%Z with 0%Z by lia.
    cbn [shr shr_record_of_loc shr_m].
    replace (d + ex - 53 <=? emax - prec)%Z with true
      by (symmetry; apply Z.leb_le; unfold emax, prec; lia).
    exists pk, (d + ex - 53)%Z, (Zpos pk). repeat split; try lia; try lra.
Qed.

Lemma scaled_binade r mag :
  in_binade r mag ->
  bpow 52 <= r / bpow (mag - 53) < bpow 53.
Proof.
  intros [Hlo Hhi]. pose proof (bpow_pos (mag - 53)) as Hpos.
  split.
  - apply Rmult_le_reg_r with (bpow (mag - 53)); [exact Hpos|].
    replace (r / bpow (mag - 53) * bpow (mag - 53)) with r by (field; lra).
    rewrite <- bpow_add. replace (52 + (mag - 53))%Z with (mag - 1)%Z by lia.
    exact Hlo.
  - apply Rmult_lt_reg_r with (bpow (mag - 53)); [exact Hpos|].
    replace (r / bpow (mag - 53) * bpow (mag - 53)) with r by (field; lra).
    rewrite <- bpow_add. replace (53 + (mag - 53))%Z with mag by lia.
    exact Hhi.
Qed.

(** Rounding to nearest is monotone. *)
Lemma rounds_to_mono r1 r2 mag1 mag2 m1 e1 m2 e2 :
  r1 < r2 ->
  in_binade r1 mag1 -> in_binade r2 mag2 ->
  rounds_to r1 mag1 m1 e1 -> rounds_to r2 mag2 m2 e2 ->
  F2R m1 e1 <= F2R m2 e2.
Proof.
  intros Hr Hb1 Hb2 (k1 & -> & Hk1) (k2 & -> & Hk2).
  pose proof (scaled_binade _ _ Hb1) as Hs1.
  pose proof (scaled_binade _ _ Hb2) as Hs2.
  destruct (Z.lt_trichotomy mag1 mag2) as [Hlt | [Heq | Hgt]].
  - (* the binade of [r2] is higher *)
    assert (Hk1' : (k1 <= 2 ^ 53)%Z).
    { assert (IZR k1 < IZR (2 ^ 53 + 1)).
      { rewrite plus_IZR, <- bpow_IZR by lia. lra. }
      apply lt_IZR in H. lia. }
    assert (Hk2' : (2 ^ 52 <= k2)%Z).
    { assert (IZR (2 ^ 52 - 1) < IZR k2).
      { rewrite minus_IZR, <- bpow_IZR by lia. lra. }
      apply lt_IZR in H. lia. }
    apply Rle_trans with (bpow mag1).
    + replace mag1 with (53 + (mag1 - 53))%Z at 2 by lia.
      rewrite bpow_add, (bpow_IZR 53) by lia.
      apply Rmult_le_compat_r; [left; apply bpow_pos|].
      apply IZR_le. exact Hk1'.
    + apply Rle_trans with (bpow (mag2 - 1)); [apply bpow_le; lia|].
      replace (mag2 - 1)%Z with (52 + (mag2 - 53))%Z by lia.
      rewrite bpow_add, (bpow_IZR 52) by lia.
      apply Rmult_le_compat_r; [left; apply bpow_pos|].
      apply IZR_le. exact Hk2'.
  - subst mag2.
    apply Rmult_le_compat_r; [left; apply bpow_pos|].
    apply IZR_le.
    assert (r1 / bpow (mag1 - 53) < r2 / bpow (mag1 - 53)).
    { apply Rmult_lt_compat_r; [|exact Hr].
      apply Rinv_0_lt_compat, bpow_pos. }
    assert (IZR k1 < IZR (k2 + 1)) by (rewrite plus_IZR; lra).
    apply lt_IZR in H0. lia.
  - (* impossible: [r1] would lie above [r2] *)
    destruct Hb1 as [Hlo1 _], Hb2 as [_ Hhi2].
    assert (bpow mag2 <= bpow (mag1 - 1)) by (apply bpow_le; lia).
    lra.
Qed.

(** Normal numbers compare as their exponents, then their mantissas. *)
Lemma normal_le m1 e1 m2 e2 :
  normal m1 -> normal m2 ->
  F2R m1 e1 <= F2R m2 e2 ->
  (e1 < e2)%Z \/ (e1 = e2 /\ (Zpos m1 <= Zpos m2)%Z).
Proof.
  unfold normal, F2R. intros [Hlo1 Hhi1] [Hlo2 Hhi2] Hle.
  destruct (Z.lt_trichotomy e1 e2) as [Hlt | [Heq | Hgt]];
    [left; exact Hlt | right | exfalso].
  - subst e2. split; [reflexivity|].
    apply le_IZR. apply Rmult_le_reg_r with (bpow e1); [apply bpow_pos | exact Hle].
  - assert (bpow (e2 + 1) <= bpow e1) by (apply bpow_le; lia).
    rewrite bpow_succ in H.
    pose proof (bpow_pos e2). pose proof (bpow_pos e1).
    assert (IZR (Zpos m2) < IZR (2 ^ 53)) by (apply IZR_lt; lia).
    assert (IZR (2 ^ 52) <= IZR (Zpos m1)) by (apply IZR_le; lia).
    assert (IZR (2 ^ 53) = 2 * IZR (2 ^ 52)).
    { rewrite <- mult_IZR. f_equal. }
    nra.
Qed.

Lemma normal_eq m1 e1 m2 e2 :
  normal m1 -> normal m2 ->
  F2R m1 e1 = F2R m2 e2 -> m1 = m2 /\ e1 = e2.
Proof.
  intros H1 H2 Heq.
  assert (Hle : F2R m1 e1 <= F2R m2 e2) by (rewrite Heq; apply Rle_refl).
  assert (Hge : F2R m2 e2 <= F2R m1 e1) by (rewrite Heq; apply Rle_refl).
  destruct (normal_le m1 e1 m2 e2 H1 H2 Hle) as [Hlt | [He Hm]];
    destruct (normal_le m2 e2 m1 e1 H2 H1 Hge) as [Hlt' | [He' Hm']];
    first [lia | split; [apply Pos2Z.inj; lia | lia]].
Qed.

Lemma SFleb_finite m1 e1 m2 e2 :
  (e1 < e2)%Z \/ (e1 = e2 /\ (Zpos m1 <= Zpos m2)%Z) ->
  SFleb (S754_finite false m1 e1) (S754_finite false m2 e2) = true.
Proof.
  unfold SFleb, SFcompare. intros [Hlt | [-> Hle]].
  - rewrite (proj2 (Z.compare_lt_iff e1 e2) Hlt). reflexivity.
  - rewrite Z.compare_refl.
    change (Pos.compare_cont Eq m1 m2) with (Pos.compare m1 m2).
    destruct (Pos.compare_spec m1 m2); try reflexivity. lia.
Qed.

(** The same, in terms of the value that is rounded. *)
Lemma binary_round_aux_rounds p ex lx x :
  inbetween (Zpos p) x lx ->
  (53 <= Zpos (digits2_pos p))%Z ->
  (-1074 <= Zpos (digits2_pos p) + ex - 53)%Z ->
  (Zpos (digits2_pos p) + ex <= 1023)%Z ->
  exists m e,
    binary_round_aux prec emax false (Zpos p) ex lx = S754_finite false m e
    /\ normal m
    /\ (Zpos (digits2_pos p) + ex - 53 <= e
        <= Zpos (digits2_pos p) + ex - 52)%Z
    /\ in_binade (x * bpow ex) (Zpos (digits2_pos p) + ex)
    /\ rounds_to (x * bpow ex) (Zpos (digits2_pos p) + ex) m e.
Proof.
  intros Hx Hd Hlo Hhi.
  destruct (binary_round_aux_normal p ex lx x Hx Hd Hlo Hhi)
    as (m & e & k & Heq & Hm & He & Hval & Hnear).
  exists m, e. repeat split; try assumption; try lia.
  - pose proof (inbetween_bounds _ _ _ Hx) as Hb.
    pose proof (digits2_bounds p) as [Hp1 Hp2].
    replace (Zpos (digits2_pos p) + ex - 1)%Z
      with (Zpos (digits2_pos p) - 1 + ex)%Z by lia.
    rewrite bpow_add, (bpow_IZR (Zpos (digits2_pos p) - 1)) by lia.
    apply Rmult_le_compat_r; [left; apply bpow_pos|].
    apply Rle_trans with (IZR (Zpos p)); [apply IZR_le; exact Hp1 | lra].
  - pose proof (inbetween_bounds _ _ _ Hx) as Hb.
    pose proof (digits2_bounds p) as [Hp1 Hp2].
    rewrite bpow_add, (bpow_IZR (Zpos (digits2_pos p))) by lia.
    apply Rmult_lt_compat_r; [apply bpow_pos|].
    apply Rlt_le_trans with (IZR (Zpos p) + 1); [lra|].
    rewrite <- plus_IZR. apply IZR_le. lia.
  - exists k. split; [exact Hval|].
    replace (x * bpow ex / bpow (Zpos (digits2_pos p) + ex - 53))
      with (x / bpow (Zpos (digits2_pos p) - 53)); [exact Hnear|].
    replace (Zpos (digits2_pos p) + ex - 53)%Z
      with (Zpos (digits2_pos p) - 53 + ex)%Z by lia.
    rewrite bpow_add.
    pose proof (bpow_pos ex). pose proof (bpow_pos (Zpos (digits2_pos p) - 53)).
    field. lra.
Qed.

(** Where a quotient lies, from the remainder of the division. *)
Lemma new_location_inbetween q d k :
  (0 <= k < d)%Z ->
  inbetween q (IZR (q * d + k) / IZR d) (new_location d k).
Proof.
  intros Hk.
  assert (Hd : 0 < IZR d) by (apply IZR_lt; lia).
  assert (Hval : IZR (q * d + k) / IZR d = IZR q + IZR k / IZR d).
  { rewrite plus_IZR, mult_IZR. field. lra. }
  rewrite Hval.
  assert (Hk0 : 0 <= IZR k) by (apply IZR_le; lia).
  assert (Hkd : IZR k < IZR d) by (apply IZR_lt; lia).
  assert (Hfrac : forall c : R, (IZR k / IZR d < c <-> IZR k < c * IZR d)
                          /\ (c < IZR k / IZR d <-> c * IZR d < IZR k)).
  { intros c. unfold Rdiv. split; split; intros H.
    - apply Rmult_lt_reg_r with (/ IZR d); [apply Rinv_0_lt_compat; lra|].
      rewrite Rmult_assoc, Rinv_r by lra. lra.
    - apply Rmult_lt_compat_r with (r := / IZR d) in H;
        [|apply Rinv_0_lt_compat; lra].
      rewrite Rmult_assoc, Rinv_r in H by lra. lra.
    - apply Rmult_lt_reg_r with (/ IZR d); [apply Rinv_0_lt_compat; lra|].
      rewrite Rmult_assoc, Rinv_r by lra. lra.
    - apply Rmult_lt_compat_r with (r := / IZR d) in H;
        [|apply Rinv_0_lt_compat; lra].
      rewrite Rmult_assoc, Rinv_r in H by lra. lra. }
  assert (Hexact : k = 0%Z -> inbetween q (IZR q + IZR k / IZR d) loc_Exact).
  { intros ->. cbn [inbetween]. unfold Rdiv. rewrite Rmult_0_l. lra. }
  assert (Hin : k <> 0%Z -> IZR q < IZR q + IZR k / IZR d < IZR q + 1).
  { intros Hk'. assert (0 < IZR k) by (apply IZR_lt; lia).
    destruct (Hfrac 0) as [_ H0]. destruct (Hfrac 1) as [H1 _].
    split.
    - assert (0 < IZR k / IZR d) by (apply H0; lra). lra.
    - assert (IZR k / IZR d < 1) by (apply H1; lra). lra. }
  destruct (Hfrac (/ 2)) as [Hlt Hgt].
  unfold new_location.
  destruct (Z.even d) eqn:Heven;
    [unfold new_location_even | unfold new_location_odd];
    (destruct (Z.eqb_spec k 0) as [Hk'|Hk']; [apply Hexact; exact Hk'|]);
    cbn [inbetween]; (split; [apply Hin; exact Hk'|]).
  - destruct (Z.compare_spec (2 * k) d) as [Heq | Hc | Hc].
    + assert (IZR d = 2 * IZR k) by (rewrite <- Heq, mult_IZR; reflexivity).
      rewrite H. assert (0 < IZR k) by (apply IZR_lt; lia). field. lra.
    + apply IZR_lt in Hc. rewrite mult_IZR in Hc.
      assert (IZR k / IZR d < / 2) by (apply Hlt; lra). lra.
    + apply IZR_lt in Hc. rewrite mult_IZR in Hc.
      assert (/ 2 < IZR k / IZR d) by (apply Hgt; lra). lra.
  - assert (Hodd : (2 * k <> d)%Z).
    { intros <-. rewrite Z.even_mul in Heven. discriminate. }
    destruct (Z.compare_spec (2 * k + 1) d) as [Heq | Hc | Hc].
    + assert (H0 : (2 * k < d)%Z) by lia. apply IZR_lt in H0.
      rewrite mult_IZR in H0.
      assert (IZR k / IZR d < / 2) by (apply Hlt; lra). lra.
    + assert (H0 : (2 * k < d)%Z) by lia. apply IZR_lt in H0.
      rewrite mult_IZR in H0.
      assert (IZR k / IZR d < / 2) by (apply Hlt; lra). lra.
    + assert (H0 : (d < 2 * k)%Z) by lia. apply IZR_lt in H0.
      rewrite mult_IZR in H0.
      assert (/ 2 < IZR k / IZR d) by (apply Hgt; lra). lra.
Qed.

Lemma shift_pos_value p k : Zpos (Pos.iter xO p k) = (Zpos p * 2 ^ Zpos k)%Z.
Proof.
  revert p. induction k using Pos.peano_ind; intros p.
  - simpl. lia.
  - rewrite Pos.iter_succ. rewrite Pos2Z.inj_xO, IHk.
    rewrite Pos2Z.inj_succ, Z.pow_succ_r by lia. lia.
Qed.

(** A positive integer below [2 ^ 53] is a number, exactly. *)
Lemma num_of_Z_normal p :
  (Zpos p < 2 ^ 53)%Z ->
  exists m e,
    num_of_Z (Zpos p) = S754_finite false m e
    /\ normal m
    /\ e = (Zpos (digits2_pos p) - 53)%Z
    /\ F2R m e = IZR (Zpos p).
Proof.
  intros Hp.
  pose proof (digits2_bounds p) as [Hd1 Hd2].
  set (d := Zpos (digits2_pos p)) in *.
  assert (Hd : (1 <= d <= 53)%Z).
  { split; [unfold d; lia|].
    destruct (Z.leb_spec d 53); [assumption|].
    assert (2 ^ 53 <= 2 ^ (d - 1))%Z by (apply Z.pow_le_mono_r; lia). lia. }
  unfold num_of_Z, binary_normalize, binary_round.
  rewrite Z.add_0_r. fold d. rewrite fexp_normal by lia.
  unfold shl_align. rewrite Z.sub_0_r.
  assert (Hcase : exists mz,
             (let '(mz0, ez0) :=
                match (d - 53)%Z with
                | Z.neg k => (Pos.iter xO p k, (d - 53)%Z)
                | _ => (p, 0%Z)
                end in
              binary_round_aux prec emax false (Zpos mz0) ez0 loc_Exact)
             = binary_round_aux prec emax false (Zpos mz) (d - 53) loc_Exact
             /\ Zpos mz = (Zpos p * 2 ^ (53 - d))%Z).
  { destruct (d - 53)%Z as [|k|k] eqn:E; try lia.
    - exists p. replace (53 - d)%Z with 0%Z by lia. split; [reflexivity | lia].
    - exists (Pos.iter xO p k). split; [reflexivity|].
      rewrite shift_pos_value. f_equal. f_equal. lia. }
  destruct Hcase as (mz & -> & Hmz).
  assert (Hnz : normal mz).
  { unfold normal. rewrite Hmz.
    assert (H52 : (2 ^ 52 = 2 ^ (d - 1) * 2 ^ (53 - d))%Z).
    { rewrite <- Z.pow_add_r by lia. f_equal. lia. }
    assert (H53 : (2 ^ 53 = 2 ^ d * 2 ^ (53 - d))%Z).
    { rewrite <- Z.pow_add_r by lia. f_equal. lia. }
    assert (0 < 2 ^ (53 - d))%Z by (apply Z.pow_pos_nonneg; lia).
    rewrite H52, H53.
    split; [apply Z.mul_le_mono_nonneg_r; lia | apply Z.mul_lt_mono_pos_r; lia]. }
  assert (Hdz : Zpos (digits2_pos mz) = 53%Z)
    by (apply digits2_unique; exact Hnz).
  destruct (binary_round_aux_rounds mz (d - 53) loc_Exact (IZR (Zpos mz)))
    as (m & e & Heq & Hm & He & Hbin & (k & Hval & Hnear));
    [reflexivity | lia | lia | lia |].
  rewrite Hdz in *.
  replace (53 + (d - 53) - 53)%Z with (d - 53)%Z in * by lia.
  assert (Hval' : F2R mz (d - 53) = IZR (Zpos p)).
  { unfold F2R. rewrite Hmz, mult_IZR, <- (bpow_IZR (53 - d)) by lia.
    rewrite Rmult_assoc, <- bpow_add.
    replace (53 - d + (d - 53))%Z with 0%Z by lia. rewrite bpow_0. lra. }
  assert (Hk : k = Zpos mz).
  { replace (IZR (Zpos mz) * bpow (d - 53) / bpow (d - 53))
      with (IZR (Zpos mz)) in Hnear
      by (pose proof (bpow_pos (d - 53)); field; lra).
    assert (IZR (Zpos mz - 1) < IZR k) by (rewrite minus_IZR; lra).
    assert (IZR k < IZR (Zpos mz + 1)) by (rewrite plus_IZR; lra).
    apply lt_IZR in H, H0. lia. }
  subst k.
  destruct (normal_eq m e mz (d - 53) Hm Hnz Hval) as [-> ->].
  exists mz, (d - 53)%Z. repeat split; try assumption; apply Hnz.
Qed.

Lemma bpow_opp e : bpow (- e) = / bpow e.
Proof. apply powerRZ_neg'. Qed.

Lemma digits2_ge p n :
  (0 <= n)%Z -> (2 ^ n <= Zpos p)%Z -> (n + 1 <= Zpos (digits2_pos p))%Z.
Proof.
  intros Hn Hp. pose proof (digits2_bounds p) as [_ Hhi].
  destruct (Z.leb_spec (n + 1) (Zpos (digits2_pos p))); [assumption|].
  assert (2 ^ Zpos (digits2_pos p) <= 2 ^ n)%Z
    by (apply Z.pow_le_mono_r; lia).
  lia.
Qed.

Lemma digits2_le p n :
  (0 <= n)%Z -> (Zpos p < 2 ^ n)%Z -> (Zpos (digits2_pos p) <= n)%Z.
Proof.
  intros Hn Hp. pose proof (digits2_bounds p) as [Hlo _].
  destruct (Z.leb_spec (Zpos (digits2_pos p)) n); [assumption|].
  assert (2 ^ n <= 2 ^ (Zpos (digits2_pos p) - 1))%Z
    by (apply Z.pow_le_mono_r; lia).
  lia.
Qed.

(** The quotient of two normal numbers is the rounding of the quotient
    of their values. *)
Lemma SFdiv_rounds mx ex mt et :
  normal mx -> normal mt ->
  (-400 <= ex <= 400)%Z -> (-400 <= et <= 400)%Z ->
  exists m e mag,
    SFdiv prec emax (S754_finite false mx ex) (S754_finite false mt et)
      = S754_finite false m e
    /\ normal m
    /\ (ex - et - 53 <= e <= ex - et - 51)%Z
    /\ in_binade (F2R mx ex / F2R mt et) mag
    /\ rounds_to (F2R mx ex / F2R mt et) mag m e.
Proof.
  intros Hmx Hmt Hex Het.
  unfold SFdiv, SFdiv_core_binary. cbn [xorb].
  change (Zdigits2 (Zpos mx)) with (Zpos (digits2_pos mx)).
  change (Zdigits2 (Zpos mt)) with (Zpos (digits2_pos mt)).
  rewrite (digits2_unique mx 53), (digits2_unique mt 53)
    by (unfold normal in *; lia).
  replace (53 + ex - (53 + et))%Z with (ex - et)%Z by lia.
  rewrite fexp_normal by lia.
  rewrite Z.min_l by lia.
  replace (ex - et - (ex - et - 53))%Z with 53%Z by lia.
  cbv beta iota.
  rewrite Z.shiftl_mul_pow2 by lia.
  pose proof (Z_div_mod (Zpos mx * 2 ^ 53) (Zpos mt) eq_refl) as Hdiv.
  destruct (Z.div_eucl (Zpos mx * 2 ^ 53) (Zpos mt)) as [q r].
  destruct Hdiv as [Hqr Hr].
  unfold normal in Hmx, Hmt.
  assert (Hq : (2 ^ 52 <= q < 2 ^ 54)%Z).
  { assert (H105 : (2 ^ 105 <= Zpos mx * 2 ^ 53 < 2 ^ 106)%Z).
    { change (2 ^ 105)%Z with (2 ^ 52 * 2 ^ 53)%Z.
      change (2 ^ 106)%Z with (2 ^ 53 * 2 ^ 53)%Z.
      split; [apply Z.mul_le_mono_nonneg_r; lia
             | apply Z.mul_lt_mono_pos_r; lia]. }
    split.
    - destruct (Z.leb_spec (2 ^ 52) q); [assumption|exfalso].
      assert (Zpos mt * (q + 1) <= Zpos mt * 2 ^ 52)%Z
        by (apply Z.mul_le_mono_nonneg_l; lia).
      assert (Zpos mt * 2 ^ 52 < 2 ^ 53 * 2 ^ 52)%Z
        by (apply Z.mul_lt_mono_pos_r; lia).
      change (2 ^ 53 * 2 ^ 52)%Z with (2 ^ 105)%Z in *. lia.
    - destruct (Z.ltb_spec q (2 ^ 54)); [assumption|exfalso].
      assert (Zpos mt * 2 ^ 54 <= Zpos mt * q)%Z
        by (apply Z.mul_le_mono_nonneg_l; lia).
      assert (2 ^ 52 * 2 ^ 54 <= Zpos mt * 2 ^ 54)%Z
        by (apply Z.mul_le_mono_nonneg_r; lia).
      change (2 ^ 52 * 2 ^ 54)%Z with (2 ^ 106)%Z in *. lia. }
  destruct q as [|pq|pq]; try lia.
  assert (Hdq : (53 <= Zpos (digits2_pos pq) <= 54)%Z).
  { split; [apply (digits2_ge pq 52); lia | apply digits2_le; lia]. }
  destruct (binary_round_aux_rounds pq (ex - et - 53)
              (new_location (Zpos mt) r)
              (IZR (Zpos pq * Zpos mt + r) / IZR (Zpos mt)))
    as (m & e & Heq & Hm & He & Hbin & Hround);
    [apply new_location_inbetween; exact Hr | lia | lia | lia |].
  assert (Hval : IZR (Zpos pq * Zpos mt + r) / IZR (Zpos mt)
                 * bpow (ex - et - 53)
                 = F2R mx ex / F2R mt et).
  { replace (Zpos pq * Zpos mt + r)%Z with (Zpos mx * 2 ^ 53)%Z by lia.
    unfold F2R. rewrite mult_IZR, <- (bpow_IZR 53) by lia.
    replace (ex - et - 53)%Z with (ex + (- et + - (53)))%Z by lia.
    rewrite !bpow_add, !bpow_opp.
    pose proof (bpow_pos ex). pose proof (bpow_pos et).
    pose proof (bpow_pos 53).
    assert (0 < IZR (Zpos mt)) by (apply IZR_lt; lia).
    field. lra. }
  rewrite Hval in Hbin, Hround.
  exists m, e, (Zpos (digits2_pos pq) + (ex - et - 53))%Z.
  split; [exact Heq|]. split; [exact Hm|]. split; [lia|].
  split; assumption.
Qed.

(** The product of two normal numbers is the rounding of the product of
    their values. *)
Lemma SFmul_rounds ma ea mb eb :
  normal ma -> normal mb ->
  (-400 <= ea <= 400)%Z -> (-400 <= eb <= 400)%Z ->
  exists m e mag,
    SFmul prec emax (S754_finite false ma ea) (S754_finite false mb eb)
      = S754_finite false m e
    /\ normal m
    /\ (ea + eb + 52 <= e <= ea + eb + 54)%Z
    /\ in_binade (F2R ma ea * F2R mb eb) mag
    /\ rounds_to (F2R ma ea * F2R mb eb) mag m e.
Proof.
  intros Hma Hmb Hea Heb.
  unfold SFmul. cbn [xorb].
  unfold normal in Hma, Hmb.
  assert (Hprod : (2 ^ 104 <= Zpos (ma * mb) < 2 ^ 106)%Z).
  { rewrite Pos2Z.inj_mul.
    change (2 ^ 104)%Z with (2 ^ 52 * 2 ^ 52)%Z.
    change (2 ^ 106)%Z with (2 ^ 53 * 2 ^ 53)%Z.
    split; [apply Z.mul_le_mono_nonneg; lia | apply Z.mul_lt_mono_nonneg; lia]. }
  assert (Hd : (105 <= Zpos (digits2_pos (ma * mb)) <= 106)%Z).
  { split; [apply (digits2_ge _ 104); lia | apply digits2_le; lia]. }
  destruct (binary_round_aux_rounds (ma * mb) (ea + eb) loc_Exact
              (IZR (Zpos (ma * mb))))
    as (m & e & Heq & Hm & He & Hbin & Hround);
    [reflexivity | lia | lia | lia |].
  assert (Hval : IZR (Zpos (ma * mb)) * bpow (ea + eb)
                 = F2R ma ea * F2R mb eb).
  { unfold F2R. rewrite Pos2Z.inj_mul, mult_IZR, bpow_add. ring. }
  rewrite Hval in Hbin, Hround.
  exists m, e, (Zpos (digits2_pos (ma * mb)) + (ea + eb))%Z.
  split; [exact Heq|]. split; [exact Hm|]. split; [lia|].
  split; assumption.
Qed.

Lemma SFleb_zero_finite m e :
  SFleb (S754_zero false) (S754_finite false m e) = true.
Proof. reflexivity. Qed.

Lemma SFleb_finite_refl m e :
  SFleb (S754_finite false m e) (S754_finite false m e) = true.
Proof. apply SFleb_finite. right. split; [reflexivity | apply Z.le_refl]. Qed.

(** Integers below [2 ^ 53] compare as the numbers they are. *)
Lemma num_of_Z_mono a b :
  (0 <= a <= b)%Z -> (b < 2 ^ 53)%Z ->
  SFleb (num_of_Z a) (num_of_Z b) = true.
Proof.
  intros [Ha Hab] Hb.
  destruct a as [|pa|pa]; try lia; destruct b as [|pb|pb]; try lia.
  - reflexivity.
  - destruct (num_of_Z_normal pb Hb) as (m & e & -> & _).
    reflexivity.
  - destruct (num_of_Z_normal pa) as (ma & ea & -> & Hma & _ & Hva); [lia|].
    destruct (num_of_Z_normal pb Hb) as (mb & eb & -> & Hmb & _ & Hvb).
    apply SFleb_finite, normal_le; try assumption.
    rewrite Hva, Hvb. apply IZR_le. exact Hab.
Qed.

Lemma num_of_Z_nonneg a :
  (0 <= a < 2 ^ 53)%Z -> SFleb (S754_zero false) (num_of_Z a) = true.
Proof. intros Ha. apply (num_of_Z_mono 0 a); lia. Qed.

Lemma shiftr_normal m e :
  normal m -> (e < 0)%Z ->
  (0 <= Z.shiftr (Zpos m) (- e) < 2 ^ 52)%Z.
Proof.
  unfold normal. intros Hm He.
  rewrite Z.shiftr_div_pow2 by lia.
  assert (H2 : (2 <= 2 ^ (- e))%Z).
  { change 2%Z with (2 ^ 1)%Z at 1. apply Z.pow_le_mono_r; lia. }
  split; [apply Z.div_pos; lia|].
  apply Z.div_lt_upper_bound; [lia|].
  change (2 ^ 53)%Z with (2 * 2 ^ 52)%Z in Hm. nia.
Qed.

(** [Math.floor] is monotone on the normal numbers. *)
Lemma js_floor_mono m1 e1 m2 e2 :
  normal m1 -> normal m2 ->
  (e1 < e2)%Z \/ (e1 = e2 /\ (Zpos m1 <= Zpos m2)%Z) ->
  SFleb (js_floor (S754_finite false m1 e1))
        (js_floor (S754_finite false m2 e2)) = true.
Proof.
  intros H1 H2 Hle. unfold js_floor. cbn [cond_Zopp].
  fold (num_of_Z (Z.shiftr (Zpos m1) (- e1))).
  fold (num_of_Z (Z.shiftr (Zpos m2) (- e2))).
  destruct (Z.leb_spec 0 e1) as [He1|He1];
    destruct (Z.leb_spec 0 e2) as [He2|He2].
  - apply SFleb_finite. exact Hle.
  - lia.
  - pose proof (shiftr_normal m1 e1 H1 He1) as Hq.
    destruct (Z.shiftr (Zpos m1) (- e1)) as [|pq|pq] eqn:Eq; try lia.
    + reflexivity.
    + destruct (num_of_Z_normal pq) as (m & e & -> & _ & He & _); [lia|].
      apply SFleb_finite. left.
      assert (Zpos (digits2_pos pq) <= 52)%Z by (apply digits2_le; lia).
      lia.
  - pose proof (shiftr_normal m1 e1 H1 He1) as Hq1.
    pose proof (shiftr_normal m2 e2 H2 He2) as Hq2.
    apply num_of_Z_mono; [|lia].
    split; [lia|].
    rewrite !Z.shiftr_div_pow2 by lia.
    destruct Hle as [Hlt | [-> Hm]].
    + replace (- e1)%Z with ((e2 - e1) + - e2)%Z by lia.
      rewrite Z.pow_add_r by lia.
      rewrite <- Z.div_div by (try apply Z.pow_pos_nonneg; lia).
      apply Z.div_le_mono; [apply Z.pow_pos_nonneg; lia|].
      unfold normal in H1, H2.
      assert (H2' : (2 <= 2 ^ (e2 - e1))%Z).
      { change 2%Z with (2 ^ 1)%Z at 1. apply Z.pow_le_mono_r; lia. }
      apply Z.lt_le_incl.
      apply Z.lt_le_trans with (2 ^ 52)%Z; [|lia].
      apply Z.div_lt_upper_bound; [lia|].
      change (2 ^ 53)%Z with (2 * 2 ^ 52)%Z in H1. nia.
    + apply Z.div_le_mono; [apply Z.pow_pos_nonneg; lia | exact Hm].
Qed.

Lemma js_floor_nonneg m e :
  normal m ->
  SFleb (S754_zero false) (js_floor (S754_finite false m e)) = true.
Proof.
  intros Hm. unfold js_floor. cbn [cond_Zopp].
  destruct (Z.leb_spec 0 e) as [He|He]; [reflexivity|].
  apply num_of_Z_nonneg.
  pose proof (shiftr_normal m e Hm He). lia.
Qed.

(** The two roundings behind a percentage: the quotient, then its
    product by 100. *)
Lemma percent_steps x t :
  (0 < x < 2 ^ 53)%N -> (0 < t < 2 ^ 53)%N ->
  exists ma ea mb eb mag mag',
    normal ma /\ normal mb
    /\ in_binade (IZR (Z.of_N x) / IZR (Z.of_N t)) mag
    /\ rounds_to (IZR (Z.of_N x) / IZR (Z.of_N t)) mag ma ea
    /\ in_binade (F2R ma ea * 100) mag'
    /\ rounds_to (F2R ma ea * 100) mag' mb eb
    /\ js_mul (S754_finite false ma ea) (num_of_N 100)
       = S754_finite false mb eb
    /\ percent x t = js_floor (S754_finite false mb eb).
Proof.
  intros Hx Ht.
  destruct x as [|px]; [lia|]. destruct t as [|pt]; [lia|].
  destruct (num_of_Z_normal px) as (mx & ex & Hnx & Hmx & Hex & Hvx); [lia|].
  destruct (num_of_Z_normal pt) as (mt & et & Hnt & Hmt & Het & Hvt); [lia|].
  destruct (num_of_Z_normal 100) as (mc & ec & Hnc & Hmc & Hec & Hvc);
    [reflexivity|].
  assert (Hdx : (1 <= Zpos (digits2_pos px) <= 53)%Z)
    by (split; [lia | apply digits2_le; lia]).
  assert (Hdt : (1 <= Zpos (digits2_pos pt) <= 53)%Z)
    by (split; [lia | apply digits2_le; lia]).
  assert (Hdc : Zpos (digits2_pos 100) = 7%Z) by reflexivity.
  destruct (SFdiv_rounds mx ex mt et Hmx Hmt) as
    (ma & ea & mag & Hdiv & Hma & Hea & Hbin & Hround); [lia | lia |].
  destruct (SFmul_rounds ma ea mc ec Hma Hmc) as
    (mb & eb & mag' & Hmul & Hmb & Heb & Hbin' & Hround'); [lia | lia |].
  rewrite Hvx, Hvt in Hbin, Hround.
  rewrite Hvc in Hbin', Hround'.
  exists ma, ea, mb, eb, mag, mag'.
  unfold percent, js_div, js_mul, num_of_N.
  cbn [Z.of_N]. rewrite Hnx, Hnt, Hdiv.
  change (Z.of_N 100) with 100%Z. rewrite Hnc, Hmul.
  repeat split; try assumption; try apply Hma; try apply Hmb;
    try apply Hbin; try apply Hbin'.
Qed.

Lemma percent_zero t :
  (0 < t < 2 ^ 53)%N -> percent 0 t = S754_zero false.
Proof.
  intros Ht. destruct t as [|pt]; [lia|].
  destruct (num_of_Z_normal pt) as (mt & et & Hnt & _); [lia|].
  unfold percent, js_div, js_mul, num_of_N. cbn [Z.of_N]. rewrite Hnt.
  reflexivity.
Qed.

Lemma percent_nonneg x t :
  (x < 2 ^ 53)%N -> (0 < t < 2 ^ 53)%N ->
  SFleb (S754_zero false) (percent x t) = true.
Proof.
  intros Hx Ht.
  destruct (N.eq_dec x 0) as [->|Hx0].
  - rewrite percent_zero by exact Ht. reflexivity.
  - destruct (percent_steps x t) as
      (ma & ea & mb & eb & mag & mag' & _ & Hmb & _ & _ & _ & _ & _ & ->);
      [lia | exact Ht |].
    apply js_floor_nonneg. exact Hmb.
Qed.

Lemma percent_refl x t :
  (x < 2 ^ 53)%N -> (0 < t < 2 ^ 53)%N ->
  SFleb (percent x t) (percent x t) = true.
Proof.
  intros Hx Ht.
  destruct (N.eq_dec x 0) as [->|Hx0].
  - rewrite percent_zero by exact Ht. reflexivity.
  - destruct (percent_steps x t) as
      (ma & ea & mb & eb & mag & mag' & _ & Hmb & _ & _ & _ & _ & _ & ->);
      [lia | exact Ht |].
    apply js_floor_mono; try assumption.
    right. split; [reflexivity | apply Z.le_refl].
Qed.

(** The percentage grows with the bytes written. *)
Lemma percent_mono x y t :
  (0 < t < 2 ^ 53)%N -> (x <= y)%N -> (y < 2 ^ 53)%N ->
  SFleb (percent x t) (percent y t) = true.
Proof.
  intros Ht Hxy Hy.
  destruct (N.eq_dec x y) as [->|Hne]; [apply percent_refl; assumption|].
  destruct (N.eq_dec x 0) as [->|Hx0].
  { rewrite percent_zero by exact Ht. apply percent_nonneg; assumption. }
  destruct (percent_steps x t) as
    (ma & ea & mb & eb & mag & mag' & Hma & Hmb & Hbin & Hround
     & Hbin' & Hround' & Hmul & ->); [lia | exact Ht |].
  destruct (percent_steps y t) as
    (ma2 & ea2 & mb2 & eb2 & mag2 & mag2' & Hma2 & Hmb2 & Hbin2 & Hround2
     & Hbin2' & Hround2' & Hmul2 & ->); [lia | exact Ht |].
  assert (Hquot : IZR (Z.of_N x) / IZR (Z.of_N t)
                  < IZR (Z.of_N y) / IZR (Z.of_N t)).
  { apply Rmult_lt_compat_r.
    - apply Rinv_0_lt_compat. apply IZR_lt. lia.
    - apply IZR_lt. lia. }
  pose proof (rounds_to_mono _ _ _ _ _ _ _ _ Hquot Hbin Hbin2 Hround Hround2)
    as Ha.
  destruct Ha as [Ha | Ha].
  - assert (Hprod : F2R ma ea * 100 < F2R ma2 ea2 * 100) by lra.
    pose proof (rounds_to_mono _ _ _ _ _ _ _ _ Hprod Hbin' Hbin2'
                  Hround' Hround2') as Hb.
    apply js_floor_mono; try assumption.
    apply normal_le; assumption.
  - destruct (normal_eq _ _ _ _ Hma Hma2 Ha) as [-> ->].
    rewrite Hmul in Hmul2. injection Hmul2 as -> ->.
    apply js_floor_mono; try assumption.
    right. split; [reflexivity | apply Z.le_refl].
Qed.

End Rounding.

(** ** The progress tracker *)

Lemma nondecreasing_tail a l : nondecreasing (a :: l) -> nondecreasing l.
Proof. destruct l as [|b l]; simpl; [auto | intros [_ H]; exact H]. Qed.

Lemma nondecreasing_skip a b l :
  nondecreasing (a :: b :: l) -> nondecreasing (a :: l).
Proof.
  destruct l as [|c l]; simpl; [auto|].
  intros (Hab & Hbc & Hl). split; [lia | exact Hl].
Qed.

Lemma js_strict_eq_sym a b : js_strict_eq a b = js_strict_eq b a.
Proof.
  unfold js_strict_eq, SFeqb, SFcompare.
  destruct a as [[]|[]| |[] ma ea], b as [[]|[]| |[] mb eb]; try reflexivity;
    rewrite (Z.compare_antisym ea eb);
    destruct (ea ?= eb)%Z; simpl; try reflexivity;
    change (Pos.compare_cont Eq ma mb) with (Pos.compare ma mb);
    change (Pos.compare_cont Eq mb ma) with (Pos.compare mb ma);
    rewrite (Pos.compare_antisym ma mb);
    destruct (ma ?= mb)%positive; reflexivity.
Qed.

(** Every published pair holds the percentage of its byte count. *)
Lemma tracker_percent total cum : forall last,
  Forall (fun wp => snd wp = percent (fst wp) total) (tracker total last cum).
Proof.
  induction cum as [|w cum IH]; intros last; simpl; [constructor|].
  destruct (js_strict_eq (percent w total) last); [apply IH|].
  constructor; [reflexivity | apply IH].
Qed.

Lemma last_cons_default {A} (l : list A) : forall a d,
  List.last (a :: l) d = List.last l a.
Proof.
  induction l as [|b l IH]; intros a d; [reflexivity|].
  change (List.last (a :: b :: l) d) with (List.last (b :: l) d).
  rewrite (IH b d), (IH b a). reflexivity.
Qed.

(** [tracker_last] is the last percentage published, or the one given
    when nothing was. *)
Lemma tracker_last_published total cum : forall last,
  tracker_last total last cum
  = List.last (map snd (tracker total last cum)) last.
Proof.
  induction cum as [|w cum IH]; intros last; simpl; [reflexivity|].
  destruct (js_strict_eq (percent w total) last); [apply IH|].
  rewrite IH. cbn [map snd]. symmetry. apply last_cons_default.
Qed.

(** One more report: it is dropped exactly when its percentage equals
    the last one published. *)
Lemma tracker_step total last cum w :
  tracker total last (cum ++ [w]) =
  tracker total last cum
  ++ (if js_strict_eq (percent w total)
           (List.last (map snd (tracker total last cum)) last)
      then []
      else [(w, percent w total)]).
Proof.
  rewrite tracker_app, <- tracker_last_published. simpl.
  destruct (js_strict_eq _ _); reflexivity.
Qed.

(** A report whose percentage differs from the last one published is
    published. *)
Lemma tracker_publishes total last earlier w later :
  js_strict_eq (percent w total)
    (List.last (map snd (tracker total last earlier)) last) = false ->
  exists rest,
    tracker total last (earlier ++ w :: later)
    = tracker total last earlier ++ (w, percent w total) :: rest.
Proof.
  intros Hnew.
  replace (earlier ++ w :: later) with ((earlier ++ [w]) ++ later)
    by (rewrite <- app_assoc; reflexivity).
  rewrite tracker_app, tracker_step, Hnew, <- app_assoc.
  eexists. reflexivity.
Qed.

Lemma tracker_increasing total : forall cum w0,
  (0 < total < 2 ^ 53)%N ->
  nondecreasing (w0 :: cum) ->
  Forall (fun w => (w < 2 ^ 53)%N) (w0 :: cum) ->
  increasing (percent w0 total)
             (map snd (tracker total (percent w0 total) cum)).
Proof.
  induction cum as [|w cum IH]; intros w0 Ht Hsorted Hbound; [exact I|].
  simpl tracker.
  assert (Hle : (w0 <= w)%N) by (simpl in Hsorted; tauto).
  assert (Hw : (w < 2 ^ 53)%N).
  { inversion Hbound as [|? ? _ H]; subst.
    inversion H; subst. assumption. }
  destruct (js_strict_eq (percent w total) (percent w0 total)) eqn:E.
  - apply IH; [exact Ht | eapply nondecreasing_skip; exact Hsorted |].
    inversion Hbound as [|? ? H0 H]; subst.
    inversion H; subst. constructor; assumption.
  - simpl. split; [apply percent_mono; assumption|].
    split; [rewrite js_strict_eq_sym; exact E|].
    apply IH; [exact Ht | eapply nondecreasing_tail; exact Hsorted |].
    inversion Hbound; subst. assumption.
Qed.

(** * The claims *)

(** ** Claim 1: the sequence of a successful run *)

(** C1: a successful run publishes Initializing twice, Manifest twice,
    Preparing twice, Erasing twice exactly when [eraseFirst] is set, then
    Writing at 0, the progress states of the callback, Writing at 100 and
    Finished, and nothing else. *)
Theorem successful_run_sequence env manifestPath eraseFirst :
  succeeds env manifestPath eraseFirst ->
  exists percentages,
    map summary (states env manifestPath eraseFirst) =
    [ SInitializing false; SInitializing true;
      SManifest false; SManifest true;
      SPreparing false; SPreparing true ]
    ++ (if eraseFirst then [ SErasing false; SErasing true ] else [])
    ++ [ SWriting (num_of_N 0) ]
    ++ map SWriting percentages
    ++ [ SWriting (num_of_N 100); SFinished ].
Proof.
  unfold succeeds.
  by_shape env manifestPath eraseFirst; read_log;
    try (destruct eraseFirst); read_log;
    cbn [existsb is_finished orb];
    repeat rewrite ?existsb_app, ?progress_not_finished;
    cbn [existsb is_finished orb]; try discriminate;
    intros _;
    exists (map snd (tracker (sizes bufs) (num_of_N 0) cum));
    rewrite ?map_app, progress_summary; reflexivity.
Qed.

Lemma successful_run_sequence_witness :
  exists percentages,
    map summary (states env_scenario "manifest.json" true) =
    [ SInitializing false; SInitializing true;
      SManifest false; SManifest true;
      SPreparing false; SPreparing true ]
    ++ [ SErasing false; SErasing true ]
    ++ [ SWriting (num_of_N 0) ]
    ++ map SWriting percentages
    ++ [ SWriting (num_of_N 100); SFinished ].
Proof.
  apply (successful_run_sequence env_scenario "manifest.json" true).
  vm_compute. reflexivity.
Defined.

(** ** Claim 2: failures *)

(** The log of a run whose first failure is that of a guarded phase. *)
Lemma failed_run env manifestPath eraseFirst tag :
  fails env manifestPath eraseFirst tag ->
  (tag = FAILED_INITIALIZING -> connected env = true) ->
  exists before message details,
    trace env manifestPath eraseFirst =
      before
      ++ [ Fired {| update := ErrorState message tag details;
                    ev_manifest :=
                      c_manifest (known env manifestPath
                                    (ErrorState message tag details));
                    ev_build :=
                      c_build (known env manifestPath
                                 (ErrorState message tag details));
                    ev_chipFamily :=
                      c_chipFamily (known env manifestPath
                                      (ErrorState message tag details)) |};
           Disconnect ]
    /\ errors (map update (fired before)) = []
    /\ disconnects before = 0%nat.
Proof.
  intros Hfails Hconnected.
  destruct Hfails.
  - specialize (Hconnected eq_refl).
    shape_of env manifestPath eraseFirst; try congruence.
    eexists [_], _, _. cbn [app failure fire].
    repeat split.
  - shape_of env manifestPath eraseFirst; try congruence.
    eexists (upto_manifest env), _, _. unfold failure, fire, known.
    repeat split.
  - shape_of env manifestPath eraseFirst; try congruence.
    assert (m0 = m) by congruence; subst m0.
    eexists (upto_found env m), _, _. unfold failure, fire, known.
    rewrite H1. repeat split.
  - shape_of env manifestPath eraseFirst; try congruence.
    assert (m0 = m) by congruence; subst m0.
    eexists (upto_preparing env m), _, _. unfold failure, fire, known.
    rewrite H1. repeat split.
  - shape_of env manifestPath eraseFirst; try congruence;
      try (exfalso; eapply erase_resolved_or_not; eassumption).
    assert (m0 = m) by congruence; subst m0.
    assert (b0 = b) by congruence; subst b0.
    assert (bufs0 = bufs) by congruence; subst bufs0.
    assert (cum0 = cum) by congruence; subst cum0.
    eexists (upto_writing env eraseFirst m (sizes bufs)
             ++ progress env m (sizes bufs) cum), _, _.
    unfold failure, fire, known. rewrite H1, <- app_assoc.
    split; [reflexivity|].
    split.
    + destruct eraseFirst; read_log; cbn [errors];
        rewrite ?errors_app, ?errors_progress; reflexivity.
    + rewrite disconnects_app, disconnects_progress.
      destruct eraseFirst; reflexivity.
Qed.

(** C2, as the specification states it, fails when the handshake fails
    on a port that is no longer connected: the run publishes
    Initializing and then returns, with no Error state and no disconnect
    attempt. *)
Lemma failed_handshake_closed_port :
  fails env_closed "manifest.json" false FAILED_INITIALIZING
  /\ errors (states env_closed "manifest.json" false) = []
  /\ disconnects (trace env_closed "manifest.json" false) = 0%nat
  /\ map summary (states env_closed "manifest.json" false)
     = [ SInitializing false ].
Proof.
  split; [|vm_compute; repeat split].
  eapply fails_handshake; reflexivity.
Qed.

(** C2, amended: when the first operation to fail is a guarded phase
    operation (handshake, manifest fetch, build selection, a part
    download, a flash write), the run publishes exactly one Error state,
    with the tag of that phase and the context known at that point, as
    its last state, and then attempts one disconnect, its last action;
    but a handshake that fails on a port no longer connected publishes no
    Error and attempts no disconnect, and a cancelled connect logs
    nothing. *)
Theorem failure_publishes_one_error env manifestPath eraseFirst :
  (forall tag,
     fails env manifestPath eraseFirst tag ->
     (tag = FAILED_INITIALIZING -> connected env = true) ->
     errors (states env manifestPath eraseFirst) = [tag]
     /\ disconnects (trace env manifestPath eraseFirst) = 1%nat
     /\ exists before ev,
          trace env manifestPath eraseFirst = before ++ [Fired ev; Disconnect]
          /\ summary (update ev) = SError tag)
  /\ (forall u err,
        connect env = Resolved u ->
        initialize env = Rejected err ->
        connected env = false ->
        errors (states env manifestPath eraseFirst) = []
        /\ disconnects (trace env manifestPath eraseFirst) = 0%nat)
  /\ (forall err,
        connect env = Rejected err ->
        trace env manifestPath eraseFirst = []).
Proof.
  split; [|split].
  - intros tag Hfails Hconnected.
    destruct (failed_run env manifestPath eraseFirst tag Hfails Hconnected)
      as (before & message & details & Htrace & Herrors & Hdisc).
    split; [|split].
    + unfold states. rewrite Htrace, fired_app, map_app, errors_app, Herrors.
      reflexivity.
    + rewrite Htrace, disconnects_app, Hdisc. reflexivity.
    + eexists before, _. split; [exact Htrace | reflexivity].
  - intros u err Hconnect Hinit Hclosed. unfold states.
    shape_of env manifestPath eraseFirst; try congruence.
    split; reflexivity.
  - intros err Hcancel.
    shape_of env manifestPath eraseFirst; congruence.
Qed.

Lemma failure_publishes_one_error_witness :
  (errors (states env_handshake "manifest.json" false) = [FAILED_INITIALIZING]
   /\ disconnects (trace env_handshake "manifest.json" false) = 1%nat
   /\ exists before ev,
        trace env_handshake "manifest.json" false
          = before ++ [Fired ev; Disconnect]
        /\ summary (update ev) = SError FAILED_INITIALIZING)
  /\ (errors (states env_closed "manifest.json" false) = []
      /\ disconnects (trace env_closed "manifest.json" false) = 0%nat)
  /\ trace env_cancelled "manifest.json" false = [].
Proof.
  split; [|split].
  - apply (proj1 (failure_publishes_one_error env_handshake "manifest.json"
                    false) FAILED_INITIALIZING).
    + eapply fails_handshake; reflexivity.
    + reflexivity.
  - apply (proj1 (proj2 (failure_publishes_one_error env_closed
                           "manifest.json" false))
             tt {| err_message := "Failed to connect" |});
      reflexivity.
  - apply (proj2 (proj2 (failure_publishes_one_error env_cancelled
                           "manifest.json" false))
             {| err_message := "NotFoundError" |}).
    reflexivity.
Defined.

(** ** Claim 3: the last percentage *)

(** C3, as the specification states it, fails when the device reports
    the last chunk with all the bytes written: the callback publishes
    Writing at 100 and the explicit emission publishes it again. *)
Lemma full_report_publishes_100_twice :
  succeeds env_scenario "manifest.json" false
  /\ count is_writing_100 (states env_scenario "manifest.json" false) = 2%nat.
Proof. split; vm_compute; reflexivity. Qed.

(** C3, amended: a successful run publishes the explicit Writing state
    at 100 once, right before Finished, whatever the callback did.  The
    states of the callback are those of the tracker run on the
    cumulative byte counts the device reports, out of the sum of the
    downloaded sizes: each time the percentage the callback computes is
    100 and differs from the last one published (from 0 when none was),
    the callback publishes a Writing state at 100 of its own.  So 100 is
    published once more for each such state of the callback, and once
    in all only when there is none. *)
Theorem explicit_final_percentage env manifestPath eraseFirst :
  succeeds env manifestPath eraseFirst ->
  exists m b bufs cum before,
    fetch_json env (resolveURL env manifestPath (location env)) = Resolved m
    /\ find_build m (getChipFamilyName env) = Some b
    /\ settle (filePromises env (resolveURL env manifestPath (location env))
                 0 (Build.parts b)) = (bufs, None)
    /\ fed env 0 (Build.parts b) bufs 0 = (cum, None)
    /\ states env manifestPath eraseFirst =
         before
         ++ map (progress_state (sizes bufs))
                (tracker (sizes bufs) (num_of_N 0) cum)
         ++ [ WritingState (MStr "Flash thành công") (sizes bufs)
                (sizes bufs) (num_of_N 100);
              FinishedState (MStr "Tuyệt vời. Đã hoàn thành!") ]
    /\ count is_writing_100 before = 0%nat
    /\ count is_writing_100 (states env manifestPath eraseFirst) =
         S (count is_writing_100
              (map (progress_state (sizes bufs))
                   (tracker (sizes bufs) (num_of_N 0) cum)))
    /\ (forall earlier w later,
          cum = earlier ++ w :: later ->
          js_strict_eq (percent w (sizes bufs)) (num_of_N 100) = true ->
          js_strict_eq (percent w (sizes bufs))
            (List.last
               (map snd (tracker (sizes bufs) (num_of_N 0) earlier))
               (num_of_N 0)) = false ->
          is_writing_100
            (progress_state (sizes bufs) (w, percent w (sizes bufs))) = true
          /\ exists rest,
               tracker (sizes bufs) (num_of_N 0) cum =
               tracker (sizes bufs) (num_of_N 0) earlier
               ++ (w, percent w (sizes bufs)) :: rest).
Proof.
  intros Hok.
  destruct (successful_run env manifestPath eraseFirst Hok)
    as (m & b & bufs & cum & Hfetch & Hfind & Hsettle & Hfed & Htrace).
  exists m, b, bufs, cum,
    (map update (fired (upto_writing env eraseFirst m (sizes bufs)))).
  split; [exact Hfetch|]. split; [exact Hfind|].
  split; [exact Hsettle|]. split; [exact Hfed|].
  unfold states. rewrite Htrace.
  split; [|split; [|split]].
  - unfold upto_written. repeat rewrite ?fired_app, ?map_app, ?fired_progress.
    rewrite <- !app_assoc. reflexivity.
  - destruct eraseFirst; reflexivity.
  - unfold upto_written. repeat rewrite ?fired_app, ?map_app, ?fired_progress.
    rewrite !count_app.
    replace (count is_writing_100
               (map update
                  (fired (upto_writing env eraseFirst m (sizes bufs)))))
      with 0%nat by (destruct eraseFirst; reflexivity).
    cbn [fired map update fire app].
    replace (count is_writing_100
               [WritingState (MStr "Flash thành công") (sizes bufs)
                  (sizes bufs) (num_of_N 100)])
      with 1%nat by reflexivity.
    replace (count is_writing_100
               [FinishedState (MStr "Tuyệt vời. Đã hoàn thành!")])
      with 0%nat by reflexivity.
    lia.
  - intros earlier w later Hcum Hfull Hnew.
    split; [exact Hfull|].
    rewrite Hcum. apply tracker_publishes. exact Hnew.
Qed.

Lemma explicit_final_percentage_witness :
  exists m b bufs cum before,
    fetch_json env_scenario
      (resolveURL env_scenario "manifest.json" (location env_scenario))
      = Resolved m
    /\ find_build m (getChipFamilyName env_scenario) = Some b
    /\ settle (filePromises env_scenario
                 (resolveURL env_scenario "manifest.json"
                    (location env_scenario))
                 0 (Build.parts b)) = (bufs, None)
    /\ fed env_scenario 0 (Build.parts b) bufs 0 = (cum, None)
    /\ states env_scenario "manifest.json" true =
         before
         ++ map (progress_state (sizes bufs))
                (tracker (sizes bufs) (num_of_N 0) cum)
         ++ [ WritingState (MStr "Flash thành công") (sizes bufs)
                (sizes bufs) (num_of_N 100);
              FinishedState (MStr "Tuyệt vời. Đã hoàn thành!") ]
    /\ count is_writing_100 before = 0%nat
    /\ count is_writing_100 (states env_scenario "manifest.json" true) =
         S (count is_writing_100
              (map (progress_state (sizes bufs))
                   (tracker (sizes bufs) (num_of_N 0) cum)))
    /\ (forall earlier w later,
          cum = earlier ++ w :: later ->
          js_strict_eq (percent w (sizes bufs)) (num_of_N 100) = true ->
          js_strict_eq (percent w (sizes bufs))
            (List.last
               (map snd (tracker (sizes bufs) (num_of_N 0) earlier))
               (num_of_N 0)) = false ->
          is_writing_100
            (progress_state (sizes bufs) (w, percent w (sizes bufs))) = true
          /\ exists rest,
               tracker (sizes bufs) (num_of_N 0) cum =
               tracker (sizes bufs) (num_of_N 0) earlier
               ++ (w, percent w (sizes bufs)) :: rest).
Proof.
  apply (explicit_final_percentage env_scenario "manifest.json" true).
  vm_compute. reflexivity.
Defined.

(** ** Claim 4: the percentages of the callback *)

(** C4, as the specification states it, fails for the percentages a
    run publishes taken together: the explicit Writing state at 100 is
    not held back, and repeats the percentage of a callback that has
    published 100.  One part of 1000 bytes, reported at 500 and at 1000
    bytes, gives the percentages 0, 50, 100 and 100. *)
Lemma explicit_state_repeats_percentage :
  fed env_scenario 0 (Build.parts (sample_build ["a.bin"]))
      [ {| byteLength := 1000 |} ] 0 = ([500; 1000]%N, None)
  /\ nondecreasing [500; 1000]%N
  /\ map summary (filter is_writing (states env_scenario "manifest.json" false))
     = [ SWriting (num_of_N 0); SWriting (num_of_N 50);
         SWriting (num_of_N 100); SWriting (num_of_N 100) ]
  /\ js_strict_eq (num_of_N 100) (num_of_N 100) = true.
Proof.
  split; [reflexivity|]. split; [simpl; lia|].
  split; vm_compute; reflexivity.
Qed.

(** C4, amended: in a run that gets to write a total of [bytesTotal > 0]
    bytes, the device reporting cumulative byte counts that never go
    down (all counts being integers a number holds exactly, below
    [2 ^ 53]): after Writing at 0 the run publishes the progress states
    of the tracker, and after them Error(WriteFailed), or the explicit
    Writing state at 100, followed by Finished or not; each progress
    state carries the percentage
    [Math.floor(bytesWritten / bytesTotal * 100)] of the bytes it
    carries; a report is dropped exactly when its percentage equals the
    last one published; and the percentages published from Writing at 0
    to the last progress state go up, no two in a row being equal.  The
    explicit state at 100 is outside this sequence. *)
Theorem progress_percentages env manifestPath eraseFirst
    u u' m b u'' bufs cum r :
  connect env = Resolved u ->
  initialize env = Resolved u' ->
  fetch_json env (resolveURL env manifestPath (location env)) = Resolved m ->
  find_build m (getChipFamilyName env) = Some b ->
  runStub env = Resolved u'' ->
  settle (filePromises env (resolveURL env manifestPath (location env))
            0 (Build.parts b)) = (bufs, None) ->
  (eraseFirst = true -> exists v, eraseFlash env = Resolved v) ->
  fed env 0 (Build.parts b) bufs 0 = (cum, r) ->
  (0 < sizes bufs < 2 ^ 53)%N ->
  nondecreasing cum ->
  Forall (fun w => (w < 2 ^ 53)%N) cum ->
  (exists before after,
     states env manifestPath eraseFirst =
       before
       ++ [ WritingState (MPct "Quá trình ghi: " (num_of_N 0))
              (sizes bufs) 0 (num_of_N 0) ]
       ++ map (progress_state (sizes bufs))
              (tracker (sizes bufs) (num_of_N 0) cum)
       ++ after
     /\ Forall (fun s => is_writing s = false) before
     /\ (map summary after = [SError WRITE_FAILED]
         \/ map summary after = [SWriting (num_of_N 100)]
         \/ map summary after = [SWriting (num_of_N 100); SFinished]))
  /\ Forall (fun wp => snd wp = percent (fst wp) (sizes bufs))
            (tracker (sizes bufs) (num_of_N 0) cum)
  /\ (forall earlier w later,
        cum = earlier ++ w :: later ->
        tracker (sizes bufs) (num_of_N 0) (earlier ++ [w]) =
        tracker (sizes bufs) (num_of_N 0) earlier
        ++ (if js_strict_eq (percent w (sizes bufs))
                 (List.last
                    (map snd (tracker (sizes bufs) (num_of_N 0) earlier))
                    (num_of_N 0))
            then []
            else [(w, percent w (sizes bufs))]))
  /\ increasing (num_of_N 0)
                (map snd (tracker (sizes bufs) (num_of_N 0) cum)).
Proof.
  intros Hconnect Hinit Hfetch Hfind Hstub Hsettle Herase Hfed
    Htotal Hsorted Hbound.
  split; [|split; [|split]].
  - destruct (writing_run env manifestPath eraseFirst u u' m b u'' bufs cum r)
      as (after & Htrace & Hafter); try assumption.
    unfold states. rewrite Htrace.
    exists (map update (fired (upto_prepared env m
                               ++ (if eraseFirst then erased env m else [])))),
      (map update (fired after)).
    split; [|split; [|exact Hafter]].
    + unfold upto_writing.
      repeat rewrite ?fired_app, ?map_app, ?fired_progress.
      repeat rewrite <- app_assoc. reflexivity.
    + destruct eraseFirst; read_log; repeat constructor.
  - apply tracker_percent.
  - intros earlier w later _. apply tracker_step.
  - change (num_of_N 0) with (S754_zero false).
    rewrite <- (percent_zero (sizes bufs) Htotal).
    apply tracker_increasing; [exact Htotal | |].
    + destruct cum as [|w cum]; [exact I|].
      split; [apply N.le_0_l | exact Hsorted].
    + constructor; [reflexivity | exact Hbound].
Qed.

Lemma progress_percentages_witness :
  (exists before after,
     states env_scenario "manifest.json" false =
       before
       ++ [ WritingState (MPct "Quá trình ghi: " (num_of_N 0)) 1000 0
              (num_of_N 0) ]
       ++ map (progress_state 1000)
              (tracker 1000 (num_of_N 0) [500; 1000]%N)
       ++ after
     /\ Forall (fun s => is_writing s = false) before
     /\ (map summary after = [SError WRITE_FAILED]
         \/ map summary after = [SWriting (num_of_N 100)]
         \/ map summary after = [SWriting (num_of_N 100); SFinished]))
  /\ Forall (fun wp => snd wp = percent (fst wp) 1000)
            (tracker 1000 (num_of_N 0) [500; 1000]%N)
  /\ (forall earlier w later,
        [500; 1000]%N = earlier ++ w :: later ->
        tracker 1000 (num_of_N 0) (earlier ++ [w]) =
        tracker 1000 (num_of_N 0) earlier
        ++ (if js_strict_eq (percent w 1000)
                 (List.last (map snd (tracker 1000 (num_of_N 0) earlier))
                            (num_of_N 0))
            then []
            else [(w, percent w 1000)]))
  /\ increasing (num_of_N 0)
                (map snd (tracker 1000 (num_of_N 0) [500; 1000]%N)).
Proof.
  apply (progress_percentages env_scenario "manifest.json" false tt tt
           (sample_manifest ["a.bin"]) (sample_build ["a.bin"]) tt
           [ {| byteLength := 1000 |} ] [500; 1000]%N None);
    try reflexivity.
  - discriminate.
  - simpl. lia.
  - simpl. lia.
  - repeat constructor.
Defined.

(** Rounding can undershoot: 57 bytes of 100 are published as 56 percent,
    the quotient [0.57] times 100 being just below 57 in binary64. *)
Example percent_57_of_100 : percent 57 100 = num_of_N 56.
Proof. vm_compute. reflexivity. Qed.

(** ** Claim 5: build selection *)

(** What [find] returns, in terms of the list it searches. *)
Lemma find_first {A} (f : A -> bool) (l : list A) :
  match find f l with
  | Some x =>
      exists before after,
        l = before ++ x :: after /\ f x = true
        /\ Forall (fun y => f y = false) before
  | None => Forall (fun y => f y = false) l
  end.
Proof.
  induction l as [|a l IH]; simpl; [constructor|].
  destruct (f a) eqn:Ha.
  - exists [], l. repeat split; [exact Ha | constructor].
  - destruct (find f l) as [x|].
    + destruct IH as (before & after & -> & Hx & Hbefore).
      exists (a :: before), after. repeat split; [exact Hx|].
      constructor; assumption.
    + constructor; assumption.
Qed.

(** C5: build selection returns the first build of the manifest whose
    [chipFamily] is the detected one, and nothing when there is none; in
    that case the run, once connected, initialized and holding the
    manifest, ends with Error(NotSupported) whose details are the
    detected chip family, and then disconnects. *)
Theorem build_selection :
  (forall m chip,
     match find_build m chip with
     | Some b =>
         exists before after,
           Manifest.builds m = before ++ b :: after
           /\ Build.chipFamily b = chipFamilyName chip
           /\ Forall (fun b' => Build.chipFamily b' <> chipFamilyName chip)
                     before
     | None =>
         Forall (fun b' => Build.chipFamily b' <> chipFamilyName chip)
                (Manifest.builds m)
     end)
  /\ (forall env manifestPath eraseFirst u u' m,
        connect env = Resolved u ->
        initialize env = Resolved u' ->
        fetch_json env (resolveURL env manifestPath (location env))
          = Resolved m ->
        find_build m (getChipFamilyName env) = None ->
        (exists before message,
           states env manifestPath eraseFirst =
             before
             ++ [ ErrorState message NOT_SUPPORTED
                    (DetStr (chipFamilyName (getChipFamilyName env))) ]
           /\ map summary before =
              [ SInitializing false; SInitializing true;
                SManifest false; SManifest true ])
        /\ (exists before, trace env manifestPath eraseFirst
                           = before ++ [Disconnect])).
Proof.
  split.
  - intros m chip. unfold find_build.
    pose proof (find_first
                  (fun b => String.eqb (Build.chipFamily b) (chipFamilyName chip))
                  (Manifest.builds m)) as H.
    destruct (find _ _) as [b|].
    + destruct H as (before & after & Hsplit & Hb & Hbefore).
      exists before, after. repeat split; [exact Hsplit | |].
      * apply String.eqb_eq. exact Hb.
      * eapply Forall_impl; [|exact Hbefore].
        intros b' Hb'. apply String.eqb_neq. exact Hb'.
    + eapply Forall_impl; [|exact H].
      intros b' Hb'. apply String.eqb_neq. exact Hb'.
  - intros env manifestPath eraseFirst u u' m Hconnect Hinit Hfetch Hfind.
    unfold states.
    rewrite (unsupported_run env manifestPath eraseFirst u u' m) by assumption.
    split.
    + eexists (map update (fired (upto_found env m))), _. read_log.
      split; reflexivity.
    + eexists (upto_found env m ++ [_]). unfold failure.
      rewrite <- app_assoc. reflexivity.
Qed.

Lemma build_selection_witness :
  (exists before message,
     states env_esp8266 "manifest.json" false =
       before ++ [ ErrorState message NOT_SUPPORTED (DetStr "ESP8266") ]
     /\ map summary before =
        [ SInitializing false; SInitializing true;
          SManifest false; SManifest true ])
  /\ (exists before, trace env_esp8266 "manifest.json" false
                     = before ++ [Disconnect]).
Proof.
  apply (proj2 build_selection env_esp8266 "manifest.json" false tt tt
           (sample_manifest ["a.bin"]));
    reflexivity.
Defined.

(** ** Claim 6: part downloads *)

(** The downloads of the parts before [part] resolve and that of [part]
    rejects with [e]: [e] is the rejection the download loop meets. *)
Lemma settle_first_rejection env url before part after e : forall i,
  (forall k part', nth_error before k = Some part' ->
     exists data, download env url (i + k) part' = Resolved data) ->
  download env url (i + List.length before) part = Rejected e ->
  snd (settle (filePromises env url i (before ++ part :: after))) = Some e.
Proof.
  induction before as [|p before IH]; intros i Hbefore Hpart.
  - simpl in *. rewrite Nat.add_0_r in Hpart. rewrite Hpart. reflexivity.
  - simpl. destruct (Hbefore 0%nat p eq_refl) as [data Hdata].
    rewrite Nat.add_0_r in Hdata. rewrite Hdata. simpl.
    apply IH.
    + intros k part' Hk. destruct (Hbefore (S k) part' Hk) as [d Hd].
      exists d. rewrite <- Hd. f_equal. lia.
    + rewrite <- Hpart. f_equal. simpl. lia.
Qed.

Lemma download_not_ok env url i part resp :
  fetch env i (resolveURL env (Part.path part) url) = Resolved resp ->
  ok resp = false ->
  download env url i part
  = Rejected (download_error (Part.path part) (status resp)).
Proof. intros Hfetch Hok. unfold download. rewrite Hfetch, Hok. reflexivity. Qed.

(** C6, as the specification states it, fails for a part that comes
    after another failed part: of two parts answered 404 and 500, the
    second has a non-success status, and the error published is that of
    the first. *)
Lemma later_status_not_reported :
  fetch env_404_500 1
    (resolveURL env_404_500 "b.bin"
       (resolveURL env_404_500 "manifest.json" (location env_404_500)))
    = bad_response 500
  /\ errors (states env_404_500 "manifest.json" false)
     = [FAILED_FIRMWARE_DOWNLOAD]
  /\ last (states env_404_500 "manifest.json" false)
          (FinishedState (MStr ""))
     = ErrorState (MErr (download_error "a.bin" 404))
         FAILED_FIRMWARE_DOWNLOAD (DetErr (download_error "a.bin" 404))
  /\ err_message (download_error "a.bin" 404)
     <> err_message (download_error "b.bin" 500).
Proof.
  repeat split; try (vm_compute; reflexivity).
  vm_compute. discriminate.
Qed.

(** C6, amended: once the stub is running, the first part, in the order
    of the build, whose download fails decides the outcome.  When its
    fetch, at its path resolved against the manifest URL, answers with a
    response that is not [ok], the run publishes
    Error(FailedFirmwareDownload) with the error made of that path and
    that status as its last state, having published no Erasing and no
    Writing state, and then disconnects. *)
Theorem first_failed_download_reported env manifestPath eraseFirst
    u u' m b u'' before part after resp :
  connect env = Resolved u ->
  initialize env = Resolved u' ->
  fetch_json env (resolveURL env manifestPath (location env)) = Resolved m ->
  find_build m (getChipFamilyName env) = Some b ->
  runStub env = Resolved u'' ->
  Build.parts b = before ++ part :: after ->
  (forall k part', nth_error before k = Some part' ->
     exists data,
       download env (resolveURL env manifestPath (location env)) k part'
       = Resolved data) ->
  fetch env (List.length before)
    (resolveURL env (Part.path part)
       (resolveURL env manifestPath (location env))) = Resolved resp ->
  ok resp = false ->
  exists earlier,
    states env manifestPath eraseFirst =
      earlier
      ++ [ ErrorState
             (MErr (download_error (Part.path part) (status resp)))
             FAILED_FIRMWARE_DOWNLOAD
             (DetErr (download_error (Part.path part) (status resp))) ]
    /\ map summary earlier =
       [ SInitializing false; SInitializing true;
         SManifest false; SManifest true; SPreparing false ]
    /\ Forall (fun s => is_erasing s = false /\ is_writing s = false)
              (states env manifestPath eraseFirst)
    /\ exists events, trace env manifestPath eraseFirst
                      = events ++ [Disconnect].
Proof.
  intros Hconnect Hinit Hfetch Hfind Hstub Hparts Hbefore Hresp Hok.
  pose proof (settle_first_rejection env
                (resolveURL env manifestPath (location env))
                before part after
                (download_error (Part.path part) (status resp)) 0 Hbefore
                (download_not_ok env _ _ part resp Hresp Hok)) as Hsettle.
  rewrite <- Hparts in Hsettle.
  unfold states.
  shape_of env manifestPath eraseFirst; try congruence.
  all: assert (m0 = m) by congruence; subst m0.
  all: assert (b0 = b) by congruence; subst b0.
  all: match goal with
       | H : settle _ = _ |- _ => rewrite H in Hsettle; simpl in Hsettle
       end; try discriminate.
  injection Hsettle as ->.
  eexists (map update (fired (upto_preparing env m))).
  read_log. repeat split.
  - repeat constructor.
  - eexists (upto_preparing env m ++ [_]). unfold failure.
    rewrite <- app_assoc. reflexivity.
Qed.

Lemma first_failed_download_reported_witness :
  exists earlier,
    states env_404_500 "manifest.json" true =
      earlier
      ++ [ ErrorState (MErr (download_error "a.bin" 404))
             FAILED_FIRMWARE_DOWNLOAD (DetErr (download_error "a.bin" 404)) ]
    /\ map summary earlier =
       [ SInitializing false; SInitializing true;
         SManifest false; SManifest true; SPreparing false ]
    /\ Forall (fun s => is_erasing s = false /\ is_writing s = false)
              (states env_404_500 "manifest.json" true)
    /\ exists events, trace env_404_500 "manifest.json" true
                      = events ++ [Disconnect].
Proof.
  apply (first_failed_download_reported env_404_500 "manifest.json" true
           tt tt (sample_manifest ["a.bin"; "b.bin"])
           (sample_build ["a.bin"; "b.bin"]) tt
           [] (sample_part "a.bin") [sample_part "b.bin"]
           {| ok := false; status := 404;
              arrayBuffer := Resolved {| byteLength := 0 |} |});
    try reflexivity.
  intros [|k] part' Hk; discriminate.
Defined.

(** ** Claim 7: a cancelled connect *)

(** C7: when the initial connection fails or is cancelled, the run
    returns at once and publishes no state at all, not even an error;
    it does not attempt a disconnect either. *)
Theorem cancelled_connect_is_silent env manifestPath eraseFirst err :
  connect env = Rejected err ->
  states env manifestPath eraseFirst = []
  /\ trace env manifestPath eraseFirst = []
  /\ fst (run env manifestPath eraseFirst) = Return.
Proof.
  intros Hcancel. by_shape env manifestPath eraseFirst;
    try congruence. repeat split.
Qed.

Lemma cancelled_connect_is_silent_witness :
  states env_cancelled "manifest.json" true = []
  /\ trace env_cancelled "manifest.json" true = []
  /\ fst (run env_cancelled "manifest.json" true) = Return.
Proof.
  apply (cancelled_connect_is_silent env_cancelled "manifest.json" true
           {| err_message := "NotFoundError" |}).
  reflexivity.
Defined.

(** ** Claim 8: terminal states *)

Lemma ends_once_app l1 l2 :
  Forall (fun s => terminal s = false) l1 ->
  ends_once l2 -> ends_once (l1 ++ l2).
Proof.
  induction 1 as [|s l1 Hs Hl1 IH]; intros H2; [exact H2|].
  simpl app. specialize (IH H2). simpl.
  destruct (l1 ++ l2); [exact I | split; assumption].
Qed.

Lemma ends_once_split l : forall before s after,
  ends_once l -> l = before ++ s :: after -> terminal s = true -> after = [].
Proof.
  induction l as [|x l IH]; intros before s after Hl Heq Hs.
  - destruct before; discriminate.
  - destruct before as [|y before]; simpl in Heq; injection Heq as -> ->.
    + simpl in Hl. destruct after; [reflexivity|].
      destruct Hl as [Hx _]. congruence.
    + simpl in Hl. destruct (before ++ s :: after) eqn:E.
      * destruct before; discriminate.
      * destruct Hl as [_ Hl]. eapply IH; [exact Hl | symmetry; exact E | exact Hs].
Qed.

Lemma ends_once_cons s l :
  terminal s = false -> ends_once l -> ends_once (s :: l).
Proof. intros Hs Hl. simpl. destruct l; [exact I | split; assumption]. Qed.

Lemma states_end_once env manifestPath eraseFirst :
  ends_once (states env manifestPath eraseFirst).
Proof.
  by_shape env manifestPath eraseFirst; read_log;
    try (destruct eraseFirst); read_log;
    repeat (apply ends_once_cons; [reflexivity|]);
    try (apply ends_once_app; [apply progress_not_terminal|]);
    repeat (apply ends_once_cons; [reflexivity|]);
    exact I.
Qed.

(** C8: Error and Finished are terminal: wherever one of them stands in
    the sequence of published states, nothing follows it. *)
Theorem terminal_state_is_last env manifestPath eraseFirst before s after :
  states env manifestPath eraseFirst = before ++ s :: after ->
  terminal s = true ->
  after = [].
Proof.
  intros Hsplit Hterminal.
  eapply ends_once_split; [apply states_end_once | exact Hsplit | exact Hterminal].
Qed.

Lemma terminal_state_is_last_witness :
  states env_404 "manifest.json" false =
    removelast (states env_404 "manifest.json" false)
    ++ ErrorState (MErr (download_error "a.bin" 404)) FAILED_FIRMWARE_DOWNLOAD
         (DetErr (download_error "a.bin" 404)) :: []
  /\ @nil FlashState = [].
Proof.
  split; [vm_compute; reflexivity|].
  apply (terminal_state_is_last env_404 "manifest.json" false
           (removelast (states env_404 "manifest.json" false))
           (ErrorState (MErr (download_error "a.bin" 404))
              FAILED_FIRMWARE_DOWNLOAD (DetErr (download_error "a.bin" 404)))
           []);
    vm_compute; reflexivity.
Defined.

(** ** Claim 9: the context of the events *)

Lemma ordered_cons {A} (R : A -> A -> Prop) a l :
  Forall (R a) l -> ordered R l -> ordered R (a :: l).
Proof.
  intros Ha Hl before x between y after Heq.
  destruct before as [|b before]; simpl in Heq; injection Heq as -> ->.
  - rewrite Forall_forall in Ha. apply Ha.
    apply in_or_app. right. left. reflexivity.
  - eapply Hl. reflexivity.
Qed.

Lemma ordered_nil {A} (R : A -> A -> Prop) : ordered R [].
Proof. intros [|b before] x between y after Heq; discriminate. Qed.

Lemma ordered_all {A} (R : A -> A -> Prop) (P : A -> Prop) l :
  (forall x y, P x -> P y -> R x y) -> Forall P l -> ordered R l.
Proof.
  intros HR. induction 1 as [|a l Ha Hl IH]; [apply ordered_nil|].
  apply ordered_cons; [|exact IH].
  eapply Forall_impl; [|exact Hl]. intros y Hy. apply HR; assumption.
Qed.

Lemma progress_has_context env m total cum :
  Forall (has_context (ctx_manifest env m))
         (fired (progress env m total cum)).
Proof.
  rewrite fired_progress_events.
  induction (tracker total (num_of_N 0) cum) as [|wp l IH]; simpl;
    constructor; [repeat split | exact IH].
Qed.

Lemma progress_known env manifestPath m total cum :
  fetch_json env (resolveURL env manifestPath (location env)) = Resolved m ->
  Forall (fun ev => has_context (known env manifestPath (update ev)) ev)
         (fired (progress env m total cum)).
Proof.
  intros Hfetch. rewrite fired_progress_events.
  induction (tracker total (num_of_N 0) cum) as [|wp l IH]; simpl;
    constructor; [|exact IH].
  unfold known; cbn [update progress_state]. rewrite Hfetch. repeat split.
Qed.

Ltac each_event tac :=
  repeat first
    [ apply Forall_nil
    | apply Forall_cons; [tac|]
    | apply Forall_app; split
    | eapply progress_has_context
    | eapply progress_known; eassumption ].

Ltac levels_done :=
  cbn [app]; (split; [reflexivity|]);
  repeat split; each_event ltac:(repeat split).

(** The events of a run, by what their context holds: nothing, then the
    chip family, then the manifest and the build as well. *)
Lemma trace_levels env manifestPath eraseFirst :
  exists l0 l1 l2 c2,
    fired (trace env manifestPath eraseFirst) = l0 ++ l1 ++ l2
    /\ Forall (has_context ctx_start) l0
    /\ Forall (has_context (ctx_chip env)) l1
    /\ Forall (has_context c2) l2
    /\ c_chipFamily c2 = Some (getChipFamilyName env).
Proof.
  generalize (trace_shape env manifestPath eraseFirst).
  generalize (fst (run env manifestPath eraseFirst)).
  generalize (trace env manifestPath eraseFirst).
  intros l c Hshape; destruct Hshape; try (destruct eraseFirst); read_events.
  all: first
    [ match goal with
      | H : fetch_json _ _ = Resolved ?m |- _ =>
          eexists [_], [_; _], _, (ctx_manifest env m)
      end
    | eexists [_], [_; _; _], [], (ctx_chip env); solve [levels_done]
    | eexists [_; _], [], [], (ctx_chip env); solve [levels_done]
    | eexists [_], [], [], (ctx_chip env); solve [levels_done]
    | exists [], [], [], (ctx_chip env) ];
    levels_done.
Qed.

Lemma ordered_app {A} (R : A -> A -> Prop) l1 : forall l2,
  ordered R l1 -> ordered R l2 ->
  Forall (fun x => Forall (R x) l2) l1 ->
  ordered R (l1 ++ l2).
Proof.
  induction l1 as [|a l1 IH]; intros l2 H1 H2 H12; [exact H2|].
  simpl. inversion H12 as [|? ? Ha H12']; subst.
  apply ordered_cons.
  - apply Forall_app. split; [|exact Ha].
    apply Forall_forall. intros y Hy.
    destruct (in_split _ _ Hy) as (between & after & ->).
    apply (H1 [] a between y after). reflexivity.
  - apply IH; [|exact H2|exact H12'].
    intros before x between y after Heq.
    apply (H1 (a :: before) x between y after). simpl. rewrite Heq.
    reflexivity.
Qed.

Lemma extends_from c1 c2 e1 e2 :
  has_context c1 e1 -> has_context c2 e2 ->
  (forall m, c_manifest c1 = Some m -> c_manifest c2 = Some m) ->
  (forall b, c_build c1 = Some b -> c_build c2 = Some b) ->
  (forall c, c_chipFamily c1 = Some c -> c_chipFamily c2 = Some c) ->
  extends e1 e2.
Proof.
  intros (Hm1 & Hb1 & Hc1) (Hm2 & Hb2 & Hc2) Hm Hb Hc.
  unfold extends. rewrite Hm1, Hb1, Hc1, Hm2, Hb2, Hc2. auto.
Qed.

Lemma contexts_ordered env manifestPath eraseFirst :
  ordered extends (fired (trace env manifestPath eraseFirst)).
Proof.
  destruct (trace_levels env manifestPath eraseFirst)
    as (l0 & l1 & l2 & c2 & -> & H0 & H1 & H2 & Hchip).
  apply ordered_app; [| apply ordered_app |].
  - eapply ordered_all; [|exact H0].
    intros x y Hx Hy. eapply extends_from; eauto.
  - eapply ordered_all; [|exact H1].
    intros x y Hx Hy. eapply extends_from; eauto.
  - eapply ordered_all; [|exact H2].
    intros x y Hx Hy. eapply extends_from; eauto.
  - eapply Forall_impl; [|exact H1]. intros x Hx.
    eapply Forall_impl; [|exact H2]. intros y Hy.
    eapply extends_from; eauto; cbn; try discriminate.
    intros c [= <-]. exact Hchip.
  - eapply Forall_impl; [|exact H0]. intros x Hx.
    apply Forall_app; split.
    + eapply Forall_impl; [|exact H1]. intros y Hy.
      eapply extends_from; eauto; cbn; discriminate.
    + eapply Forall_impl; [|exact H2]. intros y Hy.
      eapply extends_from; eauto; cbn; discriminate.
Qed.

Lemma contexts_known env manifestPath eraseFirst :
  Forall (fun ev => has_context (known env manifestPath (update ev)) ev)
         (fired (trace env manifestPath eraseFirst)).
Proof.
  generalize (trace_shape env manifestPath eraseFirst).
  generalize (fst (run env manifestPath eraseFirst)).
  generalize (trace env manifestPath eraseFirst).
  intros l c Hshape; destruct Hshape; try (destruct eraseFirst); read_events;
    each_event
      ltac:(unfold known; cbn [update];
            repeat match goal with
                   | H : fetch_json _ _ = _ |- _ => rewrite H
                   end;
            repeat split).
Qed.

(** C9: the context fields are filled in and never cleared.  Of two
    events of a run, the later one carries every context value the
    earlier one carries, unchanged; and each event carries exactly what
    is known of the context when its state is published. *)
Theorem context_persists env manifestPath eraseFirst
    before e1 between e2 after :
  fired (trace env manifestPath eraseFirst)
    = before ++ e1 :: between ++ e2 :: after ->
  extends e1 e2
  /\ has_context (known env manifestPath (update e1)) e1
  /\ has_context (known env manifestPath (update e2)) e2.
Proof.
  intros Hsplit.
  split; [eapply contexts_ordered; exact Hsplit|].
  pose proof (contexts_known env manifestPath eraseFirst) as H.
  rewrite Hsplit in H. rewrite Forall_forall in H.
  split; apply H.
  - apply in_or_app. right. left. reflexivity.
  - apply in_or_app. right. right. apply in_or_app. right. left. reflexivity.
Qed.

Lemma context_persists_witness :
  extends
    {| update := InitializingState (MStr "Đang cài đặt...") false;
       ev_manifest := None; ev_build := None; ev_chipFamily := None |}
    {| update := PreparingState (MStr "Đang chuẩn bị cài đặt...") false;
       ev_manifest := Some (sample_manifest ["a.bin"]);
       ev_build := Some (sample_build ["a.bin"]);
       ev_chipFamily := Some ESP32 |}
  /\ has_context ctx_start
       {| update := InitializingState (MStr "Đang cài đặt...") false;
          ev_manifest := None; ev_build := None; ev_chipFamily := None |}
  /\ has_context (ctx_manifest env_404 (sample_manifest ["a.bin"]))
       {| update := PreparingState (MStr "Đang chuẩn bị cài đặt...") false;
          ev_manifest := Some (sample_manifest ["a.bin"]);
          ev_build := Some (sample_build ["a.bin"]);
          ev_chipFamily := Some ESP32 |}.
Proof.
  apply (context_persists env_404 "manifest.json" false []
           {| update := InitializingState (MStr "Đang cài đặt...") false;
              ev_manifest := None; ev_build := None; ev_chipFamily := None |}
           (firstn 3 (tl (fired (trace env_404 "manifest.json" false))))
           {| update := PreparingState (MStr "Đang chuẩn bị cài đặt...") false;
              ev_manifest := Some (sample_manifest ["a.bin"]);
              ev_build := Some (sample_build ["a.bin"]);
              ev_chipFamily := Some ESP32 |}
           (skipn 5 (fired (trace env_404 "manifest.json" false)))).
  vm_compute. reflexivity.
Defined.

(** ** Claim 10: chip families without a build *)

Lemma declared_family_differs b chip :
  Build.chipFamily b = "ESP32" \/ Build.chipFamily b = "ESP8266" ->
  chip = ESP32_S2 \/ chip = Unknown_Chip ->
  String.eqb (Build.chipFamily b) (chipFamilyName chip) = false.
Proof. intros [-> | ->] [-> | ->]; reflexivity. Qed.

(** C10: with a manifest whose builds all have a [chipFamily] of the
    declared type, a device detected as ["ESP32-S2"] or ["Unknown Chip"]
    selects no build: the run initializes, fetches the manifest and ends
    with Error(NotSupported). *)
Theorem undeclared_family_not_supported env manifestPath eraseFirst u u' m :
  connect env = Resolved u ->
  initialize env = Resolved u' ->
  fetch_json env (resolveURL env manifestPath (location env)) = Resolved m ->
  Forall (fun b => Build.chipFamily b = "ESP32"
                   \/ Build.chipFamily b = "ESP8266") (Manifest.builds m) ->
  getChipFamilyName env = ESP32_S2 \/ getChipFamilyName env = Unknown_Chip ->
  find_build m (getChipFamilyName env) = None
  /\ map summary (states env manifestPath eraseFirst) =
     [ SInitializing false; SInitializing true;
       SManifest false; SManifest true; SError NOT_SUPPORTED ]
  /\ Forall (fun ev => ev_build ev = None)
            (fired (trace env manifestPath eraseFirst)).
Proof.
  intros Hconnect Hinit Hfetch Hdeclared Hchip.
  assert (Hfind : find_build m (getChipFamilyName env) = None).
  { unfold find_build.
    induction Hdeclared as [|b l Hb Hl IH]; simpl; [reflexivity|].
    rewrite (declared_family_differs b (getChipFamilyName env) Hb Hchip).
    exact IH. }
  split; [exact Hfind|].
  unfold states.
  rewrite (unsupported_run env manifestPath eraseFirst u u' m) by assumption.
  split; [read_log; reflexivity|].
  unfold upto_found, upto_manifest, failure, ctx_manifest.
  rewrite Hfind. cbn [fired app fire]. repeat constructor.
Qed.

Lemma undeclared_family_not_supported_witness :
  find_build (sample_manifest ["a.bin"]) ESP32_S2 = None
  /\ map summary (states env_esp32_s2 "manifest.json" false) =
     [ SInitializing false; SInitializing true;
       SManifest false; SManifest true; SError NOT_SUPPORTED ]
  /\ Forall (fun ev => ev_build ev = None)
            (fired (trace env_esp32_s2 "manifest.json" false)).
Proof.
  apply (undeclared_family_not_supported env_esp32_s2 "manifest.json" false
           tt tt (sample_manifest ["a.bin"]));
    try reflexivity.
  - repeat constructor.
  - left. reflexivity.
Defined.

(** * Further properties of [flash] *)

(** ** Reading a run *)

Lemma settle_resolved proms : forall bufs,
  settle proms = (bufs, None) <-> proms = map Resolved bufs.
Proof.
  induction proms as [|[data|e] proms IH]; intros bufs; simpl.
  - split.
    + intros [= <-]. reflexivity.
    + destruct bufs; [reflexivity | discriminate].
  - destruct (settle proms) as [l o] eqn:E. simpl. split.
    + intros [= <- ->]. simpl. f_equal. apply IH. reflexivity.
    + destruct bufs as [|d bufs]; [discriminate|]. simpl.
      intros [= -> H]. apply IH in H. injection H as -> ->. reflexivity.
  - split; [discriminate|]. destruct bufs; discriminate.
Qed.

Lemma buffers_length env url parts bufs o :
  settle (filePromises env url 0 parts) = (bufs, o) ->
  o = None ->
  List.length parts = List.length bufs.
Proof.
  intros H ->.
  pose proof (settle_length (filePromises env url 0 parts)) as Hlen.
  rewrite H, filePromises_length in Hlen. symmetry. apply Hlen. reflexivity.
Qed.

Lemma fed_writes env : forall parts i bufs w,
  List.length parts = List.length bufs ->
  (exists cum, fed env i parts bufs w = (cum, None)) <->
  (forall k part file,
     nth_error parts k = Some part ->
     nth_error bufs k = Some file ->
     resolves (snd (flashData env (i + k) file (Part.offset part)))).
Proof.
  induction parts as [|part parts IH]; intros i bufs w Hlen.
  - simpl. split.
    + intros _ [|k] p f H; discriminate.
    + intros _. eexists. reflexivity.
  - destruct bufs as [|file bufs]; [discriminate|].
    simpl in Hlen. injection Hlen as Hlen. simpl fed. split.
    + intros [cum H] k p f Hp Hf.
      destruct (snd (flashData env i file (Part.offset part)))
        as [v|e] eqn:E; [|discriminate].
      destruct k as [|k]; simpl in Hp, Hf.
      * injection Hp as <-. injection Hf as <-.
        rewrite Nat.add_0_r. exists v. exact E.
      * replace (i + S k)%nat with (S i + k)%nat by lia.
        eapply (proj1 (IH (S i) bufs (w + byteLength file)%N Hlen));
          [|exact Hp|exact Hf].
        destruct (fed env (S i) parts bufs (w + byteLength file)) as [c o].
        simpl in H. injection H as _ ->. eexists. reflexivity.
    + intros H.
      destruct (H 0%nat part file eq_refl eq_refl) as [v Hv].
      rewrite Nat.add_0_r in Hv. rewrite Hv.
      destruct (proj2 (IH (S i) bufs (w + byteLength file)%N Hlen))
        as [cum Hcum].
      * intros k p f Hp Hf.
        replace (S i + k)%nat with (i + S k)%nat by lia.
        apply H; assumption.
      * rewrite Hcum. simpl. eexists. reflexivity.
Qed.

Ltac unpack :=
  repeat match goal with
         | H : reaches_writing _ _ _ _ _ _ |- _ => destruct H as [? ?]
         | H : prepares _ _ _ _ _ |- _ => destruct H as (? & ? & ?)
         | H : selects _ _ _ _ |- _ => destruct H as (? & ? & ? & ?)
         | H : resolves _ |- _ => destruct H as [? ?]
         | H : filePromises _ _ _ _ = map Resolved _ |- _ =>
             apply settle_resolved in H
         end.

Ltac same_run :=
  repeat match goal with
         | H1 : fetch_json ?env ?url = Resolved ?m1,
           H2 : fetch_json ?env ?url = Resolved ?m2 |- _ =>
             tryif constr_eq m1 m2 then fail else (assert (m2 = m1) by congruence; subst m2)
         | H1 : find_build ?m ?c = Some ?b1,
           H2 : find_build ?m ?c = Some ?b2 |- _ =>
             tryif constr_eq b1 b2 then fail else (assert (b2 = b1) by congruence; subst b2)
         | H1 : settle ?l = (?bufs1, _),
           H2 : settle ?l = (?bufs2, _) |- _ =>
             tryif constr_eq bufs1 bufs2 then fail else (assert (bufs2 = bufs1) by congruence; subst bufs2)
         | H1 : fed ?env ?i ?p ?bufs ?w = (?cum1, _),
           H2 : fed ?env ?i ?p ?bufs ?w = (?cum2, _) |- _ =>
             tryif constr_eq cum1 cum2 then fail else (assert (cum2 = cum1) by congruence; subst cum2)
         end.

Ltac no_finish eraseFirst :=
  read_log; try (destruct eraseFirst); read_log;
  cbn [existsb is_finished orb];
  repeat rewrite ?existsb_app, ?progress_not_finished;
  cbn [existsb is_finished orb].

Ltac no_error eraseFirst :=
  read_log; try (destruct eraseFirst); read_log; cbn [errors];
  rewrite ?errors_app, ?errors_progress; reflexivity.

Ltac no_disconnect :=
  unfold upto_written, upto_writing, upto_prepared, upto_preparing,
    upto_found, upto_manifest, erased, erasing, failure;
  repeat rewrite ?disconnects_app, ?disconnects_progress;
  try reflexivity.

(** ** The course of a run *)

Lemma progress_writing total l :
  Forall (fun s => is_writing s = true) (map (progress_state total) l).
Proof. induction l; simpl; constructor; auto. Qed.

Lemma forward_writing a l :
  (rank a <= 8)%nat ->
  Forall (fun s => is_writing s = true) l -> Forall (forward a) l.
Proof.
  intros Ha Hl. eapply Forall_impl; [|exact Hl]. intros s Hs.
  destruct s; try discriminate.
  destruct a as [? d|? d|? d|? d| | |]; try destruct d; simpl in Ha;
    try lia; try (left; simpl; lia).
  right. split; reflexivity.
Qed.

Lemma writing_forward l1 l2 :
  Forall (fun s => is_writing s = true) l1 ->
  Forall (fun s => (8 <= rank s)%nat) l2 ->
  Forall (fun x => Forall (forward x) l2) l1.
Proof.
  intros H1 H2. eapply Forall_impl; [|exact H1]. intros x Hx.
  eapply Forall_impl; [|exact H2]. intros y Hy.
  destruct x; try discriminate.
  destruct y as [? d|? d|? d|? d| | |]; try destruct d; simpl in Hy;
    try lia; try (left; simpl; lia).
  right. split; reflexivity.
Qed.

Ltac forward_each :=
  repeat first
    [ apply Forall_nil
    | apply Forall_cons;
        [ first [ left; simpl; lia | right; split; reflexivity ] |]
    | apply Forall_app; split
    | apply forward_writing; [simpl; lia | apply progress_writing] ].

Ltac go_forward :=
  repeat first
    [ apply ordered_nil
    | apply ordered_cons; [forward_each|]
    | apply ordered_app;
        [ eapply ordered_all; [|apply progress_writing];
          intros x y Hx Hy; right; split; assumption
        |
        | apply writing_forward;
            [apply progress_writing | repeat constructor; simpl; lia] ] ].

(** X1: the states of a run go forward.  Of two states a run publishes,
    the later one stands further in the course Initializing, Manifest,
    Preparing, Erasing, Writing, Finished, Error (within a phase, not
    done before done), or both are Writing states: whatever fails, no
    state but Writing is published twice and none comes back. *)
Theorem states_go_forward env manifestPath eraseFirst :
  ordered forward (states env manifestPath eraseFirst).
Proof.
  by_shape env manifestPath eraseFirst; read_log;
    try (destruct eraseFirst); read_log; go_forward.
Qed.

(** X2: Finished is published exactly when everything resolves: the
    connection, the handshake, the manifest fetch with a build for the
    chip in it, the stub upload, the download of every part, the erase
    when it is asked for, every [flashData] call, the reset and the
    disconnect. *)
Theorem success_criterion env manifestPath eraseFirst :
  succeeds env manifestPath eraseFirst <->
  exists m b bufs,
    reaches_writing env manifestPath eraseFirst m b bufs
    /\ writes env (Build.parts b) bufs
    /\ resolves (hardReset env)
    /\ resolves (disconnect env).
Proof.
  split.
  - unfold succeeds, states.
    shape_of env manifestPath eraseFirst; intros Hok.
    12: { exists m, b, bufs.
          assert (Hlen : List.length (Build.parts b) = List.length bufs)
            by (eapply buffers_length; [eassumption | reflexivity]).
          repeat split; try (eexists; eassumption); try assumption.
          - apply settle_resolved. assumption.
          - unfold writes.
            apply (proj1 (fed_writes env (Build.parts b) 0 bufs 0 Hlen)).
            eexists; eassumption. }
    all: exfalso; revert Hok; no_finish eraseFirst; discriminate.
  - intros (m & b & bufs & Hreach & Hwrites & Hreset & Hdisc).
    unpack.
    assert (Hlen : List.length (Build.parts b) = List.length bufs)
      by (eapply buffers_length; [eassumption | reflexivity]).
    destruct (proj2 (fed_writes env (Build.parts b) 0 bufs 0 Hlen) Hwrites)
      as [cum Hfed].
    unfold succeeds, states.
    shape_of env manifestPath eraseFirst; try congruence;
      try (exfalso; eapply erase_resolved_or_not; eassumption).
    no_finish eraseFirst; reflexivity.
Qed.

Lemma success_criterion_witness : succeeds env_scenario "manifest.json" true.
Proof.
  apply (proj2 (success_criterion env_scenario "manifest.json" true)).
  exists (sample_manifest ["a.bin"]), (sample_build ["a.bin"]),
    [ {| byteLength := 1000 |} ].
  repeat split; exists tt; reflexivity.
Defined.

(** ** Disconnecting *)

Lemma closes_none l : disconnects l = 0%nat -> closes l.
Proof.
  induction l as [|[ev|] l IH]; intros H; simpl; [exact I | | discriminate].
  apply IH. exact H.
Qed.

Lemma closes_app l1 l2 :
  disconnects l1 = 0%nat -> closes l2 -> closes (l1 ++ l2).
Proof.
  induction l1 as [|[ev|] l1 IH]; intros H1 H2; simpl;
    [exact H2 | | discriminate].
  apply IH; [exact H1 | exact H2].
Qed.

Lemma closes_split l : forall before after,
  closes l -> l = before ++ Disconnect :: after ->
  after = [] \/ exists ev, after = [Fired ev] /\ is_finished (update ev) = true.
Proof.
  induction l as [|x l IH]; intros before after Hl Heq.
  - destruct before; discriminate.
  - destruct before as [|y before]; simpl in Heq; injection Heq as -> ->.
    + exact Hl.
    + destruct y as [ev|].
      * eapply IH; [exact Hl | reflexivity].
      * simpl in Hl. exfalso.
        destruct Hl as [H | (ev & H & _)].
        -- destruct before; discriminate.
        -- destruct before as [|z before]; [discriminate|].
           destruct before; discriminate.
Qed.

Lemma trace_closes env manifestPath eraseFirst :
  closes (trace env manifestPath eraseFirst)
  /\ (disconnects (trace env manifestPath eraseFirst) <= 1)%nat.
Proof.
  shape_of env manifestPath eraseFirst; try (destruct eraseFirst);
    (split;
     [ repeat (apply closes_app; [solve [no_disconnect]|]);
       first [ apply closes_none; solve [no_disconnect]
             | simpl; auto; right; eexists; split; reflexivity ]
     | no_disconnect; unfold disconnects; simpl; lia ]).
Qed.

(** X3: a run attempts one disconnect at most, and once it has
    attempted it publishes nothing more, or Finished alone. *)
Theorem disconnect_ends_the_run env manifestPath eraseFirst :
  (disconnects (trace env manifestPath eraseFirst) <= 1)%nat
  /\ forall before after,
       trace env manifestPath eraseFirst = before ++ Disconnect :: after ->
       after = []
       \/ exists ev, after = [Fired ev] /\ is_finished (update ev) = true.
Proof.
  split; [apply trace_closes|].
  intros before after Heq.
  eapply closes_split; [apply trace_closes | exact Heq].
Qed.

Lemma disconnect_ends_the_run_witness :
  skipn 13 (trace env_scenario "manifest.json" true) = []
  \/ exists ev,
       skipn 13 (trace env_scenario "manifest.json" true) = [Fired ev]
       /\ is_finished (update ev) = true.
Proof.
  apply (proj2 (disconnect_ends_the_run env_scenario "manifest.json" true)
           (firstn 12 (trace env_scenario "manifest.json" true))
           (skipn 13 (trace env_scenario "manifest.json" true))).
  vm_compute. reflexivity.
Defined.

(** ** Awaits outside a [try] *)

Lemma after_disconnect_throw env e :
  after_disconnect env = Throw e -> disconnect env = Rejected e.
Proof.
  unfold after_disconnect. destruct (disconnect env); congruence.
Qed.

(** X4: once the run has published a state, the promise of [flash]
    rejects only with the rejection of a disconnect, or with that of
    the stub upload, of the erase or of the reset, which are awaited
    outside any [try]; in these three cases the run has published
    neither Error nor Finished and has not attempted to disconnect. *)
Theorem rejection_causes env manifestPath eraseFirst e :
  states env manifestPath eraseFirst <> [] ->
  fst (run env manifestPath eraseFirst) = Throw e ->
  (disconnect env = Rejected e
   /\ disconnects (trace env manifestPath eraseFirst) = 1%nat)
  \/ ((runStub env = Rejected e
       \/ (eraseFirst = true /\ eraseFlash env = Rejected e)
       \/ hardReset env = Rejected e)
      /\ errors (states env manifestPath eraseFirst) = []
      /\ existsb is_finished (states env manifestPath eraseFirst) = false
      /\ disconnects (trace env manifestPath eraseFirst) = 0%nat).
Proof.
  intros _. unfold states.
  shape_of env manifestPath eraseFirst; intros Hthrow;
    try discriminate Hthrow;
    first
      [ apply after_disconnect_throw in Hthrow; left;
        (split; [exact Hthrow|]);
        try (destruct eraseFirst); solve [no_disconnect]
      | injection Hthrow as <-;
        first
          [ left; (split; [assumption|]);
            try (destruct eraseFirst); solve [no_disconnect]
          | right; (split; [solve [auto]|]);
            (split; [solve [no_error eraseFirst]|]);
            (split; [no_finish eraseFirst; reflexivity|]);
            try (destruct eraseFirst); solve [no_disconnect] ] ].
Qed.

Lemma rejection_causes_witness :
  (disconnect (env_device (Rejected timed_out) (Resolved tt) (Resolved tt)
                 (Resolved tt)) = Rejected timed_out
   /\ disconnects
        (trace (env_device (Rejected timed_out) (Resolved tt) (Resolved tt)
                  (Resolved tt)) "manifest.json" true) = 1%nat)
  \/ ((runStub (env_device (Rejected timed_out) (Resolved tt) (Resolved tt)
                  (Resolved tt)) = Rejected timed_out
       \/ (true = true
           /\ eraseFlash (env_device (Rejected timed_out) (Resolved tt)
                            (Resolved tt) (Resolved tt)) = Rejected timed_out)
       \/ hardReset (env_device (Rejected timed_out) (Resolved tt)
                       (Resolved tt) (Resolved tt)) = Rejected timed_out)
      /\ errors
           (states (env_device (Rejected timed_out) (Resolved tt)
                      (Resolved tt) (Resolved tt)) "manifest.json" true) = []
      /\ existsb is_finished
           (states (env_device (Rejected timed_out) (Resolved tt)
                      (Resolved tt) (Resolved tt)) "manifest.json" true)
         = false
      /\ disconnects
           (trace (env_device (Rejected timed_out) (Resolved tt)
                     (Resolved tt) (Resolved tt)) "manifest.json" true)
         = 0%nat).
Proof.
  apply (rejection_causes
           (env_device (Rejected timed_out) (Resolved tt) (Resolved tt)
              (Resolved tt)) "manifest.json" true timed_out).
  - vm_compute. discriminate.
  - vm_compute. reflexivity.
Defined.

(** X5: when the stub upload rejects, whatever becomes of the
    downloads, the promise of [flash] rejects with its error; Preparing
    (not done) stays the last state published, and no disconnect is
    attempted. *)
Theorem stub_failure_is_not_reported env manifestPath eraseFirst m b e :
  selects env manifestPath m b ->
  runStub env = Rejected e ->
  fst (run env manifestPath eraseFirst) = Throw e
  /\ map summary (states env manifestPath eraseFirst) =
     [ SInitializing false; SInitializing true;
       SManifest false; SManifest true; SPreparing false ]
  /\ disconnects (trace env manifestPath eraseFirst) = 0%nat.
Proof.
  intros Hsel Hstub. unpack. unfold states.
  shape_of env manifestPath eraseFirst; try congruence.
  same_run. repeat split. congruence.
Qed.

Lemma stub_failure_is_not_reported_witness :
  fst (run (env_device (Rejected timed_out) (Resolved tt) (Resolved tt)
              (Resolved tt)) "manifest.json" false) = Throw timed_out
  /\ map summary
       (states (env_device (Rejected timed_out) (Resolved tt) (Resolved tt)
                  (Resolved tt)) "manifest.json" false) =
     [ SInitializing false; SInitializing true;
       SManifest false; SManifest true; SPreparing false ]
  /\ disconnects
       (trace (env_device (Rejected timed_out) (Resolved tt) (Resolved tt)
                 (Resolved tt)) "manifest.json" false) = 0%nat.
Proof.
  apply (stub_failure_is_not_reported
           (env_device (Rejected timed_out) (Resolved tt) (Resolved tt)
              (Resolved tt)) "manifest.json" false
           (sample_manifest ["a.bin"]) (sample_build ["a.bin"]) timed_out).
  - repeat split; exists tt; reflexivity.
  - reflexivity.
Defined.

(** X6: when the erase that [eraseFirst] asks for rejects, the promise
    of [flash] rejects with its error; Erasing (not done) stays the last
    state published, and no disconnect is attempted. *)
Theorem erase_failure_is_not_reported env manifestPath m b bufs e :
  prepares env manifestPath m b bufs ->
  eraseFlash env = Rejected e ->
  fst (run env manifestPath true) = Throw e
  /\ map summary (states env manifestPath true) =
     [ SInitializing false; SInitializing true;
       SManifest false; SManifest true;
       SPreparing false; SPreparing true; SErasing false ]
  /\ disconnects (trace env manifestPath true) = 0%nat.
Proof.
  intros Hprep Herase. unpack. unfold states.
  shape_of env manifestPath true; try congruence;
    try (exfalso; eapply erase_resolved_or_not; eauto; fail).
  same_run. repeat split. congruence.
Qed.

Lemma erase_failure_is_not_reported_witness :
  fst (run (env_device (Resolved tt) (Rejected timed_out) (Resolved tt)
              (Resolved tt)) "manifest.json" true) = Throw timed_out
  /\ map summary
       (states (env_device (Resolved tt) (Rejected timed_out) (Resolved tt)
                  (Resolved tt)) "manifest.json" true) =
     [ SInitializing false; SInitializing true;
       SManifest false; SManifest true;
       SPreparing false; SPreparing true; SErasing false ]
  /\ disconnects
       (trace (env_device (Resolved tt) (Rejected timed_out) (Resolved tt)
                 (Resolved tt)) "manifest.json" true) = 0%nat.
Proof.
  apply (erase_failure_is_not_reported
           (env_device (Resolved tt) (Rejected timed_out) (Resolved tt)
              (Resolved tt)) "manifest.json"
           (sample_manifest ["a.bin"]) (sample_build ["a.bin"])
           [ {| byteLength := 1000 |} ] timed_out).
  - repeat split; exists tt; reflexivity.
  - reflexivity.
Defined.

(** X7: when the reset rejects, every part being written, the promise
    of [flash] rejects with its error; Writing at 100 stays the last
    state published, neither Finished nor Error follows, and no
    disconnect is attempted. *)
Theorem reset_failure_is_not_reported env manifestPath eraseFirst
    m b bufs e :
  reaches_writing env manifestPath eraseFirst m b bufs ->
  writes env (Build.parts b) bufs ->
  hardReset env = Rejected e ->
  fst (run env manifestPath eraseFirst) = Throw e
  /\ (exists earlier,
        states env manifestPath eraseFirst =
          earlier
          ++ [ WritingState (MStr "Flash thành công") (sizes bufs)
                 (sizes bufs) (num_of_N 100) ]
        /\ Forall (fun s => terminal s = false) earlier)
  /\ disconnects (trace env manifestPath eraseFirst) = 0%nat.
Proof.
  intros Hreach Hwrites Hreset. unpack.
  assert (Hlen : List.length (Build.parts b) = List.length bufs)
    by (eapply buffers_length; [eassumption | reflexivity]).
  destruct (proj2 (fed_writes env (Build.parts b) 0 bufs 0 Hlen) Hwrites)
    as [cum Hfed].
  unfold states.
  shape_of env manifestPath eraseFirst; try congruence;
    try (exfalso; eapply erase_resolved_or_not; eauto; fail).
  same_run. split; [congruence|]. split.
  - exists (map update
              (fired (upto_writing env eraseFirst m (sizes bufs)
                      ++ progress env m (sizes bufs) cum))).
    split.
    + unfold upto_written. rewrite app_assoc, fired_app, map_app.
      reflexivity.
    + rewrite fired_app, map_app, fired_progress. apply Forall_app. split.
      * destruct eraseFirst; read_log; repeat constructor.
      * apply progress_not_terminal.
  - destruct eraseFirst; no_disconnect.
Qed.

Lemma reset_failure_is_not_reported_witness :
  fst (run (env_device (Resolved tt) (Resolved tt) (Rejected timed_out)
              (Resolved tt)) "manifest.json" false) = Throw timed_out
  /\ (exists earlier,
        states (env_device (Resolved tt) (Resolved tt) (Rejected timed_out)
                  (Resolved tt)) "manifest.json" false =
          earlier
          ++ [ WritingState (MStr "Flash thành công")
                 (sizes [ {| byteLength := 1000 |} ])
                 (sizes [ {| byteLength := 1000 |} ]) (num_of_N 100) ]
        /\ Forall (fun s => terminal s = false) earlier)
  /\ disconnects
       (trace (env_device (Resolved tt) (Resolved tt) (Rejected timed_out)
                 (Resolved tt)) "manifest.json" false) = 0%nat.
Proof.
  apply (reset_failure_is_not_reported
           (env_device (Resolved tt) (Resolved tt) (Rejected timed_out)
              (Resolved tt)) "manifest.json" false
           (sample_manifest ["a.bin"]) (sample_build ["a.bin"])
           [ {| byteLength := 1000 |} ] timed_out).
  - repeat split; try (exists tt; reflexivity).
  - intros i part file _ _. exists tt. reflexivity.
  - reflexivity.
Defined.

(** ** Erasing *)

(** A run has one shape only. *)
Lemma Shape_unique env manifestPath eraseFirst c1 l1 c2 l2 :
  Shape env manifestPath eraseFirst c1 l1 ->
  Shape env manifestPath eraseFirst c2 l2 ->
  c1 = c2 /\ l1 = l2.
Proof.
  intros H1 H2. destruct H1; destruct H2; try congruence;
    try (exfalso; eapply erase_resolved_or_not; eauto; fail);
    same_run; split; congruence.
Qed.

Lemma filePromises_with_eraseFlash r env url parts : forall i,
  filePromises (with_eraseFlash r env) url i parts
  = filePromises env url i parts.
Proof.
  induction parts as [|part parts IH]; intros i; simpl;
    [reflexivity | f_equal; apply IH].
Qed.

Lemma fed_with_eraseFlash r env parts : forall i bufs w,
  fed (with_eraseFlash r env) i parts bufs w = fed env i parts bufs w.
Proof.
  induction parts as [|part parts IH]; intros i [|file bufs] w; simpl;
    try reflexivity.
  rewrite IH. reflexivity.
Qed.

Lemma Shape_with_eraseFlash r env manifestPath c l :
  Shape env manifestPath false c l ->
  Shape (with_eraseFlash r env) manifestPath false c l.
Proof.
  destruct 1; try discriminate;
  change (after_disconnect env)
         with (after_disconnect (with_eraseFlash r env));
  change (upto_manifest env)
         with (upto_manifest (with_eraseFlash r env));
  change (ctx_chip env) with (ctx_chip (with_eraseFlash r env));
  change (getChipFamilyName env)
    with (getChipFamilyName (with_eraseFlash r env));
  repeat match goal with
         | |- context [ctx_manifest env ?m] =>
             change (ctx_manifest env m)
               with (ctx_manifest (with_eraseFlash r env) m)
         | |- context [upto_found env ?m] =>
             change (upto_found env m)
               with (upto_found (with_eraseFlash r env) m)
         | |- context [upto_preparing env ?m] =>
             change (upto_preparing env m)
               with (upto_preparing (with_eraseFlash r env) m)
         | |- context [upto_writing env ?f ?m ?t] =>
             change (upto_writing env f m t)
               with (upto_writing (with_eraseFlash r env) f m t)
         | |- context [upto_written env ?f ?m ?t ?cum] =>
             change (upto_written env f m t cum)
               with (upto_written (with_eraseFlash r env) f m t cum)
         | |- context [progress env ?m ?t ?cum] =>
             change (progress env m t cum)
               with (progress (with_eraseFlash r env) m t cum)
         end;
  econstructor;
    rewrite ?filePromises_with_eraseFlash, ?fed_with_eraseFlash;
    cbn [with_eraseFlash location resolveURL fetch_json fetch connect
         initialize connected getChipFamilyName runStub eraseFlash
         flashData hardReset disconnect];
    solve [eassumption | discriminate].
Qed.

Lemma not_erasing_progress total l :
  Forall (fun s => is_erasing s = false) (map (progress_state total) l).
Proof. induction l; simpl; constructor; auto. Qed.

(** X8: without [eraseFirst] nothing is erased: how the run completes
    and what it logs do not depend on how [eraseFlash] would end, and no
    Erasing state is published. *)
Theorem erases_only_on_request env manifestPath r :
  fst (run (with_eraseFlash r env) manifestPath false)
    = fst (run env manifestPath false)
  /\ trace (with_eraseFlash r env) manifestPath false
     = trace env manifestPath false
  /\ Forall (fun s => is_erasing s = false) (states env manifestPath false).
Proof.
  split; [|split].
  - eapply Shape_unique;
      [ apply trace_shape
      | apply Shape_with_eraseFlash; apply trace_shape ].
  - eapply Shape_unique;
      [ apply trace_shape
      | apply Shape_with_eraseFlash; apply trace_shape ].
  - by_shape env manifestPath false; try discriminate; read_log;
      repeat first
        [ apply Forall_nil
        | apply Forall_cons; [reflexivity|]
        | apply Forall_app; split
        | apply not_erasing_progress ].
Qed.

(** ** Failed downloads and writes *)

Lemma download_breaks env url i part e :
  breaks env url i part e -> download env url i part = Rejected e.
Proof.
  unfold download. intros [H | (resp & H & Hok & Hbody)]; rewrite H.
  - reflexivity.
  - rewrite Hok. exact Hbody.
Qed.

(** X9: the first part, in the order of the build, whose download
    fails, failing on the network or while the body of an [ok] response
    is read: the run publishes Error(FailedFirmwareDownload) whose
    message and details are that very error, right after Preparing (not
    done), and then disconnects. *)
Theorem broken_download_reported env manifestPath eraseFirst
    m b before part after e :
  selects env manifestPath m b ->
  resolves (runStub env) ->
  Build.parts b = before ++ part :: after ->
  (forall k part', nth_error before k = Some part' ->
     resolves (download env (resolveURL env manifestPath (location env))
                 k part')) ->
  breaks env (resolveURL env manifestPath (location env))
    (List.length before) part e ->
  exists earlier,
    states env manifestPath eraseFirst =
      earlier ++ [ ErrorState (MErr e) FAILED_FIRMWARE_DOWNLOAD (DetErr e) ]
    /\ map summary earlier =
       [ SInitializing false; SInitializing true;
         SManifest false; SManifest true; SPreparing false ]
    /\ exists events, trace env manifestPath eraseFirst
                      = events ++ [Disconnect].
Proof.
  intros Hsel Hstub Hparts Hbefore Hbreaks. unpack.
  pose proof (settle_first_rejection env
                (resolveURL env manifestPath (location env))
                before part after e 0 Hbefore
                (download_breaks env _ _ part e Hbreaks)) as Hsettle.
  rewrite <- Hparts in Hsettle.
  unfold states.
  shape_of env manifestPath eraseFirst; try congruence; same_run;
    match goal with
    | H : settle _ = _ |- _ => rewrite H in Hsettle; simpl in Hsettle
    end; try discriminate.
  injection Hsettle as ->.
  eexists (map update (fired (upto_preparing env m))).
  read_log. repeat split.
  eexists (upto_preparing env m ++ [_]). unfold failure.
  rewrite <- app_assoc. reflexivity.
Qed.

Lemma broken_download_reported_witness :
  exists earlier,
    states env_offline "manifest.json" true =
      earlier
      ++ [ ErrorState (MErr offline) FAILED_FIRMWARE_DOWNLOAD (DetErr offline) ]
    /\ map summary earlier =
       [ SInitializing false; SInitializing true;
         SManifest false; SManifest true; SPreparing false ]
    /\ exists events, trace env_offline "manifest.json" true
                      = events ++ [Disconnect].
Proof.
  apply (broken_download_reported env_offline "manifest.json" true
           (sample_manifest ["a.bin"]) (sample_build ["a.bin"])
           [] (sample_part "a.bin") [] offline).
  - repeat split; exists tt; reflexivity.
  - exists tt. reflexivity.
  - reflexivity.
  - intros [|k] part' Hk; discriminate.
  - left. reflexivity.
Defined.

Lemma fed_first_rejection env before part after file later e :
  forall i earlier w,
    List.length before = List.length earlier ->
    (forall k part' file',
       nth_error before k = Some part' ->
       nth_error earlier k = Some file' ->
       resolves (snd (flashData env (i + k) file' (Part.offset part')))) ->
    snd (flashData env (i + List.length before) file (Part.offset part))
      = Rejected e ->
    snd (fed env i (before ++ part :: after) (earlier ++ file :: later) w)
      = Some e.
Proof.
  induction before as [|p before IH]; intros i earlier w Hlen Hbefore Hpart.
  - destruct earlier; [|discriminate]. simpl in *.
    rewrite Nat.add_0_r in Hpart. rewrite Hpart. reflexivity.
  - destruct earlier as [|f earlier]; [discriminate|].
    simpl in Hlen. injection Hlen as Hlen. simpl.
    destruct (Hbefore 0%nat p f eq_refl eq_refl) as [v Hv].
    rewrite Nat.add_0_r in Hv. rewrite Hv. simpl.
    apply IH; [exact Hlen | |].
    + intros k part' file' Hp Hf.
      replace (S i + k)%nat with (i + S k)%nat by lia.
      apply Hbefore; assumption.
    + rewrite <- Hpart. f_equal. f_equal. simpl. lia.
Qed.

(** X10: the first [flashData] call to reject ends the run.  After
    Writing at 0 and the progress states of the reports made until the
    rejection, the run publishes Error(WriteFailed), whose message and
    details are the rejection, and then disconnects; the explicit
    Writing state at 100 is not published. *)
Theorem first_failed_write_reported env manifestPath eraseFirst
    m b bufs before part after earlier file later e :
  reaches_writing env manifestPath eraseFirst m b bufs ->
  Build.parts b = before ++ part :: after ->
  bufs = earlier ++ file :: later ->
  List.length before = List.length earlier ->
  (forall k part' file',
     nth_error before k = Some part' ->
     nth_error earlier k = Some file' ->
     resolves (snd (flashData env k file' (Part.offset part')))) ->
  snd (flashData env (List.length before) file (Part.offset part))
    = Rejected e ->
  (exists preparation,
     states env manifestPath eraseFirst =
       preparation
       ++ [ WritingState (MPct "Quá trình ghi: " (num_of_N 0))
              (sizes bufs) 0 (num_of_N 0) ]
       ++ map (progress_state (sizes bufs))
              (tracker (sizes bufs) (num_of_N 0)
                 (fst (fed env 0 (Build.parts b) bufs 0)))
       ++ [ ErrorState (MErr e) WRITE_FAILED (DetErr e) ]
     /\ Forall (fun s => is_writing s = false) preparation)
  /\ exists events, trace env manifestPath eraseFirst = events ++ [Disconnect].
Proof.
  intros Hreach Hparts Hbufs Hlen Hbefore Hpart. unpack.
  pose proof (fed_first_rejection env before part after file later e
                0 earlier 0 Hlen Hbefore Hpart) as Hfed.
  rewrite <- Hparts, <- Hbufs in Hfed.
  destruct (fed env 0 (Build.parts b) bufs 0) as [cum r] eqn:E.
  simpl in Hfed. subst r. unfold states.
  shape_of env manifestPath eraseFirst; try congruence;
    try (exfalso; eapply erase_resolved_or_not; eauto; fail); same_run.
  assert (e0 = e) by congruence. subst e0.
  split.
  - exists (map update
              (fired (upto_prepared env m
                      ++ (if eraseFirst then erased env m else [])))).
    split.
    + unfold upto_writing, failure.
      repeat rewrite ?fired_app, ?map_app, ?fired_progress.
      repeat rewrite <- app_assoc. reflexivity.
    + destruct eraseFirst; read_log; repeat constructor.
  - exists (upto_writing env eraseFirst m (sizes bufs)
            ++ progress env m (sizes bufs) cum
            ++ [fire (ctx_manifest env m)
                  (ErrorState (MErr e) WRITE_FAILED (DetErr e))]).
    unfold failure. repeat rewrite <- app_assoc. reflexivity.
Qed.

Lemma first_failed_write_reported_witness :
  (exists preparation,
     states env_write_fails "manifest.json" false =
       preparation
       ++ [ WritingState (MPct "Quá trình ghi: " (num_of_N 0))
              (sizes [ {| byteLength := 1000 |} ]) 0 (num_of_N 0) ]
       ++ map (progress_state (sizes [ {| byteLength := 1000 |} ]))
              (tracker (sizes [ {| byteLength := 1000 |} ]) (num_of_N 0)
                 (fst (fed env_write_fails 0
                         (Build.parts (sample_build ["a.bin"]))
                         [ {| byteLength := 1000 |} ] 0)))
       ++ [ ErrorState (MErr timed_out) WRITE_FAILED (DetErr timed_out) ]
     /\ Forall (fun s => is_writing s = false) preparation)
  /\ exists events,
       trace env_write_fails "manifest.json" false = events ++ [Disconnect].
Proof.
  apply (first_failed_write_reported env_write_fails "manifest.json" false
           (sample_manifest ["a.bin"]) (sample_build ["a.bin"])
           [ {| byteLength := 1000 |} ]
           [] (sample_part "a.bin") [] [] {| byteLength := 1000 |} []
           timed_out).
  - repeat split; try (exists tt; reflexivity).
  - reflexivity.
  - reflexivity.
  - reflexivity.
  - intros [|k] part' file' Hk; discriminate.
  - reflexivity.
Defined.

(** X11: a build without parts flashes nothing and succeeds: the run
    publishes Finished, and its Writing states are the one at 0 and the
    one at 100, both of 0 bytes out of 0. *)
Theorem build_without_parts env manifestPath eraseFirst m b :
  selects env manifestPath m b ->
  Build.parts b = [] ->
  resolves (runStub env) ->
  (eraseFirst = true -> resolves (eraseFlash env)) ->
  resolves (hardReset env) ->
  resolves (disconnect env) ->
  succeeds env manifestPath eraseFirst
  /\ filter is_writing (states env manifestPath eraseFirst) =
     [ WritingState (MPct "Quá trình ghi: " (num_of_N 0)) 0 0 (num_of_N 0);
       WritingState (MStr "Flash thành công") 0 0 (num_of_N 100) ].
Proof.
  intros Hsel Hparts Hstub Herase Hreset Hdisc. unpack.
  unfold succeeds, states.
  shape_of env manifestPath eraseFirst; try congruence;
    try (exfalso; eapply erase_resolved_or_not; eauto; fail); same_run;
    repeat match goal with
           | H : settle (filePromises _ _ _ (Build.parts b)) = _ |- _ =>
               rewrite Hparts in H; simpl in H
           | H : fed _ _ (Build.parts b) _ _ = _ |- _ =>
               rewrite Hparts in H; simpl in H
           end; try discriminate.
  repeat match goal with
         | H : ([], None) = (_, None) |- _ => injection H as <-
         end.
  split.
  - no_finish eraseFirst; reflexivity.
  - destruct eraseFirst; reflexivity.
Qed.

Lemma build_without_parts_witness :
  succeeds env_no_parts "manifest.json" true
  /\ filter is_writing (states env_no_parts "manifest.json" true) =
     [ WritingState (MPct "Quá trình ghi: " (num_of_N 0)) 0 0 (num_of_N 0);
       WritingState (MStr "Flash thành công") 0 0 (num_of_N 100) ].
Proof.
  apply (build_without_parts env_no_parts "manifest.json" true
           (sample_manifest []) (sample_build [])).
  - repeat split; exists tt; reflexivity.
  - reflexivity.
  - exists tt. reflexivity.
  - intros _. exists tt. reflexivity.
  - exists tt. reflexivity.
  - exists tt. reflexivity.
Defined.

(** ** Byte counts *)

Lemma reports_within (w b rest : N) l :
  Forall (fun x => (x <= b)%N) l ->
  Forall (fun c => (w <= c <= w + (b + rest))%N) (map (N.add w) l).
Proof.
  induction 1 as [|x l Hx Hl IH]; simpl; constructor; [lia | exact IH].
Qed.

Lemma fed_within env :
  within_file env ->
  forall parts i bufs w cum r,
    fed env i parts bufs w = (cum, r) ->
    Forall (fun c => (w <= c <= w + sizes bufs)%N) cum.
Proof.
  intros Hdev.
  induction parts as [|part parts IH]; intros i bufs w cum r H.
  - simpl in H. injection H as <- <-. constructor.
  - destruct bufs as [|file bufs]; simpl in H.
    + injection H as <- <-. constructor.
    + assert (Hhere :
        Forall (fun c => (w <= c <= w + sizes (file :: bufs))%N)
               (map (N.add w) (fst (flashData env i file (Part.offset part))))).
      { change (sizes (file :: bufs)) with (byteLength file + sizes bufs)%N.
        apply reports_within. apply Hdev. }
      destruct (snd (flashData env i file (Part.offset part))) as [v|e].
      * destruct (fed env (S i) parts bufs (w + byteLength file)) as [c o] eqn:E.
        simpl in H. injection H as <- <-.
        apply Forall_app. split; [exact Hhere|].
        eapply Forall_impl; [|eapply IH; exact E].
        intros c' Hc'. cbn beta in Hc'.
        change (sizes (file :: bufs)) with (byteLength file + sizes bufs)%N.
        lia.
      * injection H as <- <-. exact Hhere.
Qed.

Lemma tracker_reports total cum : forall last,
  Forall (fun wp => In (fst wp) cum) (tracker total last cum).
Proof.
  induction cum as [|w cum IH]; intros last; simpl; [constructor|].
  destruct (js_strict_eq (percent w total) last).
  - eapply Forall_impl; [|apply IH]. intros wp H. right. exact H.
  - constructor; [left; reflexivity|].
    eapply Forall_impl; [|apply IH]. intros wp H. right. exact H.
Qed.

Lemma progress_within total cum :
  Forall (fun c => (c <= total)%N) cum ->
  Forall bytes_within
         (map (progress_state total) (tracker total (num_of_N 0) cum)).
Proof.
  intros Hcum. rewrite Forall_forall in Hcum.
  pose proof (tracker_reports total cum (num_of_N 0)) as H.
  induction H as [|wp l Hwp Hl IH]; simpl; constructor; auto.
  simpl. apply Hcum. exact Hwp.
Qed.

(** X12: when the device reports to the callback no more bytes than
    the file it writes holds, no Writing state of any run carries more
    bytes written than its total. *)
Theorem written_within_total env manifestPath eraseFirst :
  within_file env ->
  Forall bytes_within (states env manifestPath eraseFirst).
Proof.
  intros Hdev.
  by_shape env manifestPath eraseFirst; read_log;
    try (destruct eraseFirst); read_log;
    repeat first
      [ apply Forall_nil
      | apply Forall_cons; [simpl; first [exact I | lia]|]
      | apply Forall_app; split
      | apply progress_within;
        match goal with
        | H : fed _ _ _ _ _ = _ |- _ =>
            eapply Forall_impl; [|exact (fed_within env Hdev _ _ _ _ _ _ H)];
            cbn beta; intros; lia
        end ].
Qed.

Lemma written_within_total_witness :
  Forall bytes_within (states env_halves "manifest.json" true).
Proof.
  apply (written_within_total env_halves "manifest.json" true).
  intros i file offset. cbn [flashData env_halves fst].
  repeat constructor; [apply N.Div0.div_le_upper_bound|]; lia.
Defined.

Lemma progress_of_total total l :
  Forall (of_total total) (map (progress_state total) l).
Proof. induction l; simpl; constructor; auto. reflexivity. Qed.

Ltac each_of_total :=
  repeat first
    [ apply Forall_nil
    | apply Forall_cons; [simpl; first [exact I | reflexivity]|]
    | apply Forall_app; split
    | apply progress_of_total ].

(** X17: once the parts are downloaded, every Writing state of the
    run, whatever happens next, carries as its total the sum of the
    byte lengths of the downloaded buffers. *)
Theorem total_is_sum_of_downloads env manifestPath eraseFirst m b bufs :
  prepares env manifestPath m b bufs ->
  Forall (of_total (sizes bufs)) (states env manifestPath eraseFirst).
Proof.
  intros Hprep. unpack.
  by_shape env manifestPath eraseFirst; try congruence; same_run;
    read_log; try (destruct eraseFirst); read_log; each_of_total.
Qed.

Lemma total_is_sum_of_downloads_witness :
  Forall (of_total (sizes [ {| byteLength := 1000 |} ]))
         (states env_scenario "manifest.json" true).
Proof.
  apply (total_is_sum_of_downloads env_scenario "manifest.json" true
           (sample_manifest ["a.bin"]) (sample_build ["a.bin"])
           [ {| byteLength := 1000 |} ]).
  repeat split; exists tt; reflexivity.
Defined.

(** ** The range of the percentage *)

Section Exact.

Local Open Scope R_scope.

Lemma binade_unique r mag1 mag2 :
  in_binade r mag1 -> in_binade r mag2 -> mag1 = mag2.
Proof.
  unfold in_binade. intros [H1 H1'] [H2 H2'].
  destruct (Z.lt_trichotomy mag1 mag2) as [Hlt | [Heq | Hgt]];
    [exfalso | exact Heq | exfalso].
  - pose proof (bpow_le mag1 (mag2 - 1) ltac:(lia)). lra.
  - pose proof (bpow_le mag2 (mag1 - 1) ltac:(lia)). lra.
Qed.

Lemma normal_binade m e : normal m -> in_binade (F2R m e) (e + 53).
Proof.
  intros [Hlo Hhi]. unfold in_binade, F2R.
  replace (e + 53 - 1)%Z with (52 + e)%Z by lia.
  replace (e + 53)%Z with (53 + e)%Z by lia.
  rewrite !bpow_add, (bpow_IZR 52), (bpow_IZR 53) by lia.
  pose proof (bpow_pos e) as He.
  apply IZR_le in Hlo. apply IZR_lt in Hhi.
  split; [apply Rmult_le_compat_r; lra | apply Rmult_lt_compat_r; lra].
Qed.

Lemma rounds_to_self m e : rounds_to (F2R m e) (e + 53) m e.
Proof.
  exists (Zpos m). replace (e + 53 - 53)%Z with e by lia.
  split; [reflexivity|].
  unfold F2R. pose proof (bpow_pos e) as He.
  replace (IZR (Zpos m) * bpow e / bpow e) with (IZR (Zpos m))
    by (field; lra).
  lra.
Qed.

(** A value a number holds exactly is rounded to itself. *)
Lemma rounds_to_exact m0 e0 mag m e :
  normal m0 ->
  in_binade (F2R m0 e0) mag ->
  rounds_to (F2R m0 e0) mag m e ->
  F2R m e = F2R m0 e0.
Proof.
  intros Hn Hb (k & Hk & Hnear).
  assert (mag = (e0 + 53)%Z)
    by (eapply binade_unique; [exact Hb | apply normal_binade; exact Hn]).
  subst mag. replace (e0 + 53 - 53)%Z with e0 in * by lia.
  rewrite Hk. unfold F2R in *. pose proof (bpow_pos e0) as He.
  replace (IZR (Zpos m0) * bpow e0 / bpow e0) with (IZR (Zpos m0)) in Hnear
    by (field; lra).
  assert (Hz : (Zpos m0 = k)%Z).
  { assert (IZR (Zpos m0 - k) < 1) by (rewrite minus_IZR; lra).
    assert (-1 < IZR (Zpos m0 - k)) by (rewrite minus_IZR; lra).
    apply lt_IZR in H. apply lt_IZR in H0. lia. }
  rewrite Hz. reflexivity.
Qed.

(** Rounding does not go past a value a number holds exactly. *)
Lemma rounds_to_le m0 e0 r mag m e :
  normal m0 ->
  r <= F2R m0 e0 ->
  in_binade r mag ->
  rounds_to r mag m e ->
  F2R m e <= F2R m0 e0.
Proof.
  intros Hn [Hlt | Heq] Hb Hr.
  - eapply rounds_to_mono;
      [exact Hlt | exact Hb | apply normal_binade; exact Hn | exact Hr
      | apply rounds_to_self].
  - subst r. rewrite (rounds_to_exact m0 e0 mag m e Hn Hb Hr). apply Rle_refl.
Qed.

Lemma one_exact : F2R 4503599627370496 (-52) = 1.
Proof.
  unfold F2R. change (bpow (-52)) with (bpow (Z.opp 52)).
  rewrite bpow_opp, (bpow_IZR 52) by lia.
  change (2 ^ 52)%Z with 4503599627370496%Z.
  field; apply not_0_IZR; discriminate.
Qed.

Lemma hundred_exact : F2R 7036874417766400 (-46) = 100.
Proof.
  unfold F2R. change (bpow (-46)) with (bpow (Z.opp 46)).
  rewrite bpow_opp, (bpow_IZR 46) by lia.
  change (2 ^ 46)%Z with 70368744177664%Z.
  replace (IZR 7036874417766400) with (100 * IZR 70368744177664)
    by (rewrite <- mult_IZR; reflexivity).
  field; apply not_0_IZR; discriminate.
Qed.

Lemma one_normal : normal 4503599627370496.
Proof. unfold normal. lia. Qed.

Lemma hundred_normal : normal 7036874417766400.
Proof. unfold normal. lia. Qed.

(** All the bytes written make exactly 100 percent. *)
Lemma percent_full t :
  (0 < t < 2 ^ 53)%N -> percent t t = num_of_N 100.
Proof.
  intros Ht.
  destruct (percent_steps t t Ht Ht)
    as (ma & ea & mb & eb & mag & mag' & Hna & Hnb & Hb & Hr & Hb' & Hr'
        & _ & Hp).
  assert (Hone : IZR (Z.of_N t) / IZR (Z.of_N t) = F2R 4503599627370496 (-52)).
  { rewrite one_exact. field. apply not_0_IZR. lia. }
  rewrite Hone in Hb, Hr.
  pose proof (rounds_to_exact _ _ _ _ _ one_normal Hb Hr) as Ha.
  assert (Hhundred : F2R ma ea * 100 = F2R 7036874417766400 (-46)).
  { rewrite Ha, one_exact, hundred_exact. lra. }
  rewrite Hhundred in Hb', Hr'.
  pose proof (rounds_to_exact _ _ _ _ _ hundred_normal Hb' Hr') as Hm.
  destruct (normal_eq _ _ _ _ Hnb hundred_normal Hm) as [-> ->].
  rewrite Hp. vm_compute. reflexivity.
Qed.

(** No more bytes than the total make a whole number of percent, 100 at
    most. *)
Lemma percent_whole x t :
  (0 < t < 2 ^ 53)%N -> (x <= t)%N -> whole_percentage (percent x t).
Proof.
  intros Ht Hx.
  destruct (N.eq_dec x 0) as [-> | Hx0].
  { exists 0%N. split; [lia|]. rewrite percent_zero by exact Ht. reflexivity. }
  destruct (percent_steps x t ltac:(lia) Ht)
    as (ma & ea & mb & eb & mag & mag' & Hna & Hnb & Hb & Hr & Hb' & Hr'
        & _ & Hp).
  assert (Hle : IZR (Z.of_N x) / IZR (Z.of_N t) <= F2R 4503599627370496 (-52)).
  { rewrite one_exact.
    assert (0 < IZR (Z.of_N t)) by (apply IZR_lt; lia).
    assert (IZR (Z.of_N x) <= IZR (Z.of_N t)) by (apply IZR_le; lia).
    apply Rmult_le_reg_r with (IZR (Z.of_N t)); [assumption|].
    replace (IZR (Z.of_N x) / IZR (Z.of_N t) * IZR (Z.of_N t))
      with (IZR (Z.of_N x)) by (field; lra).
    lra. }
  pose proof (rounds_to_le _ _ _ _ _ _ one_normal Hle Hb Hr) as Ha.
  rewrite one_exact in Ha.
  assert (Hle' : F2R ma ea * 100 <= F2R 7036874417766400 (-46))
    by (rewrite hundred_exact; lra).
  pose proof (rounds_to_le _ _ _ _ _ _ hundred_normal Hle' Hb' Hr') as Hm.
  destruct (normal_le _ _ _ _ Hnb hundred_normal Hm) as [He | [He Hmb]].
  - exists (Z.to_N (Z.shiftr (Zpos mb) (- eb))).
    assert (Hs : (0 <= Z.shiftr (Zpos mb) (- eb) <= 100)%Z).
    { rewrite Z.shiftr_div_pow2 by lia.
      destruct Hnb as [_ Hhi].
      assert (2 ^ 47 <= 2 ^ (- eb))%Z by (apply Z.pow_le_mono_r; lia).
      split; [apply Z.div_pos; lia|].
      assert (Zpos mb / 2 ^ (- eb) < 64)%Z; [|lia].
      apply Z.div_lt_upper_bound; lia. }
    split; [lia|].
    rewrite Hp. unfold js_floor, num_of_N.
    destruct (0 <=? eb)%Z eqn:E; [apply Z.leb_le in E; lia|].
    rewrite Z2N.id by lia. reflexivity.
  - subst eb. exists (Z.to_N (Z.shiftr (Zpos mb) 46)).
    assert (Hs : (0 <= Z.shiftr (Zpos mb) 46 <= 100)%Z).
    { rewrite Z.shiftr_div_pow2 by lia.
      split; [apply Z.div_pos; lia|].
      assert (Zpos mb / 2 ^ 46 < 101)%Z; [|lia].
      apply Z.div_lt_upper_bound; lia. }
    split; [lia|].
    rewrite Hp. unfold js_floor, num_of_N.
    change (0 <=? -46)%Z with false. cbv iota.
    change (- -46)%Z with 46%Z.
    rewrite Z2N.id by lia. reflexivity.
Qed.

End Exact.

Lemma whole_0 : whole_percentage (num_of_N 0).
Proof. exists 0%N. split; [lia | reflexivity]. Qed.

Lemma whole_100 : whole_percentage (num_of_N 100).
Proof. exists 100%N. split; [lia | reflexivity]. Qed.

Lemma progress_percentage_within total cum :
  Forall (fun c => (c <= total)%N) cum ->
  Forall percentage_within
         (map (progress_state total) (tracker total (num_of_N 0) cum)).
Proof.
  intros Hcum. rewrite Forall_forall in Hcum.
  pose proof (Forall_and (tracker_reports total cum (num_of_N 0))
                         (tracker_percent total cum (num_of_N 0))) as H.
  induction H as [|wp l [Hin Hwp] Hl IH]; simpl; constructor; auto.
  simpl. intros Htotal. rewrite Hwp.
  apply percent_whole; [exact Htotal | apply Hcum; exact Hin].
Qed.

(** X13: when the device reports no more bytes than the file it writes
    holds, the percentage of every Writing state whose total is positive
    (and below [2 ^ 53]) is a whole number from 0 to 100. *)
Theorem percentages_within_range env manifestPath eraseFirst :
  within_file env ->
  Forall percentage_within (states env manifestPath eraseFirst).
Proof.
  intros Hdev.
  by_shape env manifestPath eraseFirst; read_log;
    try (destruct eraseFirst); read_log;
    repeat first
      [ apply Forall_nil
      | apply Forall_cons;
        [simpl; first [exact I | intros _; first [apply whole_0 | apply whole_100]]|]
      | apply Forall_app; split
      | apply progress_percentage_within;
        match goal with
        | H : fed _ _ _ _ _ = _ |- _ =>
            eapply Forall_impl; [|exact (fed_within env Hdev _ _ _ _ _ _ H)];
            cbn beta; intros; lia
        end ].
Qed.

Lemma percentages_within_range_witness :
  Forall percentage_within (states env_halves "manifest.json" true).
Proof.
  apply (percentages_within_range env_halves "manifest.json" true).
  intros i file offset. cbn [flashData env_halves fst].
  repeat constructor; [apply N.Div0.div_le_upper_bound|]; lia.
Defined.

Lemma count_pos {A} (f : A -> bool) x l :
  In x l -> f x = true -> (1 <= count f l)%nat.
Proof.
  unfold count. induction l as [|a l IH]; intros Hin Hx; [destruct Hin|].
  simpl. destruct Hin as [-> | Hin].
  - rewrite Hx. simpl. lia.
  - specialize (IH Hin Hx). destruct (f a); simpl; lia.
Qed.

Lemma tracker_reaches total t h cum : forall last,
  In t cum ->
  percent t total = h ->
  js_strict_eq h h = true ->
  (exists wp, In wp (tracker total last cum) /\ js_strict_eq (snd wp) h = true)
  \/ js_strict_eq h last = true.
Proof.
  induction cum as [|w cum IH]; intros last Hin Hh Hrefl; [destruct Hin|].
  simpl. destruct Hin as [-> | Hin].
  - rewrite Hh. destruct (js_strict_eq h last) eqn:E; [right; reflexivity|].
    left. exists (t, h). split; [left; reflexivity | exact Hrefl].
  - destruct (js_strict_eq (percent w total) last) eqn:E.
    + apply IH; assumption.
    + destruct (IH (percent w total) Hin Hh Hrefl) as [(wp & Hwp & Hp) | Hp].
      * left. exists wp. split; [right; exact Hwp | exact Hp].
      * left. exists (w, percent w total).
        split; [left; reflexivity|]. simpl.
        rewrite js_strict_eq_sym. exact Hp.
Qed.

Lemma progress_reaches_100 total cum :
  (0 < total < 2 ^ 53)%N ->
  In total cum ->
  (1 <= count is_writing_100
          (map (progress_state total) (tracker total (num_of_N 0) cum)))%nat.
Proof.
  intros Htotal Hin.
  destruct (tracker_reaches total total (num_of_N 100) cum (num_of_N 0) Hin
              (percent_full total Htotal) eq_refl)
    as [(wp & Hwp & Hp) | Hp]; [|discriminate Hp].
  apply count_pos with (progress_state total wp).
  - apply in_map. exact Hwp.
  - exact Hp.
Qed.

(** X14: when every part is written and the device reports, at some
    point, that all the bytes are written, the callback publishes
    Writing at 100 and the explicit emission publishes it again: the
    run publishes it twice at least. *)
Theorem full_report_repeats_100 env manifestPath eraseFirst m b bufs cum :
  reaches_writing env manifestPath eraseFirst m b bufs ->
  fed env 0 (Build.parts b) bufs 0 = (cum, None) ->
  (0 < sizes bufs < 2 ^ 53)%N ->
  In (sizes bufs) cum ->
  (2 <= count is_writing_100 (states env manifestPath eraseFirst))%nat.
Proof.
  intros Hreach Hfed Htotal Hin. unpack.
  pose proof (progress_reaches_100 (sizes bufs) cum Htotal Hin) as Hcount.
  unfold states.
  shape_of env manifestPath eraseFirst; try congruence;
    try (exfalso; eapply erase_resolved_or_not; eauto; fail);
    same_run; unfold upto_written;
    repeat rewrite ?fired_app, ?map_app, ?fired_progress, ?count_app;
    cbn [fired map update fire];
    replace (count is_writing_100
               [WritingState (MStr "Flash thành công") (sizes bufs)
                  (sizes bufs) (num_of_N 100)])
      with 1%nat by reflexivity;
    lia.
Qed.

Lemma full_report_repeats_100_witness :
  (2 <= count is_writing_100 (states env_scenario "manifest.json" false))%nat.
Proof.
  apply (full_report_repeats_100 env_scenario "manifest.json" false
           (sample_manifest ["a.bin"]) (sample_build ["a.bin"])
           [ {| byteLength := 1000 |} ] [500; 1000]%N).
  - repeat split; try (exists tt; reflexivity).
  - reflexivity.
  - simpl. lia.
  - simpl. auto.
Defined.

(** ** Percentages that go up *)

Lemma nondecreasing_all a l :
  nondecreasing (a :: l) -> Forall (fun x => (a <= x)%N) l.
Proof.
  revert a. induction l as [|b l IH]; intros a H; constructor.
  - simpl in H. tauto.
  - apply IH. eapply nondecreasing_skip. exact H.
Qed.

Lemma nondecreasing_cons a l :
  Forall (fun x => (a <= x)%N) l -> nondecreasing l -> nondecreasing (a :: l).
Proof.
  intros Ha Hl. destruct l as [|b l]; [exact I|].
  split; [inversion Ha; assumption | exact Hl].
Qed.

Lemma nondecreasing_app l1 : forall l2,
  nondecreasing l1 -> nondecreasing l2 ->
  Forall (fun x => Forall (fun y => (x <= y)%N) l2) l1 ->
  nondecreasing (l1 ++ l2).
Proof.
  induction l1 as [|a l1 IH]; intros l2 H1 H2 H12; [exact H2|].
  inversion H12 as [|? ? Ha H12']; subst.
  simpl. apply nondecreasing_cons.
  - apply Forall_app. split; [apply nondecreasing_all; exact H1 | exact Ha].
  - apply IH; [eapply nondecreasing_tail; exact H1 | exact H2 | exact H12'].
Qed.

Lemma nondecreasing_shift w l :
  nondecreasing l -> nondecreasing (map (N.add w) l).
Proof.
  induction l as [|a l IH]; intros H; [exact I|].
  destruct l as [|b l]; [exact I|].
  destruct H as [Hab Hl]. split; [lia | apply IH; exact Hl].
Qed.

Lemma fed_rising env :
  within_file env -> rising env ->
  forall parts i bufs w cum r,
    fed env i parts bufs w = (cum, r) -> nondecreasing cum.
Proof.
  intros Hdev Hup.
  induction parts as [|part parts IH]; intros i bufs w cum r H.
  - simpl in H. injection H as <- <-. exact I.
  - destruct bufs as [|file bufs]; simpl in H.
    + injection H as <- <-. exact I.
    + pose proof (nondecreasing_shift w _ (Hup i file (Part.offset part)))
        as Hhere.
      destruct (snd (flashData env i file (Part.offset part))) as [v|e].
      * destruct (fed env (S i) parts bufs (w + byteLength file))
          as [c o] eqn:E.
        simpl in H. injection H as <- <-.
        apply nondecreasing_app; [exact Hhere | eapply IH; exact E|].
        pose proof (reports_within w (byteLength file) 0 _
                      (Hdev i file (Part.offset part))) as Hlow.
        pose proof (fed_within env Hdev _ _ _ _ _ _ E) as Hhigh.
        eapply Forall_impl; [|exact Hlow]. cbn beta. intros x Hx.
        eapply Forall_impl; [|exact Hhigh]. cbn beta. intros y Hy. lia.
      * injection H as <- <-. exact Hhere.
Qed.

Lemma tracker_sorted total cum :
  nondecreasing cum ->
  forall last,
    ordered (fun wp1 wp2 : N * number => (fst wp1 <= fst wp2)%N)
            (tracker total last cum).
Proof.
  induction cum as [|w cum IH]; intros Hcum last; [apply ordered_nil|].
  simpl. pose proof (nondecreasing_tail _ _ Hcum) as Htail.
  destruct (js_strict_eq (percent w total) last); [apply IH; exact Htail|].
  apply ordered_cons; [|apply IH; exact Htail].
  pose proof (nondecreasing_all _ _ Hcum) as Hall.
  rewrite Forall_forall in Hall.
  eapply Forall_impl; [|apply tracker_reports].
  intros wp Hin. simpl. apply Hall. exact Hin.
Qed.

Lemma ordered_map {A B} (f : A -> B) (R : B -> B -> Prop) l :
  ordered (fun a b => R (f a) (f b)) l -> ordered R (map f l).
Proof.
  intros H before x between y after Heq.
  apply map_eq_app in Heq. destruct Heq as (l1 & l2 & -> & _ & Heq).
  apply map_eq_cons in Heq. destruct Heq as (a & l3 & -> & <- & Heq).
  apply map_eq_app in Heq. destruct Heq as (l4 & l5 & -> & _ & Heq).
  apply map_eq_cons in Heq. destruct Heq as (b & l6 & -> & <- & _).
  eapply H. reflexivity.
Qed.

Lemma ordered_among {A} (R R' : A -> A -> Prop) (P : A -> Prop) l :
  ordered R l -> Forall P l ->
  (forall x y, P x -> P y -> R x y -> R' x y) ->
  ordered R' l.
Proof.
  intros HR HP Himp before x between y after Heq.
  rewrite Forall_forall in HP.
  apply Himp; [apply HP | apply HP | eapply HR; exact Heq]; rewrite Heq.
  - apply in_or_app. right. left. reflexivity.
  - apply in_or_app. right. right. apply in_or_app. right. left. reflexivity.
Qed.

Section Rising.

Variable total : N.
Variable cum : list N.
Hypothesis Htotal : (0 < total < 2 ^ 53)%N.
Hypothesis Hsorted : nondecreasing cum.
Hypothesis Hbound : Forall (fun c => (c <= total)%N) cum.

Lemma tracker_known :
  Forall (fun wp => snd wp = percent (fst wp) total /\ (fst wp <= total)%N)
         (tracker total (num_of_N 0) cum).
Proof.
  pose proof (Forall_and (tracker_reports total cum (num_of_N 0))
                         (tracker_percent total cum (num_of_N 0))) as H.
  rewrite Forall_forall in Hbound.
  eapply Forall_impl; [|exact H]. cbn beta. intros wp [Hin Hp].
  split; [exact Hp | apply Hbound; exact Hin].
Qed.

Lemma progress_rises :
  ordered not_below
    (map (progress_state total) (tracker total (num_of_N 0) cum)).
Proof.
  apply ordered_map.
  eapply ordered_among;
    [apply tracker_sorted; exact Hsorted | apply tracker_known|].
  intros x y [Hx Hxt] [Hy Hyt] Hxy. simpl. intros _.
  rewrite Hx, Hy. apply percent_mono; [exact Htotal | exact Hxy | lia].
Qed.

Lemma progress_from_0 msg written :
  Forall (not_below (WritingState msg total written (num_of_N 0)))
         (map (progress_state total) (tracker total (num_of_N 0) cum)).
Proof.
  apply Forall_map. eapply Forall_impl; [|apply tracker_known].
  cbn beta. intros wp [Hp Hw]. simpl. intros _. rewrite Hp.
  apply percent_nonneg; [lia | exact Htotal].
Qed.

Lemma progress_upto_100 post :
  Forall (fun s => match s with
                   | WritingState _ _ _ p => p = num_of_N 100
                   | _ => True
                   end) post ->
  Forall (fun x => Forall (not_below x) post)
         (map (progress_state total) (tracker total (num_of_N 0) cum)).
Proof.
  intros Hpost.
  apply Forall_map. eapply Forall_impl; [|apply tracker_known].
  cbn beta. intros wp [Hp Hw].
  eapply Forall_impl; [|exact Hpost]. cbn beta.
  intros s Hs. destruct s; try exact I. simpl. intros _. subst.
  rewrite Hp, <- (percent_full total Htotal).
  apply percent_mono; [exact Htotal | exact Hw | lia].
Qed.

End Rising.

Lemma not_below_any a l : is_writing a = false -> Forall (not_below a) l.
Proof.
  intros Ha. apply Forall_forall. intros y _.
  destruct a; try discriminate; exact I.
Qed.

Lemma not_below_out_of_range total x y :
  ~ (0 < total < 2 ^ 53)%N ->
  of_total total x -> of_total total y -> not_below x y.
Proof.
  intros Hout Hx Hy. destruct x; try exact I. destruct y; try exact I.
  simpl in *. subst. intros H. contradiction.
Qed.

Ltac rise :=
  repeat first
    [ apply ordered_nil
    | apply ordered_cons;
        [ first
            [ apply not_below_any; reflexivity
            | repeat first
                [ apply Forall_nil
                | apply Forall_cons;
                    [first [exact I | intros _; reflexivity]|]
                | apply Forall_app; split
                | eapply progress_from_0; eassumption ] ] |]
    | apply ordered_app;
        [ eapply progress_rises; eassumption
        |
        | eapply progress_upto_100; [eassumption | eassumption |];
          repeat constructor ] ].

(** X18: when the values the device reports during a [flashData] call
    never go down and never exceed the length of the file, the
    percentages of the Writing states of a run never go down, from one
    part to the next as well: of two Writing states (of a positive
    total below [2 ^ 53]) the later one carries a percentage that is
    not below that of the earlier one. *)
Theorem percentages_never_go_down env manifestPath eraseFirst :
  within_file env -> rising env ->
  ordered not_below (states env manifestPath eraseFirst).
Proof.
  intros Hdev Hup.
  by_shape env manifestPath eraseFirst;
    try match goal with
        | H : fed _ _ _ ?bufs _ = (?cum, _) |- _ =>
            pose proof (fed_rising env Hdev Hup _ _ _ _ _ _ H) as Hsorted;
            assert (Hbound : Forall (fun c => (c <= sizes bufs)%N) cum)
              by (eapply Forall_impl;
                  [|exact (fed_within env Hdev _ _ _ _ _ _ H)];
                  cbn beta; intros; lia);
            assert (Hdec : (0 < sizes bufs < 2 ^ 53)%N
                           \/ ~ (0 < sizes bufs < 2 ^ 53)%N) by lia;
            destruct Hdec as [Htotal | Hout];
            [| apply (ordered_all _ (of_total (sizes bufs)));
               [ intros x y; apply not_below_out_of_range; exact Hout
               | read_log; try (destruct eraseFirst); read_log;
                 each_of_total ] ]
        end;
    read_log; try (destruct eraseFirst); read_log; rise.
Qed.

Lemma percentages_never_go_down_witness :
  ordered not_below (states env_halves "manifest.json" true).
Proof.
  apply (percentages_never_go_down env_halves "manifest.json" true).
  - intros i file offset. cbn [flashData env_halves fst].
    repeat constructor; [apply N.Div0.div_le_upper_bound|]; lia.
  - intros i file offset. cbn [flashData env_halves fst].
    split; [apply N.Div0.div_le_upper_bound; lia | exact I].
Defined.

(** ** The percentages of the callback, whatever the device reports *)

Lemma chained_cons {A} (R : A -> A -> Prop) x y l :
  R x y -> chained R (y :: l) -> chained R (x :: y :: l).
Proof. intros H1 H2. split; assumption. Qed.

Lemma chained_split {A} (R : A -> A -> Prop) l : forall before x y after,
  chained R l -> l = before ++ x :: y :: after -> R x y.
Proof.
  induction l as [|a l IH]; intros before x y after Hl Heq.
  - destruct before; discriminate.
  - destruct before as [|b before]; simpl in Heq; injection Heq as -> ->.
    + simpl in Hl. tauto.
    + simpl in Hl. destruct (before ++ x :: y :: after) eqn:E.
      * destruct before; discriminate.
      * destruct Hl as [_ Hl]. eapply IH; [exact Hl | symmetry; exact E].
Qed.

(** The states of a tracker, after a Writing state of percentage
    [last], and what follows them. *)
Lemma chained_progress total cum rest : forall last s,
  percentage_of s = Some last ->
  chained renews rest ->
  match rest with [] => True | y :: _ => from_callback y = false end ->
  chained renews
    (s :: map (progress_state total) (tracker total last cum) ++ rest).
Proof.
  induction cum as [|w cum IH]; intros last s Hs Hrest Hhead.
  - simpl. destruct rest as [|y rest]; [exact I|].
    split; [|exact Hrest]. intros Hy. congruence.
  - simpl tracker.
    destruct (js_strict_eq (percent w total) last) eqn:E.
    + apply IH; assumption.
    + simpl map. simpl app. apply chained_cons.
      * intros _. exists last, (percent w total).
        split; [exact Hs|]. split; [reflexivity | exact E].
      * apply IH; [reflexivity | exact Hrest | exact Hhead].
Qed.

Ltac chain :=
  repeat first
    [ exact I
    | apply chained_cons; [intros Hcb; discriminate Hcb|]
    | apply chained_progress; [reflexivity | | reflexivity] ].

Lemma states_chained env manifestPath eraseFirst :
  chained renews (states env manifestPath eraseFirst).
Proof.
  by_shape env manifestPath eraseFirst; read_log;
    try (destruct eraseFirst); read_log; chain.
Qed.

(** X15: the callback never publishes the percentage published just
    before.  In every run, whatever the device reports, the state that
    precedes a state of the callback is a Writing state, of another
    percentage for [===]. *)
Theorem callback_state_is_new env manifestPath eraseFirst
    before s1 s2 after :
  states env manifestPath eraseFirst = before ++ s1 :: s2 :: after ->
  from_callback s2 = true ->
  exists p1 p2,
    percentage_of s1 = Some p1 /\ percentage_of s2 = Some p2
    /\ js_strict_eq p2 p1 = false.
Proof.
  intros Hsplit.
  exact (chained_split renews _ before s1 s2 after
           (states_chained env manifestPath eraseFirst) Hsplit).
Qed.

Lemma callback_state_is_new_witness :
  exists p1 p2,
    percentage_of
      (WritingState (MPct "Quá trình ghi: " (num_of_N 0)) 1000 0 (num_of_N 0))
      = Some p1
    /\ percentage_of
         (WritingState (MPct "Tiến trình ghi: " (percent 500 1000)) 1000 500
            (percent 500 1000))
       = Some p2
    /\ js_strict_eq p2 p1 = false.
Proof.
  apply (callback_state_is_new env_scenario "manifest.json" false
           (firstn 6 (states env_scenario "manifest.json" false))
           (WritingState (MPct "Quá trình ghi: " (num_of_N 0)) 1000 0
              (num_of_N 0))
           (WritingState (MPct "Tiến trình ghi: " (percent 500 1000)) 1000 500
              (percent 500 1000))
           (skipn 8 (states env_scenario "manifest.json" false)));
    vm_compute; reflexivity.
Defined.

Lemma percent_of_nothing : percent 0 0 = S754_nan.
Proof. vm_compute. reflexivity. Qed.

Lemma nan_differs p : js_strict_eq S754_nan p = false.
Proof. destruct p; reflexivity. Qed.

Lemma tracker_of_nothing cum :
  Forall (fun c => c = 0%N) cum ->
  forall last, tracker 0 last cum = map (fun _ => (0%N, S754_nan)) cum.
Proof.
  induction 1 as [|c cum -> Hcum IH]; intros last; [reflexivity|].
  cbn [tracker map]. rewrite percent_of_nothing, nan_differs, IH.
  reflexivity.
Qed.

(** X16: with nothing to write (a total of 0 bytes) the percentage is
    [0 / 0 * 100], not a number, which differs from every percentage,
    itself included: each report of the device is published, as a
    Writing state whose percentage is not a number. *)
Theorem empty_firmware_reports env manifestPath eraseFirst m b bufs cum r :
  within_file env ->
  reaches_writing env manifestPath eraseFirst m b bufs ->
  fed env 0 (Build.parts b) bufs 0 = (cum, r) ->
  sizes bufs = 0%N ->
  exists before after,
    states env manifestPath eraseFirst =
      before
      ++ [ WritingState (MPct "Quá trình ghi: " (num_of_N 0)) 0 0 (num_of_N 0) ]
      ++ map (fun _ => WritingState (MPct "Tiến trình ghi: " S754_nan) 0 0
                         S754_nan) cum
      ++ after
    /\ Forall (fun s => is_writing s = false) before.
Proof.
  intros Hdev Hreach Hfed Hempty. unpack.
  assert (Hzero : Forall (fun c => c = 0%N) cum).
  { eapply Forall_impl; [|exact (fed_within env Hdev _ _ _ _ _ _ Hfed)].
    cbn beta. intros c Hc. lia. }
  match goal with
  | Hc : connect env = Resolved ?u, Hi : initialize env = Resolved ?u',
    Hm : fetch_json env _ = Resolved m, Hb : find_build m _ = Some b,
    Hs : runStub env = Resolved ?u'', Hp : settle _ = (bufs, None),
    He : eraseFirst = true -> _ |- _ =>
      destruct (writing_run env manifestPath eraseFirst u u' m b u'' bufs
                  cum r Hc Hi Hm Hb Hs Hp He Hfed)
        as (after & Htrace & _)
  end.
  unfold states. rewrite Htrace, Hempty.
  exists (map update (fired (upto_prepared env m
                             ++ (if eraseFirst then erased env m else [])))),
    (map update (fired after)).
  split.
  - unfold upto_writing.
    repeat rewrite ?fired_app, ?map_app, ?fired_progress.
    rewrite (tracker_of_nothing cum Hzero), map_map.
    repeat rewrite <- app_assoc. reflexivity.
  - destruct eraseFirst; read_log; repeat constructor.
Qed.

Lemma empty_firmware_reports_witness :
  exists before after,
    states env_empty "manifest.json" false =
      before
      ++ [ WritingState (MPct "Quá trình ghi: " (num_of_N 0)) 0 0 (num_of_N 0) ]
      ++ map (fun _ => WritingState (MPct "Tiến trình ghi: " S754_nan) 0 0
                         S754_nan) [0; 0]%N
      ++ after
    /\ Forall (fun s => is_writing s = false) before.
Proof.
  apply (empty_firmware_reports env_empty "manifest.json" false
           (sample_manifest ["a.bin"]) (sample_build ["a.bin"])
           [ {| byteLength := 0 |} ] [0; 0]%N None).
  - intros i file offset. cbn [flashData env_empty fst].
    repeat constructor; [apply N.Div0.div_le_upper_bound|]; lia.
  - repeat split; try (exists tt; reflexivity).
  - reflexivity.
  - reflexivity.
Defined.

(** * The scenario of the specification *)

(** The scenario of the specification: one part of 1000 bytes, the
    device reporting nothing before the write resolves. *)
Example scenario_states :
  map summary (states env_quiet "manifest.json" false) =
  [ SInitializing false; SInitializing true;
    SManifest false; SManifest true;
    SPreparing false; SPreparing true;
    SWriting (num_of_N 0); SWriting (num_of_N 100); SFinished ].
Proof. vm_compute. reflexivity. Qed.
